(** * Current-identity cache and action vocabulary of parse-redux

    A shallow embedding of [src/ParseUser.js] (the current-user cache, the
    default user controller and the static entry points of [ParseUser]) and
    of [src/redux/action-creators.js], together with the properties the
    specification states about them. *)

From Stdlib Require Import ZArith String Ascii List Bool Lia.
From stdpp Require Import base strings gmap list pretty.

Local Open Scope string_scope.
Local Open Scope Z_scope.
Local Open Scope list_scope.

(** ** JavaScript values *)

(** The values that flow through the modelled code: JSON data read from the
    persistent store, server responses and attribute values.  A property
    that is missing from an object reads as [JUndefined]; an object may
    also hold [JUndefined] explicitly, as in [{ password: undefined }]. *)
#[warnings="-register-all"] Inductive jsval : Type :=
  | JUndefined
  | JNull
  | JBool (b : bool)
  | JNum (n : Z)
  | JStr (s : string)
  | JObj (props : gmap string jsval).

Abbreviation jsobj := (gmap string jsval).

(** [o.k] *)
Definition prop (o : jsobj) (k : string) : jsval :=
  match o !! k with
  | Some v => v
  | None => JUndefined
  end.

(** JavaScript truthiness, as tested by [if (v)] and [!v]. *)
Definition truthy (v : jsval) : bool :=
  match v with
  | JUndefined | JNull => false
  | JBool b => b
  | JNum n => negb (n =? 0)
  | JStr s => negb (String.eqb s "")
  | JObj _ => true
  end.

(** [a === b] on values that come out of [JSON.parse]: primitives compare
    by value; two object-valued properties of a freshly parsed document are
    distinct objects and never identical. *)
Definition strict_eq (a b : jsval) : bool :=
  match a, b with
  | JUndefined, JUndefined => true
  | JNull, JNull => true
  | JBool x, JBool y => Bool.eqb x y
  | JNum x, JNum y => x =? y
  | JStr x, JStr y => String.eqb x y
  | _, _ => false
  end.

(** [typeof v === 'object']; note that [typeof null] is ['object']. *)
Definition typeof_object (v : jsval) : bool :=
  match v with
  | JNull | JObj _ => true
  | _ => false
  end.

(** ** Action creators ([src/redux/action-creators.js]) *)

Module ActionCreators.

(** A tagged command.  [payload] is the [arguments] object of the call,
    modelled as the list of the values the creator was called with. *)
Record action := { type : string; payload : list jsval }.

Definition initializeState (arguments : list jsval) : action :=
  {| type := "INITIALIZE_STATE"; payload := arguments |}.
Definition removeState (arguments : list jsval) : action :=
  {| type := "REMOVE_STATE"; payload := arguments |}.
Definition setServerData (arguments : list jsval) : action :=
  {| type := "SET_SERVER_DATA"; payload := arguments |}.
Definition setPendingOp (arguments : list jsval) : action :=
  {| type := "SET_PENDING_OP"; payload := arguments |}.
Definition pushPendingState (arguments : list jsval) : action :=
  {| type := "PUSH_PENDING_STATE"; payload := arguments |}.
Definition popPendingState (arguments : list jsval) : action :=
  {| type := "POP_PENDING_STATE"; payload := arguments |}.
Definition mergeFirstPendingState (arguments : list jsval) : action :=
  {| type := "MERGE_FIRST_PENDING_STATE"; payload := arguments |}.
Definition commitServerChanges (arguments : list jsval) : action :=
  {| type := "COMMIT_SERVER_CHANGES"; payload := arguments |}.
Definition enqueueTask (arguments : list jsval) : action :=
  {| type := "ENQUEUE_TASK"; payload := arguments |}.
Definition _clearAllState (arguments : list jsval) : action :=
  {| type := "CLEAR_ALL_STATE"; payload := arguments |}.

(** The exported object: creator name to creator, in source order. *)
Definition exports : list (string * (list jsval -> action)) :=
  [ ("initializeState", initializeState);
    ("removeState", removeState);
    ("setServerData", setServerData);
    ("setPendingOp", setPendingOp);
    ("pushPendingState", pushPendingState);
    ("popPendingState", popPendingState);
    ("mergeFirstPendingState", mergeFirstPendingState);
    ("commitServerChanges", commitServerChanges);
    ("enqueueTask", enqueueTask);
    ("_clearAllState", _clearAllState) ].

(** The dispatcher vocabulary of the specification, creator by creator. *)
Definition vocabulary : list (string * string) :=
  [ ("initializeState", "INITIALIZE_STATE");
    ("removeState", "REMOVE_STATE");
    ("setServerData", "SET_SERVER_DATA");
    ("setPendingOp", "SET_PENDING_OP");
    ("pushPendingState", "PUSH_PENDING_STATE");
    ("popPendingState", "POP_PENDING_STATE");
    ("mergeFirstPendingState", "MERGE_FIRST_PENDING_STATE");
    ("commitServerChanges", "COMMIT_SERVER_CHANGES");
    ("enqueueTask", "ENQUEUE_TASK");
    ("_clearAllState", "CLEAR_ALL_STATE") ].

(** [f] is the creator named [name] and builds commands tagged [tag]
    around whatever it is called with. *)
Definition creates (entry : string * (list jsval -> action))
    (word : string * string) : Prop :=
  entry.1 = word.1 /\
  forall arguments : list jsval,
    type (entry.2 arguments) = word.2 /\
    payload (entry.2 arguments) = arguments.

End ActionCreators.

(** ** Errors, results and collaborators *)

(** [ParseError] codes used by the controller; their numeric values are
    declared in [ParseError.js]. *)
Inductive ErrorCode := OTHER_CAUSE | SESSION_MISSING.

Inductive Error :=
  | JsError (message : string)                       (* new Error(message) *)
  | SyntaxError                                      (* raised by JSON.parse *)
  | TypeError                                        (* property access on a non-object *)
  | ParseError (code : ErrorCode) (message : string) (* new ParseError(code, message) *)
  | Failure (reason : string).                       (* failure reported by the store or the network *)

(** What a synchronous call does: it returns or it throws. *)
Inductive Result (A : Type) :=
  | Return (a : A)
  | Throw (e : Error).
Arguments Return {A} a.
Arguments Throw {A} e.

(** How a promise ends.  [Crashed] is a callback (or the promise-returning
    function itself) that threw instead of returning. *)
Inductive Outcome (A : Type) :=
  | Fulfilled (a : A)
  | Rejected (e : Error)
  | Crashed (e : Error).
Arguments Fulfilled {A} a.
Arguments Rejected {A} e.
Arguments Crashed {A} e.

(** The entity layer ([ParseObject.js], [ObjectState.js]) is used by the
    user controller through the operations below.  [User] is a reference to
    a user object, [Heap] the state those objects live in. *)
Class ObjectLayer := {
  User : Type;
  Heap : Type;
  (** [new ParseUser()] *)
  ParseObject_new : Heap -> User * Heap;
  (** [ParseObject.fromJSON(json)] *)
  ParseObject_fromJSON : jsobj -> Heap -> User * Heap;
  (** [user.id] *)
  ParseObject_id : User -> Heap -> jsval;
  (** [user.className] and [user._getId()] *)
  ParseObject_className : User -> Heap -> string;
  ParseObject_getId : User -> Heap -> string;
  (** [user.get(attr)] *)
  ParseObject_get : User -> string -> Heap -> jsval;
  (** [user.toJSON()] *)
  ParseObject_toJSON : User -> Heap -> jsobj;
  (** [user._finishFetch(serverData)] *)
  ParseObject_finishFetch : User -> jsobj -> Heap -> Heap;
  (** [user._migrateId(serverId)] and [user._setExisted(existed)] *)
  ParseObject_migrateId : User -> jsval -> Heap -> Heap;
  ParseObject_setExisted : User -> bool -> Heap -> Heap;
  (** the synchronous part of [ParseObject.prototype.save(attrs, options)];
      the rest of the save is the request [ObjectSave] below *)
  ParseObject_save_begin : User -> jsval -> jsobj -> Heap -> Heap;
  (** [ObjectState.setPendingOp(className, id, attr, undefined)] *)
  ObjectState_clearPendingOp : string -> string -> string -> Heap -> Heap;
  (** in-place change of the object that [user.get(attr)] returns, as done
      by [delete authData[key]] and [authData[key] = null] *)
  mutate_attribute : User -> string -> (jsobj -> jsobj) -> Heap -> Heap
}.

(** Pure helpers of the platform and of files outside the controller. *)
Class Platform := {
  (** [JSON.parse(text)]; [None] when it raises a [SyntaxError] *)
  JSON_parse : string -> option jsval;
  (** [JSON.stringify(json)] *)
  JSON_stringify : jsobj -> string;
  (** [Storage.generatePath(key)] *)
  Storage_generatePath : string -> string;
  (** [isRevocableSession(token)] *)
  isRevocableSession : jsval -> bool;
  (** the keys that [for (var key in o)] visits on a plain data object, in
      the order in which the engine visits them (integer-like keys first,
      then the others as they were inserted; the map of an object does
      not record insertions, so the order is the platform's) *)
  for_in : jsobj -> list string;
  (** they are the own keys of the object, each once *)
  for_in_keys : forall o, for_in o ≡ₚ (map_to_list o).*1
}.

(** The members that every plain object, such as [authProviders = {}]
    (line 47), inherits from [Object.prototype].  Each of them is a
    function, or for [__proto__] the prototype itself: truthy, and without
    a [restoreAuthentication] or a [deauthenticate] of its own. *)
Definition Object_prototype : list string :=
  [ "constructor"; "hasOwnProperty"; "isPrototypeOf"; "propertyIsEnumerable";
    "toLocaleString"; "toString"; "valueOf"; "__proto__";
    "__defineGetter__"; "__defineSetter__"; "__lookupGetter__";
    "__lookupSetter__" ].

(** An authentication provider registered in [authProviders]. *)
Record Provider := {
  getAuthType : string;
  restoreAuthentication : jsval -> bool;
  (** whether the provider has a [deauthenticate] method *)
  has_deauthenticate : bool
}.

Definition CURRENT_USER_KEY : string := "currentUser".

Section Coordinator.

Context `{OL : ObjectLayer} `{PF : Platform}.

(** The action [Actions.set(user)] built by the user action creators of
    [ReduxActionCreators.js]. *)
Inductive UserAction :=
  | Actions_set (user : option User).

(** Requests to asynchronous collaborators, indexed by what they resolve
    with. *)
Inductive Request : Type -> Type :=
  | StorageGetItemAsync (path : string) : Request (option string)
  | StorageSetItemAsync (path : string) (value : string) : Request unit
  | StorageRemoveItemAsync (path : string) : Request unit
  | RESTRequest (method path : string) (body options : jsobj) : Request jsobj
  | ObjectSave (user : User) (attrs : jsval) (options : jsobj) : Request unit.

(** What the process does that the outside can see, in order. *)
Inductive Event :=
  | Dispatched (a : UserAction)                 (* Store.dispatch(a) *)
  | CacheAssigned (user : option User)          (* _currentUserCache = user *)
  | StorageGetItem (path : string)              (* Storage.getItem(path) *)
  | Issued {R : Type} (req : Request R)         (* an asynchronous request was sent *)
  | RestoredAuthentication (authType : string) (data : jsval)
  | Deauthenticated (authType : string)
  | UnlinkStarted (user : User) (authType : string).

(** The module-level state of [ParseUser.js] together with the state of its
    collaborators. *)
Record World := {
  canUseCurrentUser : bool;
  currentUserCacheMatchesDisk : bool;
  _currentUserCache : option User;
  authProviders : gmap string Provider;
  heap : Heap;
  (** [Storage.async()] *)
  storage_async : bool;
  (** content of a synchronous store, read by [Storage.getItem] *)
  storage_items : gmap string string;
  trace : list Event
}.

Definition with_canUseCurrentUser (b : bool) (w : World) : World :=
  {| canUseCurrentUser := b;
     currentUserCacheMatchesDisk := currentUserCacheMatchesDisk w;
     _currentUserCache := _currentUserCache w;
     authProviders := authProviders w;
     heap := heap w;
     storage_async := storage_async w;
     storage_items := storage_items w;
     trace := trace w |}.

Definition with_cacheMatchesDisk (b : bool) (w : World) : World :=
  {| canUseCurrentUser := canUseCurrentUser w;
     currentUserCacheMatchesDisk := b;
     _currentUserCache := _currentUserCache w;
     authProviders := authProviders w;
     heap := heap w;
     storage_async := storage_async w;
     storage_items := storage_items w;
     trace := trace w |}.

Definition with_cache (u : option User) (w : World) : World :=
  {| canUseCurrentUser := canUseCurrentUser w;
     currentUserCacheMatchesDisk := currentUserCacheMatchesDisk w;
     _currentUserCache := u;
     authProviders := authProviders w;
     heap := heap w;
     storage_async := storage_async w;
     storage_items := storage_items w;
     trace := trace w |}.

Definition with_heap (h : Heap) (w : World) : World :=
  {| canUseCurrentUser := canUseCurrentUser w;
     currentUserCacheMatchesDisk := currentUserCacheMatchesDisk w;
     _currentUserCache := _currentUserCache w;
     authProviders := authProviders w;
     heap := h;
     storage_async := storage_async w;
     storage_items := storage_items w;
     trace := trace w |}.

Definition with_authProviders (ps : gmap string Provider) (w : World) : World :=
  {| canUseCurrentUser := canUseCurrentUser w;
     currentUserCacheMatchesDisk := currentUserCacheMatchesDisk w;
     _currentUserCache := _currentUserCache w;
     authProviders := ps;
     heap := heap w;
     storage_async := storage_async w;
     storage_items := storage_items w;
     trace := trace w |}.

Definition log (e : Event) (w : World) : World :=
  {| canUseCurrentUser := canUseCurrentUser w;
     currentUserCacheMatchesDisk := currentUserCacheMatchesDisk w;
     _currentUserCache := _currentUserCache w;
     authProviders := authProviders w;
     heap := heap w;
     storage_async := storage_async w;
     storage_items := storage_items w;
     trace := trace w ++ [e] |}.

(** *** Synchronous code *)

Definition Sync (A : Type) : Type := World -> World * Result A.

Definition ret {A} (a : A) : Sync A := fun w => (w, Return a).
Definition throw {A} (e : Error) : Sync A := fun w => (w, Throw e).
Definition bind {A B} (c : Sync A) (f : A -> Sync B) : Sync B :=
  fun w =>
    match c w with
    | (w', Return a) => f a w'
    | (w', Throw e) => (w', Throw e)
    end.
Definition read {A} (f : World -> A) : Sync A := fun w => (w, Return (f w)).
Definition write (f : World -> World) : Sync unit := fun w => (f w, Return tt).

(** [for (var key in ...) body(key)] *)
Fixpoint for_each {A} (l : list A) (body : A -> Sync unit) : Sync unit :=
  match l with
  | [] => ret tt
  | x :: l' => bind (body x) (fun _ => for_each l' body)
  end.

(** *** Promises *)

(** A promise of the process: settled, or waiting for a collaborator; the
    continuation runs in the world as it is when the answer arrives. *)
#[warnings="-register-all"] Inductive Task (A : Type) : Type :=
  | Settled (o : Outcome A)
  | Await {R : Type} (req : Request R)
      (k : R + Error -> World -> World * Task A).
Arguments Settled {A} o.
Arguments Await {A R} req k.

(** A call that returns a promise. *)
Definition Async (A : Type) : Type := World -> World * Task A.

(** [ParsePromise.as(value)] and [ParsePromise.error(e)] *)
Definition as_ {A} (a : A) : Async A := fun w => (w, Settled (Fulfilled a)).
Definition error_ {A} (e : Error) : Async A := fun w => (w, Settled (Rejected e)).

(** [promise.then(callback)]: the callback runs on fulfilment (at once
    when the promise is already fulfilled) and the result follows the
    promise the callback returns; a rejection passes through. *)
Fixpoint chain {A B} (t : Task A) (f : A -> Async B) (w : World)
    : World * Task B :=
  match t with
  | Settled (Fulfilled a) => f a w
  | Settled (Rejected e) => (w, Settled (Rejected e))
  | Settled (Crashed e) => (w, Settled (Crashed e))
  | Await req k =>
      (w, Await req (fun r w' => let '(w'', t') := k r w' in chain t' f w''))
  end.

Definition then_ {A B} (p : Async A) (f : A -> Async B) : Async B :=
  fun w => let '(w', t) := p w in chain t f w'.

(** Synchronous code at the start of a promise-returning function or of a
    callback; if it throws, no promise is returned. *)
Definition run_sync {A B} (c : Sync A) (f : A -> Async B) : Async B :=
  fun w =>
    match c w with
    | (w', Return a) => f a w'
    | (w', Throw e) => (w', Settled (Crashed e))
    end.

(** Sending a request: the promise settles with the collaborator's answer. *)
Definition issue {R} (req : Request R) : Async R :=
  fun w =>
    (log (Issued req) w,
     Await req (fun r w' =>
       (w', Settled match r with
                    | inl v => Fulfilled v
                    | inr e => Rejected e
                    end))).

End Coordinator.

Arguments Settled {OL A} o.
Arguments Await {OL A R} req k.
Arguments Issued {OL R} req.

Declare Scope js_scope.
Delimit Scope js_scope with js.
Notation "'do' x <- c ; k" := (bind c (fun x => k))
  (at level 10, x name, c at level 100, k at level 200,
   format "'[v' 'do'  x  <-  c ; '/' k ']'") : js_scope.
Notation "'exec' c ; k" := (bind c (fun _ => k))
  (at level 10, c at level 100, k at level 200,
   format "'[v' 'exec'  c ; '/' k ']'") : js_scope.
Local Open Scope js_scope.

(** ** [ParseUser.js] *)

(** The functions of the file, written over the controller that
    [CoreManager.getUserController()] returns at the time of the call. *)
Module Src.

Section ParseUser.

Context `{OL : ObjectLayer} `{PF : Platform}.

(** [CoreManager.getUserController().currentUser], looked up at each call. *)
Variable getUserController_currentUser : Sync (option User).

(** *** [currentUserCache] (lines 33-45) *)

Definition Store_dispatch (a : UserAction) : Sync unit :=
  write (log (Dispatched a)).

Definition currentUserCache_get : Sync (option User) :=
  read _currentUserCache.

Definition currentUserCache_set (user : option User) : Sync unit :=
  exec Store_dispatch (Actions_set user);
  write (fun w => log (CacheAssigned user) (with_cache user w)).

(** *** Methods of [ParseUser] *)

Definition get (this : User) (attr : string) : Sync jsval :=
  read (fun w => ParseObject_get this attr (heap w)).

Definition _finishFetch (this : User) (serverData : jsobj) : Sync unit :=
  write (fun w => with_heap (ParseObject_finishFetch this serverData (heap w)) w).

Definition getSessionToken (this : User) : Sync jsval :=
  get this "sessionToken".

(** [ParseUser.current()] (lines 495-501) *)
Definition ParseUser_current : Sync (option User) :=
  do can <- read canUseCurrentUser;
  if negb can then ret None
  else getUserController_currentUser.

(** [isCurrent()] (lines 274-277) *)
Definition isCurrent (this : User) : Sync bool :=
  do current <- ParseUser_current;
  match current with
  | None => ret false
  | Some current =>
      do h <- read heap;
      ret (strict_eq (ParseObject_id current h) (ParseObject_id this h))
  end.

(** The keys that [for (var key in v)] visits, in the order of the
    visit; [null] has none. *)
Definition keys_in (v : jsval) : list string :=
  match v with
  | JObj o => for_in o
  | _ => []
  end.

(** [_unlinkFrom(provider)] (lines 208-220), as far as it runs before its
    first suspension: [_linkWith(provider, { authData: null })] writes
    [authData[authType] = null] and hands the user to
    [controller.linkWith], which starts a save.  The promise it returns is
    dropped by [_synchronizeAuthData], its only caller here. *)
Definition _unlinkFrom (this : User) (provider : Provider) : Sync unit :=
  let authType := getAuthType provider in
  do authData <- get this "authData";
  do authData <-
    match authData with
    | JObj o =>
        exec write (fun w => with_heap
             (mutate_attribute this "authData" (insert authType JNull) (heap w)) w);
        ret (<[authType := JNull]> o)
    | v => if truthy v then throw TypeError
           else ret ({[authType := JNull]} : jsobj)
    end;
  let attrs := JObj {["authData" := JObj authData]} in
  exec write (fun w => with_heap (ParseObject_save_begin this attrs ∅ (heap w)) w);
  exec write (log (Issued (ObjectSave this attrs ∅)));
  write (log (UnlinkStarted this authType)).

(** [_synchronizeAuthData(provider)] (lines 147-166), called with a key.
    [authProviders[authType]] is a registered provider, or, when
    [authType] names a member of [Object.prototype], that member: then
    [!provider] is false and [provider.restoreAuthentication] is
    [undefined], so that line 162 throws a [TypeError] (at the call, or for
    a [null] [authData] at [authData[authType]]). *)
Definition _synchronizeAuthData (this : User) (provider : string) : Sync unit :=
  do is_current <- isCurrent this;
  if negb is_current || negb (truthy (JStr provider)) then ret tt
  else
    let authType := provider in
    do providers <- read authProviders;
    let provider := providers !! authType in
    do authData <- get this "authData";
    match provider with
    | None =>
        if bool_decide (authType ∈ Object_prototype) then
          if negb (typeof_object authData) then ret tt
          else throw TypeError
        else ret tt
    | Some provider =>
        if negb (typeof_object authData) then ret tt
        else
          match authData with
          | JObj o =>
              let data := prop o authType in
              exec write (log (RestoredAuthentication authType data));
              if restoreAuthentication provider data then ret tt
              else _unlinkFrom this provider
          | _ => throw TypeError
          end
    end.

(** [_synchronizeAllAuthData()] (lines 172-181) *)
Definition _synchronizeAllAuthData (this : User) : Sync unit :=
  do authData <- get this "authData";
  if negb (typeof_object authData) then ret tt
  else for_each (keys_in authData) (_synchronizeAuthData this).

(** [_cleanupAuthData()] (lines 188-202) *)
Definition _cleanupAuthData (this : User) : Sync unit :=
  do is_current <- isCurrent this;
  if negb is_current then ret tt
  else
    do authData <- get this "authData";
    if negb (typeof_object authData) then ret tt
    else
      for_each (keys_in authData) (fun key =>
        match authData with
        | JObj o =>
            if negb (truthy (prop o key)) then
              write (fun w => with_heap
                (mutate_attribute this "authData" (delete key) (heap w)) w)
            else ret tt
        | _ => ret tt
        end).

(** [_logOutWith(provider)] (lines 257-267), called with a key.  A member
    that [authProviders] inherits from [Object.prototype] is truthy but
    has no [deauthenticate]: as for a key that finds nothing, nothing is
    called. *)
Definition _logOutWith (this : User) (provider : string) : Sync unit :=
  do is_current <- isCurrent this;
  if negb is_current then ret tt
  else
    do providers <- read authProviders;
    match providers !! provider with
    | Some provider =>
        if has_deauthenticate provider then
          write (log (Deauthenticated (getAuthType provider)))
        else ret tt
    | None => ret tt
    end.

(** [_logOutWithAll()] (lines 241-250) *)
Definition _logOutWithAll (this : User) : Sync unit :=
  do authData <- get this "authData";
  if negb (typeof_object authData) then ret tt
  else for_each (keys_in authData) (_logOutWith this).

(** *** The persistent store *)

(** Modelled from the spec: the synchronous [get(key)] of the persistent
    store ([Storage.getItem], whose file is not part of the sources). *)
Definition Storage_getItem (path : string) : Sync (option string) :=
  exec write (log (StorageGetItem path));
  read (fun w => storage_items w !! path).

(** Modelled from the spec: the asynchronous operations of the persistent
    store, "(async) value" and "(async) ack".  The request is sent and the
    promise settles with the store's answer in a later turn.  The store is
    a collaborator: what it holds once it has carried out the writes and
    removals sent is [store_after] below, and the world in which a
    suspended call is resumed is left open. *)
Definition Storage_getItemAsync (path : string) : Async (option string) :=
  issue (StorageGetItemAsync path).
Definition Storage_setItemAsync (path value : string) : Async unit :=
  issue (StorageSetItemAsync path value).
Definition Storage_removeItemAsync (path : string) : Async unit :=
  issue (StorageRemoveItemAsync path).
Definition RESTController_request (method path : string) (body options : jsobj)
    : Async jsobj :=
  issue (RESTRequest method path body options).

(** *** Loading a persisted snapshot *)

(** Lines 778-790 (and again 815-827): default class name and legacy field
    names. *)
Definition normalize (userData : jsobj) : jsobj :=
  let userData :=
    if negb (truthy (prop userData "className"))
    then <["className" := JStr "_User"]> userData
    else userData in
  let userData :=
    if truthy (prop userData "_id") then
      let userData :=
        if negb (strict_eq (prop userData "objectId") (prop userData "_id"))
        then <["objectId" := prop userData "_id"]> userData
        else userData in
      delete "_id" userData
    else userData in
  let userData :=
    if truthy (prop userData "_sessionToken") then
      delete "_sessionToken"
        (<["sessionToken" := prop userData "_sessionToken"]> userData)
    else userData in
  userData.

(** [userData = JSON.parse(userData)] followed by the first property
    access: the module is strict code, so anything but an object fails
    there. *)
Definition parse_object (userData : string) : Sync jsobj :=
  match JSON_parse userData with
  | None => throw SyntaxError
  | Some (JObj o) => ret o
  | Some _ => throw TypeError
  end.

(** Lines 777-793 of [currentUser] and 814-830 of [currentUserAsync], which
    are the same statements. *)
Definition revive (userData : string) : Sync User :=
  do userData <- parse_object userData;
  let userData := normalize userData in
  do current <- (fun w =>
      let '(current, h) := ParseObject_fromJSON userData (heap w) in
      (with_heap h w, Return current));
  exec currentUserCache_set (Some current);
  exec _synchronizeAllAuthData current;
  ret current.

(** [if (!userData)] on what the store returns: [null] and the empty
    string are falsy; otherwise the text is there to be parsed. *)
Definition item_text (userData : option string) : option string :=
  match userData with
  | None => None
  | Some s => if String.eqb s "" then None else Some s
  end.

(** Lines 772-794 of [currentUser] and 809-831 of [currentUserAsync], the
    same statements again: what is done with the item the store returned. *)
Definition restore (userData : option string) : Sync (option User) :=
  exec write (with_cacheMatchesDisk true);
  match item_text userData with
  | None => exec currentUserCache_set None; ret None
  | Some userData => do current <- revive userData; ret (Some current)
  end.

(** *** [DefaultController] *)

(** [updateUserOnDisk(user)] (lines 738-747) *)
Definition updateUserOnDisk (user : User) : Async User :=
  fun w =>
    let path := Storage_generatePath CURRENT_USER_KEY in
    let json := ParseObject_toJSON user (heap w) in
    let json := <["className" := JStr "_User"]> json in
    then_ (Storage_setItemAsync path (JSON_stringify json))
          (fun _ => as_ user) w.

(** [setCurrentUser(user)] (lines 749-754) *)
Definition setCurrentUser (user : User) : Async User :=
  run_sync
    (exec currentUserCache_set (Some user);
     exec _cleanupAuthData user;
     _synchronizeAllAuthData user)
    (fun _ => updateUserOnDisk user).

(** [currentUser()] (lines 756-795) *)
Definition currentUser : Sync (option User) :=
  do cache <- currentUserCache_get;
  match cache with
  | Some cache => ret (Some cache)
  | None =>
      do matches <- read currentUserCacheMatchesDisk;
      if matches then ret None
      else
        do async <- read storage_async;
        if async then
          throw (JsError ("Cannot call currentUser() when using a platform with an async "
                          +:+ "storage system. Call currentUserAsync() instead."))
        else
          let path := Storage_generatePath CURRENT_USER_KEY in
          do userData <- Storage_getItem path;
          restore userData
  end.

(** [currentUserAsync()] (lines 797-833) *)
Definition currentUserAsync : Async (option User) :=
  run_sync currentUserCache_get (fun cache =>
    match cache with
    | Some cache => as_ (Some cache)
    | None =>
        run_sync (read currentUserCacheMatchesDisk) (fun matches =>
          if matches then as_ None
          else
            let path := Storage_generatePath CURRENT_USER_KEY in
            then_ (Storage_getItemAsync path) (fun userData =>
              run_sync (restore userData) as_))
    end).

(** A call that returns a promise, seen from synchronous code. *)
Definition call {A} (p : Async A) : Sync (Task A) :=
  fun w => let '(w', t) := p w in (w', Return t).

(** A callback that returns the promise it holds. *)
Definition returning {A} (t : Task A) : Async A := fun w => (w, t).

(** The same promise without the value it resolves with. *)
Definition void {A} (p : Async A) : Async unit :=
  then_ p (fun _ => as_ tt).

(** [ParseUser.prototype.save] (lines 424-431) over
    [ParseObject.prototype.save]. *)
Definition super_save (this : User) (attrs : jsval) (options : jsobj)
    : Async unit :=
  run_sync
    (write (fun w => with_heap
       (ParseObject_save_begin this attrs options (heap w)) w))
    (fun _ => issue (ObjectSave this attrs options)).

Definition save (this : User) (attrs : jsval) (options : jsobj) : Async User :=
  then_ (super_save this attrs options) (fun _ =>
    run_sync (isCurrent this) (fun is_current =>
      if is_current then updateUserOnDisk this else as_ this)).

(** [v.key] for any value [v]. *)
Definition member (v : jsval) (key : string) : jsval :=
  match v with
  | JObj o => prop o key
  | _ => JUndefined
  end.

(** [(attrs && attrs.key) || fallback] *)
Definition attr_or (attrs : jsval) (key : string) (fallback : jsval) : jsval :=
  let v := if truthy attrs then member attrs key else attrs in
  if truthy v then v else fallback.

(** [!v || !v.length] *)
Definition empty_credential (v : jsval) : bool :=
  negb (truthy v) ||
  negb match v with
       | JStr s => negb (String.eqb s "")
       | JObj o => truthy (prop o "length")
       | _ => false
       end.

(** What the callback of [signUp] does when the save has succeeded
    (lines 857-860). *)
Definition signUp_saved (user : User) : Sync bool :=
  exec _finishFetch user {["password" := JUndefined]};
  read canUseCurrentUser.

(** The callback of [signUp] (lines 856-864). *)
Definition signUp_callback (user : User) : Async User :=
  run_sync (signUp_saved user) (fun can =>
    if can then setCurrentUser user else as_ user).

(** [signUp(user, attrs, options)] (lines 835-865) *)
Definition signUp (user : User) (attrs : jsval) (options : jsobj) : Async User :=
  run_sync
    (do fallback_username <- get user "username";
     do fallback_password <- get user "password";
     ret (attr_or attrs "username" fallback_username,
          attr_or attrs "password" fallback_password))
    (fun '(username, password) =>
      if empty_credential username then
        error_ (ParseError OTHER_CAUSE "Cannot sign up user with an empty name.")
      else if empty_credential password then
        error_ (ParseError OTHER_CAUSE "Cannot sign up user with an empty password.")
      else
        then_ (save user attrs options) (fun _ => signUp_callback user)).

(** What the callback of [logIn] does with the response (lines 876-886). *)
Definition logIn_received (user : User) (response : jsobj) : Sync bool :=
  exec write (fun w => with_heap
    (ParseObject_migrateId user (prop response "objectId") (heap w)) w);
  exec write (fun w => with_heap
    (ParseObject_setExisted user true (heap w)) w);
  exec write (fun w => with_heap
    (ObjectState_clearPendingOp
       (ParseObject_className user (heap w))
       (ParseObject_getId user (heap w)) "username" (heap w)) w);
  exec write (fun w => with_heap
    (ObjectState_clearPendingOp
       (ParseObject_className user (heap w))
       (ParseObject_getId user (heap w)) "password" (heap w)) w);
  let response := <["password" := JUndefined]> response in
  exec _finishFetch user response;
  read canUseCurrentUser.

(** The callback of [logIn] (lines 875-891). *)
Definition logIn_callback (user : User) (response : jsobj) : Async User :=
  run_sync (logIn_received user response) (fun can =>
    if negb can then as_ user
    else setCurrentUser user).

(** [logIn(user, options)] (lines 867-892) *)
Definition logIn (user : User) (options : jsobj) : Async User :=
  run_sync
    (do username <- get user "username";
     do password <- get user "password";
     ret ({["username" := username; "password" := password]} : jsobj))
    (fun auth =>
      then_ (RESTController_request "GET" "login" auth options)
            (logIn_callback user)).

(** [become(options)] (lines 894-904) *)
Definition become (options : jsobj) : Async User :=
  run_sync
    (fun w =>
       let '(user, h) := ParseObject_new (heap w) in
       (with_heap h w, Return user))
    (fun user =>
      then_ (RESTController_request "GET" "users/me" ∅ options) (fun response =>
        run_sync
          (exec _finishFetch user response;
           write (fun w => with_heap
             (ParseObject_setExisted user true (heap w)) w))
          (fun _ => setCurrentUser user))).

(** The callback of [logOut] (lines 907-927), which runs once the current
    user has been read. *)
Definition logOut_callback (currentUser : option User) : Async unit :=
  run_sync
    (let path := Storage_generatePath CURRENT_USER_KEY in
     do promise <- call (Storage_removeItemAsync path);
     do promise <-
       match currentUser with
       | Some currentUser =>
           do currentSession <- getSessionToken currentUser;
           do promise <-
             if truthy currentSession && isRevocableSession currentSession
             then
               call (chain promise (fun _ =>
                 void (RESTController_request "POST" "logout" ∅
                         {["sessionToken" := currentSession]})))
             else ret promise;
           exec _logOutWithAll currentUser;
           exec _finishFetch currentUser {["sessionToken" := JUndefined]};
           ret promise
       | None => ret promise
       end;
     exec write (with_cacheMatchesDisk true);
     exec currentUserCache_set None;
     ret promise)
    returning.

(** [logOut()] (lines 906-928) *)
Definition logOut : Async unit :=
  then_ currentUserAsync logOut_callback.

(** *** Static methods of [ParseUser] *)

(** [ParseUser.currentAsync()] (lines 510-516) *)
Definition ParseUser_currentAsync
    (getUserController_currentUserAsync : Async (option User))
    : Async (option User) :=
  run_sync (read canUseCurrentUser) (fun can =>
    if negb can then as_ None
    else getUserController_currentUserAsync).

(** [ParseUser.become(sessionToken, options)] (lines 578-595); the
    callbacks that [options] may carry are not modelled. *)
Definition ParseUser_become
    (getUserController_become : jsobj -> Async User)
    (sessionToken : jsval) (options : jsobj) : Sync (Task User) :=
  do can <- read canUseCurrentUser;
  if negb can then
    throw (JsError "It is not memory-safe to become a user in a server environment")
  else
    let becomeOptions : jsobj := {["sessionToken" := sessionToken]} in
    let becomeOptions :=
      match options !! "useMasterKey" with
      | Some useMasterKey => <["useMasterKey" := useMasterKey]> becomeOptions
      | None => becomeOptions
      end in
    call (getUserController_become becomeOptions).

(** [ParseUser.logOut()] (lines 610-619) *)
Definition ParseUser_logOut (getUserController_logOut : Async unit)
    : Sync (Task unit) :=
  do can <- read canUseCurrentUser;
  if negb can then
    throw (JsError "There is no current user user on a node.js server environment.")
  else call getUserController_logOut.

(** [enableUnsafeCurrentUser()] and [disableUnsafeCurrentUser()]
    (lines 695-708) *)
Definition ParseUser_enableUnsafeCurrentUser : Sync unit :=
  write (with_canUseCurrentUser true).
Definition ParseUser_disableUnsafeCurrentUser : Sync unit :=
  write (with_canUseCurrentUser false).

(** [_clearCache()] and [_setCurrentUserCache(user)] (lines 725-732) *)
Definition ParseUser__clearCache : Sync unit :=
  exec currentUserCache_set None;
  write (with_cacheMatchesDisk false).
Definition ParseUser__setCurrentUserCache (user : option User) : Sync unit :=
  currentUserCache_set user.

(** *** Further methods and controller functions *)

(** [authenticated()] (lines 353-360) *)
Definition authenticated (this : User) : Sync bool :=
  do current <- ParseUser_current;
  do sessionToken <- get this "sessionToken";
  if negb (truthy sessionToken) then ret false
  else
    match current with
    | None => ret false
    | Some current =>
        do h <- read heap;
        ret (strict_eq (ParseObject_id current h) (ParseObject_id this h))
    end.

(** [linkWith(user, authData)] (lines 970-977); [user.save({ authData })]
    is called without options. *)
Definition linkWith (user : User) (authData : jsval) : Async User :=
  then_ (save user (JObj {["authData" := authData]}) ∅) (fun _ =>
    run_sync (read canUseCurrentUser) (fun can =>
      if can then setCurrentUser user else as_ user)).

(** [requestPasswordReset(email, options)] (lines 930-938) *)
Definition requestPasswordReset (email : jsval) (options : jsobj) : Async jsobj :=
  RESTController_request "POST" "requestPasswordReset" {["email" := email]} options.

(** Lines 960-962 of [upgradeToRevocableSession] up to the token they
    obtain: [new ParseSession()], [session._finishFetch(result)] and
    [session.getSessionToken()].  [ParseSession.js] is not among the
    sources; the three calls together take the response and the heap and
    give the token and the heap with the session object in it. *)
Variable ParseSession_sessionToken : jsobj -> Heap -> jsval * Heap.

(** The callback of [upgradeToRevocableSession] (lines 959-967). *)
Definition upgradeToRevocableSession_callback (user : User) (result : jsobj)
    : Async User :=
  run_sync
    (do sessionToken <- (fun w =>
        let '(sessionToken, h) := ParseSession_sessionToken result (heap w) in
        (with_heap h w, Return sessionToken));
     exec _finishFetch user {["sessionToken" := sessionToken]};
     isCurrent user)
    (fun is_current =>
      if is_current then setCurrentUser user else as_ user).

(** [upgradeToRevocableSession(user, options)] (lines 940-968).
    [options.sessionToken = token] writes into the object the caller
    passed; the options are a value here, and the options sent are the
    caller's with that entry written. *)
Definition upgradeToRevocableSession (user : User) (options : jsobj)
    : Async User :=
  run_sync (getSessionToken user) (fun token =>
    if negb (truthy token) then
      error_ (ParseError SESSION_MISSING
                "Cannot upgrade a user with no session token")
    else
      let options := <["sessionToken" := token]> options in
      then_ (RESTController_request "POST" "upgradeToRevocableSession" ∅ options)
            (upgradeToRevocableSession_callback user)).

(** [ParseUser._registerAuthenticationProvider(provider)] (lines 710-718).
    The function returns nothing; what is returned here is the promise of
    the synchronisation it starts and drops. *)
Definition ParseUser__registerAuthenticationProvider
    (getUserController_currentUserAsync : Async (option User))
    (provider : Provider) : Async unit :=
  run_sync
    (write (fun w => with_authProviders
              (<[getAuthType provider := provider]> (authProviders w)) w))
    (fun _ =>
      then_ (ParseUser_currentAsync getUserController_currentUserAsync)
        (fun current =>
          run_sync
            match current with
            | Some current => _synchronizeAuthData current (getAuthType provider)
            | None => ret tt
            end
            as_)).

End ParseUser.

End Src.

(** ** The registered controller *)

(** [CoreManager.getUserController()] is [DefaultController].  Its
    [currentUser] reaches itself again through
    [_synchronizeAllAuthData -> isCurrent -> ParseUser.current]; the call
    depth is made explicit and [currentUser] is the function at depth two
    ([currentUser_at_depth] below shows that a deeper stack changes
    nothing). *)
Module DefaultController.

Section Tied.

Context `{OL : ObjectLayer} `{PF : Platform}.

Definition stack_exhausted : Sync (option User) :=
  throw (JsError "Maximum call stack size exceeded").

Fixpoint currentUser_at (depth : nat) : Sync (option User) :=
  match depth with
  | O => stack_exhausted
  | S depth => Src.currentUser (currentUser_at depth)
  end.

Definition currentUser : Sync (option User) := currentUser_at 2.

Definition updateUserOnDisk (user : User) : Async User :=
  Src.updateUserOnDisk user.
Definition setCurrentUser (user : User) : Async User :=
  Src.setCurrentUser currentUser user.
Definition currentUserAsync : Async (option User) :=
  Src.currentUserAsync currentUser.
Definition signUp (user : User) (attrs : jsval) (options : jsobj) : Async User :=
  Src.signUp currentUser user attrs options.
Definition logIn (user : User) (options : jsobj) : Async User :=
  Src.logIn currentUser user options.
Definition become (options : jsobj) : Async User :=
  Src.become currentUser options.
Definition logOut : Async unit :=
  Src.logOut currentUser.
Definition signUp_callback (user : User) : Async User :=
  Src.signUp_callback currentUser user.
Definition logIn_callback (user : User) (response : jsobj) : Async User :=
  Src.logIn_callback currentUser user response.
Definition save (this : User) (attrs : jsval) (options : jsobj) : Async User :=
  Src.save currentUser this attrs options.
Definition linkWith (user : User) (authData : jsval) : Async User :=
  Src.linkWith currentUser user authData.
Definition requestPasswordReset (email : jsval) (options : jsobj) : Async jsobj :=
  Src.requestPasswordReset email options.
Definition upgradeToRevocableSession
    (ParseSession_sessionToken : jsobj -> Heap -> jsval * Heap)
    (user : User) (options : jsobj) : Async User :=
  Src.upgradeToRevocableSession currentUser ParseSession_sessionToken user options.

End Tied.

End DefaultController.

Module ParseUser.

Section Statics.

Context `{OL : ObjectLayer} `{PF : Platform}.

Definition current : Sync (option User) :=
  Src.ParseUser_current DefaultController.currentUser.
Definition currentAsync : Async (option User) :=
  Src.ParseUser_currentAsync DefaultController.currentUserAsync.
Definition become (sessionToken : jsval) (options : jsobj) : Sync (Task User) :=
  Src.ParseUser_become DefaultController.become sessionToken options.
Definition logOut : Sync (Task unit) :=
  Src.ParseUser_logOut DefaultController.logOut.
Definition enableUnsafeCurrentUser : Sync unit :=
  Src.ParseUser_enableUnsafeCurrentUser.
Definition disableUnsafeCurrentUser : Sync unit :=
  Src.ParseUser_disableUnsafeCurrentUser.
Definition _clearCache : Sync unit := Src.ParseUser__clearCache.
Definition _setCurrentUserCache (user : option User) : Sync unit :=
  Src.ParseUser__setCurrentUserCache user.
Definition isCurrent (this : User) : Sync bool :=
  Src.isCurrent DefaultController.currentUser this.
Definition authenticated (this : User) : Sync bool :=
  Src.authenticated DefaultController.currentUser this.
Definition _registerAuthenticationProvider (provider : Provider) : Async unit :=
  Src.ParseUser__registerAuthenticationProvider DefaultController.currentUser
    DefaultController.currentUserAsync provider.

(** The module as loaded (lines 29-47): [canUseCurrentUser] is
    [!CoreManager.get('IS_NODE')], nothing is cached, no provider is
    registered. *)
Definition loaded (IS_NODE : bool) (h : Heap) (async : bool)
    (items : gmap string string) : World :=
  {| canUseCurrentUser := negb IS_NODE;
     currentUserCacheMatchesDisk := false;
     _currentUserCache := None;
     authProviders := ∅;
     heap := h;
     storage_async := async;
     storage_items := items;
     trace := [] |}.

End Statics.

End ParseUser.

(** ** The object state store and the entity layer over it *)

(** [ObjectState.js] and [ParseObject.js] are not among the sources; the
    definitions of this module follow sections 3 and 4.1 of the
    specification. *)
Module ObjectState.

(** Modelled from the spec: the Operation capability, "a value type
    supporting [apply(previousValue) -> newValue]"; an absent attribute is
    passed and returned as [JUndefined]. *)
Record Operation := { apply : jsval -> jsval }.

(** Modelled from the spec: Object State, "[serverData]: mapping
    attribute-name to value" and "[pendingOps]: ordered sequence of
    PendingOpSet — a stack, oldest at index 0". *)
Record State := {
  serverData : jsobj;
  pendingOps : list (gmap string Operation)
}.

Abbreviation Table := (gmap (string * string) State).

(** Modelled from the spec: the state [initializeState] creates, "empty
    [serverData] and [pendingOps = [ {} ]]". *)
Definition fresh : State := {| serverData := ∅; pendingOps := [∅] |}.

(** Modelled from the spec: [initializeState(identity)], "if no entry
    exists, create one"; re-initialising is a no-op. *)
Definition initializeState (identity : string * string) (t : Table) : Table :=
  match t !! identity with
  | Some _ => t
  | None => <[identity := fresh]> t
  end.

(** Modelled from the spec: the read-only queries "return empty defaults
    for an uninitialized identity". *)
Definition state_of (identity : string * string) (t : Table) : State :=
  match t !! identity with
  | Some st => st
  | None => fresh
  end.

(** Modelled from the spec: [setServerData(identity, attrs)],
    "shallow-merge [attrs] into [serverData]; a value of remove deletes
    that key"; the value that removes is [undefined]. *)
Definition merge_attrs (data attrs : jsobj) : jsobj :=
  merge (fun old new =>
           match new with
           | Some JUndefined => None
           | Some v => Some v
           | None => old
           end) data attrs.

Definition setServerData (identity : string * string) (attrs : jsobj)
    (t : Table) : Table :=
  let st := state_of identity t in
  <[identity := {| serverData := merge_attrs (serverData st) attrs;
                   pendingOps := pendingOps st |}]> t.

(** Modelled from the spec: [commitServerChanges], "equivalent to
    [setServerData]". *)
Definition commitServerChanges (identity : string * string) (attrs : jsobj)
    (t : Table) : Table :=
  setServerData identity attrs t.

(** Modelled from the spec: [setPendingOp(identity, attributeName,
    operation | undefined)], "write into the top PendingOpSet; if
    [operation] is undefined, delete the key".  The top is the last
    element. *)
Definition setPendingOp (identity : string * string) (attr : string)
    (op : option Operation) (t : Table) : Table :=
  let st := state_of identity t in
  let write (ops : gmap string Operation) :=
    match op with
    | Some op => <[attr := op]> ops
    | None => delete attr ops
    end in
  <[identity := {| serverData := serverData st;
                   pendingOps := alter write (length (pendingOps st) - 1)%nat
                                   (pendingOps st) |}]> t.

(** Modelled from the spec: [pushPendingState(identity)], "push a new
    empty PendingOpSet on top of the stack". *)
Definition pushPendingState (identity : string * string) (t : Table) : Table :=
  let st := state_of identity t in
  <[identity := {| serverData := serverData st;
                   pendingOps := pendingOps st ++ [∅] |}]> t.

(** Modelled from the spec: estimated attributes, "[serverData] with each
    [pendingOps] entry applied in order (oldest to newest),
    attribute-wise, using the Operation's [apply]". *)
Definition apply_ops (data : jsobj) (ops : gmap string Operation) : jsobj :=
  merge (fun old op =>
           match op with
           | Some op =>
               match apply op (default JUndefined old) with
               | JUndefined => None
               | v => Some v
               end
           | None => old
           end) data ops.

Definition estimate (st : State) : jsobj :=
  fold_left apply_ops (pendingOps st) (serverData st).

Definition estimateAttributes (identity : string * string) (t : Table) : jsobj :=
  estimate (state_of identity t).

(** Modelled from the spec: the "field set" operation, whose [apply]
    yields the value set whatever the previous value. *)
Definition SetOp (v : jsval) : Operation := {| apply := fun _ => v |}.

(** *** User objects over the store *)

(** Modelled from the spec: an entity is known by its Object Identity
    [(typeName, localOrServerId)]; the object itself holds its class name,
    its server id once it has one, and the local id it was created with. *)
Record Object := {
  className : string;
  id : option string;
  localId : string;
  existed : bool
}.

Record Heap := {
  table : Table;
  objects : list Object
}.

Definition object (u : nat) (h : Heap) : Object :=
  match objects h !! u with
  | Some o => o
  | None => {| className := "_User"; id := None;
               localId := "local" +:+ pretty u; existed := false |}
  end.

(** Modelled from the spec: [user.id], the server-assigned id of the
    identity, [undefined] while the id is client-generated. *)
Definition id_of (u : nat) (h : Heap) : jsval :=
  match id (object u h) with
  | Some s => JStr s
  | None => JUndefined
  end.

(** Modelled from the spec: [user._getId()], the [localOrServerId] of the
    Object Identity. *)
Definition _getId (u : nat) (h : Heap) : string :=
  match id (object u h) with
  | Some s => s
  | None => localId (object u h)
  end.

(** Modelled from the spec: the Object Identity [(typeName, id)] under
    which the state of the object is kept. *)
Definition identity (u : nat) (h : Heap) : string * string :=
  (className (object u h), _getId u h).

(** The confirmed data and the pending sets of a user. *)
Definition confirmed (u : nat) (h : Heap) : jsobj :=
  serverData (state_of (identity u h) (table h)).

Definition pending (u : nat) (h : Heap) : list (gmap string Operation) :=
  pendingOps (state_of (identity u h) (table h)).

Definition on_table (f : Table -> Table) (h : Heap) : Heap :=
  {| table := f (table h); objects := objects h |}.

Definition set_id (u : nat) (s : string) (h : Heap) : Heap :=
  {| table := table h;
     objects := alter (fun o => {| className := className o; id := Some s;
                                   localId := localId o;
                                   existed := existed o |}) u (objects h) |}.

(** A server id: a string that is not empty. *)
Definition server_id (v : jsval) : option string :=
  match v with
  | JStr s => if String.eqb s "" then None else Some s
  | _ => None
  end.

(** Modelled from the spec: [new ParseUser()], an entity of type [_User]
    with a client-generated id. *)
Definition new (h : Heap) : nat * Heap :=
  let u := length (objects h) in
  (u, {| table := table h;
         objects := objects h ++
           [{| className := "_User"; id := None;
               localId := "local" +:+ pretty u; existed := false |}] |}).

(** Modelled from the spec: [user.get(attr)]; the entity layer "reads
    [estimateAttributes]". *)
Definition get (u : nat) (attr : string) (h : Heap) : jsval :=
  prop (estimateAttributes (identity u h) (table h)) attr.

(** Modelled from the spec: [_finishFetch(serverData)] closes a fetch
    cycle, for which the vocabulary is [commitServerChanges]; an object
    without an id takes the [objectId] of the data. *)
Definition _finishFetch (u : nat) (data : jsobj) (h : Heap) : Heap :=
  let h :=
    match id (object u h), server_id (prop data "objectId") with
    | None, Some s => set_id u s h
    | _, _ => h
    end in
  on_table (commitServerChanges (identity u h) (delete "objectId" data)) h.

(** Modelled from the spec: id migration, "an identity with a
    client-generated id is replaced in-place by a server-assigned id". *)
Definition _migrateId (u : nat) (serverId : jsval) (h : Heap) : Heap :=
  match id (object u h), server_id serverId with
  | None, Some s =>
      let old := identity u h in
      let st := state_of old (table h) in
      let h := set_id u s h in
      on_table (fun t => <[identity u h := st]> (delete old t)) h
  | _, _ => h
  end.

(** Modelled from the spec: [_setExisted(existed)] marks the entity as
    known to the server; it touches no attribute state. *)
Definition _setExisted (u : nat) (b : bool) (h : Heap) : Heap :=
  {| table := table h;
     objects := alter (fun o => {| className := className o; id := id o;
                                   localId := localId o; existed := b |})
                  u (objects h) |}.

(** Modelled from the spec: [ParseObject.fromJSON(json)] constructs the
    Object Identity the data names and applies the other fields as its
    confirmed attributes. *)
Definition fromJSON (json : jsobj) (h : Heap) : nat * Heap :=
  let u := length (objects h) in
  let cls := match prop json "className" with
             | JStr c => c
             | _ => "_User"
             end in
  let h := {| table := table h;
              objects := objects h ++
                [{| className := cls; id := server_id (prop json "objectId");
                    localId := "local" +:+ pretty u;
                    existed := truthy (prop json "objectId") |}] |} in
  (u, _finishFetch u (delete "className" json) h).

(** Modelled from the spec: [user.toJSON()], the "full attribute
    snapshot" that is persisted, with the server id as [objectId]. *)
Definition toJSON (u : nat) (h : Heap) : jsobj :=
  let attrs := estimateAttributes (identity u h) (table h) in
  match id (object u h) with
  | None => attrs
  | Some s => <["objectId" := JStr s]> attrs
  end.

(** Modelled from the spec: the entity layer "triggers
    [pushPendingState] around its own save": the attributes to save
    become operations of the top set, then a new set is pushed. *)
Definition save_begin (u : nat) (attrs : jsval) (options : jsobj) (h : Heap)
    : Heap :=
  let ident := identity u h in
  let record (t : Table) :=
    match attrs with
    | JObj o =>
        map_fold (fun attr v t => setPendingOp ident attr (Some (SetOp v)) t) t o
    | _ => t
    end in
  on_table (fun t => pushPendingState ident (record t)) h.

(** Modelled from the spec: [setPendingOp(identity, attr, undefined)]. *)
Definition clearPendingOp (cls ident attr : string) (h : Heap) : Heap :=
  on_table (setPendingOp (cls, ident) attr None) h.

(** Modelled from the spec: an attribute value is shared with the state
    it was read from; a confirmed value that is an object is changed in
    place. *)
Definition mutate (u : nat) (attr : string) (f : jsobj -> jsobj) (h : Heap)
    : Heap :=
  let ident := identity u h in
  let st := state_of ident (table h) in
  match serverData st !! attr with
  | Some (JObj o) =>
      on_table (insert ident
        {| serverData := <[attr := JObj (f o)]> (serverData st);
           pendingOps := pendingOps st |}) h
  | _ => h
  end.

#[global] Instance layer : ObjectLayer :=
  Build_ObjectLayer nat Heap
    new fromJSON id_of
    (fun u h => className (object u h))
    _getId get toJSON _finishFetch _migrateId _setExisted
    save_begin clearPendingOp mutate.

End ObjectState.

(** ** A platform and sample states *)

(** A browser-like platform on which the examples run.  [parse] knows the
    JSON texts used below and, like [JSON.parse], rejects text that is not
    JSON. *)
Module Sample.

Definition dq : string := String "034"%char "".

(** [{"_id":"u1","_sessionToken":"r:abc"}] *)
Definition legacy_text : string :=
  "{" +:+ dq +:+ "_id" +:+ dq +:+ ":" +:+ dq +:+ "u1" +:+ dq +:+ ","
      +:+ dq +:+ "_sessionToken" +:+ dq +:+ ":" +:+ dq +:+ "r:abc" +:+ dq +:+ "}".

Definition legacy_snapshot : jsobj :=
  {[ "_id" := JStr "u1"; "_sessionToken" := JStr "r:abc" ]}.

(** [{"_id":"","objectId":"u7"}] *)
Definition blank_id_text : string :=
  "{" +:+ dq +:+ "_id" +:+ dq +:+ ":" +:+ dq +:+ dq +:+ ","
      +:+ dq +:+ "objectId" +:+ dq +:+ ":" +:+ dq +:+ "u7" +:+ dq +:+ "}".

Definition blank_id_snapshot : jsobj :=
  {[ "_id" := JStr ""; "objectId" := JStr "u7" ]}.

Definition garbled_text : string := "not json".

Definition parse (text : string) : option jsval :=
  if String.eqb text legacy_text then Some (JObj legacy_snapshot)
  else if String.eqb text blank_id_text then Some (JObj blank_id_snapshot)
  else if String.eqb text "{}" then Some (JObj ∅)
  else if String.eqb text "null" then Some JNull
  else None.

(** Stands for [JSON.stringify]; nothing below depends on the text. *)
Definition stringify (json : jsobj) : string :=
  "{" +:+ String.concat "," (map_to_list json).*1 +:+ "}".

Definition generatePath (key : string) : string := "Parse/app/" +:+ key.

(** [token.indexOf('r:') > -1] *)
Definition revocable (token : jsval) : bool :=
  match token with
  | JStr s =>
      match String.index 0 "r:" s with
      | Some _ => true
      | None => false
      end
  | _ => false
  end.

(** The keys in the order of the map. *)
Definition enumerate (o : jsobj) : list string := (map_to_list o).*1.

#[global] Instance platform : Platform :=
  Build_Platform parse stringify generatePath revocable
    enumerate (fun o => reflexivity (enumerate o)).

Definition path : string := generatePath CURRENT_USER_KEY.

Definition no_objects : ObjectState.Heap :=
  {| ObjectState.table := ∅; ObjectState.objects := [] |}.

(** A browser with a synchronous store that holds a legacy snapshot. *)
Definition browser : World :=
  ParseUser.loaded false no_objects false {[ path := legacy_text ]}.

(** A platform whose store is asynchronous only. *)
Definition mobile : World :=
  ParseUser.loaded false no_objects true ∅.

(** A server process. *)
Definition server : World :=
  ParseUser.loaded true no_objects false ∅.

(** A browser whose stored entry is not JSON. *)
Definition garbled : World :=
  ParseUser.loaded false no_objects false {[ path := garbled_text ]}.

(** One user object, with a revocable session token, held by the cache. *)
Definition alice_heap : ObjectState.Heap :=
  (ObjectState.fromJSON
     {[ "objectId" := JStr "u1"; "sessionToken" := JStr "r:abc" ]}
     no_objects).2.

Definition signed_out : World :=
  ParseUser.loaded false alice_heap true ∅.

Definition signed_in : World := with_cache (Some 0%nat) signed_out.

(** A provider that cannot restore its authentication, registered, and a
    user linked to it whose [authData] also holds an entry left over from
    an unlinking. *)
Definition facebook : Provider :=
  {| getAuthType := "facebook";
     restoreAuthentication := fun _ => false;
     has_deauthenticate := true |}.

Definition linked : World :=
  with_authProviders {[ "facebook" := facebook ]}
    (ParseUser.loaded false
       (ObjectState.fromJSON
          {[ "objectId" := JStr "u1"; "sessionToken" := JStr "r:abc";
             "authData" := JObj {[ "facebook" := JObj {[ "id" := JStr "f1" ]};
                                   "twitter" := JNull ]} ]}
          no_objects).2
       true ∅).

(** The credentials of a user and the server's answer to their log-in. *)
Definition credentials : jsobj :=
  {[ "username" := JStr "bob"; "password" := JStr "secret" ]}.

Definition login_response : jsobj :=
  {[ "objectId" := JStr "u1"; "username" := JStr "bob";
     "sessionToken" := JStr "r:abc" ]}.

(** A new user, built as [ParseUser.logIn(username, password)] builds it:
    [new ParseUser()] followed by [_finishFetch({ username, password })]. *)
Definition logging_in : World :=
  ParseUser.loaded false
    (ObjectState._finishFetch 0 credentials (ObjectState.new no_objects).2)
    true ∅.

(** A new user whose [save({ username, password })] is in flight: the two
    attributes are operations of the set being saved, under a new empty
    set. *)
Definition saving : World :=
  ParseUser.loaded false
    (ObjectState.save_begin 0 (JObj credentials) ∅
       (ObjectState.new no_objects).2)
    true ∅.

End Sample.

(** ** A platform that writes a snapshot and reads it back *)

Module Scribe.

(** The snapshot of the user of [Sample.alice_heap] as [updateUserOnDisk]
    builds it. *)
Definition snapshot : jsobj :=
  {[ "className" := JStr "_User"; "objectId" := JStr "u1";
     "sessionToken" := JStr "r:abc" ]}.

(** [JSON.stringify] on an object whose values are strings: its fields in
    the order of the map, any other value written as [null]. *)
Definition field (entry : string * jsval) : string :=
  Sample.dq +:+ entry.1 +:+ Sample.dq +:+ ":" +:+
  match entry.2 with
  | JStr s => Sample.dq +:+ s +:+ Sample.dq
  | _ => "null"
  end.

Definition stringify (json : jsobj) : string :=
  "{" +:+ String.concat "," (field <$> map_to_list json) +:+ "}".

(** [JSON.parse] that knows the text of [snapshot] beside the texts of
    [Sample.parse]. *)
Definition parse (text : string) : option jsval :=
  if String.eqb text (stringify snapshot) then Some (JObj snapshot)
  else Sample.parse text.

Definition platform : Platform :=
  Build_Platform parse stringify Sample.generatePath Sample.revocable
    Sample.enumerate (fun o => reflexivity (Sample.enumerate o)).

(** A browser whose synchronous store holds the text of [snapshot]. *)
Definition browser : World :=
  ParseUser.loaded false Sample.no_objects false
    {[ Sample.path := stringify snapshot ]}.

End Scribe.

(** ** Observations on worlds and traces *)

Section Observations.

Context `{OL : ObjectLayer} `{PF : Platform}.

(** The events that touch the persistent store. *)
Definition store_access (e : Event) : bool :=
  match e with
  | StorageGetItem _ => true
  | Issued (StorageGetItemAsync _) => true
  | Issued (StorageSetItemAsync _ _) => true
  | Issued (StorageRemoveItemAsync _) => true
  | _ => false
  end.

(** The events of [currentUserCache.set]. *)
Definition cache_event (e : Event) : bool :=
  match e with
  | Dispatched _ | CacheAssigned _ => true
  | _ => false
  end.

(** From [w] to [w'] only the entity layer changed, and what was logged is
    neither a store access nor a cache update. *)
Definition quiet (w w' : World) : Prop :=
  canUseCurrentUser w' = canUseCurrentUser w /\
  currentUserCacheMatchesDisk w' = currentUserCacheMatchesDisk w /\
  _currentUserCache w' = _currentUserCache w /\
  authProviders w' = authProviders w /\
  storage_async w' = storage_async w /\
  storage_items w' = storage_items w /\
  exists evs, trace w' = trace w ++ evs /\
    Forall (fun e => store_access e = false /\ cache_event e = false) evs.

(** Every assignment to the cache comes right after the dispatch of
    [Actions.set] for the same value; [prev] is the event before [evs]. *)
Fixpoint announced (prev : option Event) (evs : list Event) : Prop :=
  match evs with
  | [] => True
  | e :: evs' =>
      match e with
      | CacheAssigned u => prev = Some (Dispatched (Actions_set u))
      | _ => True
      end /\ announced (Some e) evs'
  end.

(** The cache value after the assignments recorded in [evs]. *)
Fixpoint replay (evs : list Event) (cache : option User) : option User :=
  match evs with
  | [] => cache
  | CacheAssigned u :: evs' => replay evs' u
  | _ :: evs' => replay evs' cache
  end.

(** From [w] to [w'] the cache changed only by announced assignments. *)
Definition tracked (w w' : World) : Prop :=
  exists evs, trace w' = trace w ++ evs /\
    announced None evs /\
    _currentUserCache w' = replay evs (_currentUserCache w).

(** [tracked] holds in every later turn of a promise, whatever the answers
    and whatever the world has become when they arrive. *)
Fixpoint turns_tracked {A} (t : Task A) : Prop :=
  match t with
  | Settled _ => True
  | Await _ k =>
      forall r w1, let '(w2, t') := k r w1 in tracked w1 w2 /\ turns_tracked t'
  end.

(** A promise-returning call that is [tracked] in the turn of the call and
    in every later turn. *)
Definition async_tracked {A} (p : Async A) : Prop :=
  forall w, let '(w', t) := p w in tracked w w' /\ turns_tracked t.

(** A controller that answers from a populated cache without doing
    anything else. *)
Definition cache_hit (ctl : Sync (option User)) : Prop :=
  forall w u, _currentUserCache w = Some u -> ctl w = (w, Return (Some u)).

(** The world right after [currentUserCache.set(user)]. *)
Definition after_cache_set (user : option User) (w : World) : World :=
  log (CacheAssigned user)
    (with_cache user (log (Dispatched (Actions_set user)) w)).

(** What the cache must hold once the item found in the store has been
    taken in: nothing for an empty item, and for a text that parses to an
    object the user that [ParseObject.fromJSON] builds from the normalised
    data. *)
Definition stored_identity (item : option string) (h : Heap)
    (cache : option User) : Prop :=
  match Src.item_text item with
  | None => cache = None
  | Some text =>
      forall o, JSON_parse text = Some (JObj o) ->
        cache = Some (ParseObject_fromJSON (Src.normalize o) h).1
  end.

(** The session token that [logOut] has invalidated on the server: the
    token of the user being logged out, when it is truthy and of the
    revocable kind. *)
Definition revocable_session (currentUser : option User) (h : Heap)
    : option jsval :=
  match currentUser with
  | Some u =>
      let token := ParseObject_get u "sessionToken" h in
      if truthy token && isRevocableSession token then Some token else None
  | None => None
  end.

(** A promise that waits for the removal of the persisted entry and for
    nothing else. *)
Definition settles_with_removal (promise : Task unit) : Prop :=
  exists k,
    promise = Await (StorageRemoveItemAsync (Storage_generatePath CURRENT_USER_KEY)) k /\
    forall w1,
      k (inl tt) w1 = (w1, Settled (Fulfilled tt)) /\
      forall e, k (inr e) w1 = (w1, Settled (Rejected e)).

(** A promise that waits for the removal and then, having sent the
    invalidation request for [token], for the answer to that request. *)
Definition settles_with_invalidation (token : jsval) (promise : Task unit)
    : Prop :=
  let invalidate :=
    RESTRequest "POST" "logout" ∅ {["sessionToken" := token]} in
  exists k,
    promise = Await (StorageRemoveItemAsync (Storage_generatePath CURRENT_USER_KEY)) k /\
    forall w1,
      (forall e, k (inr e) w1 = (w1, Settled (Rejected e))) /\
      exists k2,
        k (inl tt) w1 = (log (Issued invalidate) w1, Await invalidate k2) /\
        forall w2,
          (forall response, k2 (inl response) w2 = (w2, Settled (Fulfilled tt))) /\
          (forall e, k2 (inr e) w2 = (w2, Settled (Rejected e))).

(** The state [logOut] leaves when its callback has run from [w0]: the
    removal of the persisted entry is the one store access made, the cache
    is empty and authoritative, the promise waits for the removal, and a
    read of the current identity returns [null] without doing anything. *)
Definition logged_out (w0 w' : World) (promise : Task unit) : Prop :=
  let remove :=
    StorageRemoveItemAsync (Storage_generatePath CURRENT_USER_KEY) in
  (exists evs,
     trace w' = trace w0 ++ Issued remove :: evs /\
     Forall (fun e => store_access e = false) evs) /\
  _currentUserCache w' = None /\
  currentUserCacheMatchesDisk w' = true /\
  (exists k, promise = Await remove k) /\
  DefaultController.currentUser w' = (w', Return None) /\
  DefaultController.currentUserAsync w' = (w', Settled (Fulfilled None)).

(** Modelled from the spec: the persistent store, "[set(key, value)] ->
    (async) ack, [remove(key)] -> (async) ack".  What the store holds once
    it has carried out, in order, the writes and removals sent in [evs]. *)
Definition store_after (evs : list Event) (items : gmap string string)
    : gmap string string :=
  fold_left
    (fun items e =>
       match e with
       | Issued req =>
           match req with
           | StorageSetItemAsync path value => <[path := value]> items
           | StorageRemoveItemAsync path => delete path items
           | _ => items
           end
       | _ => items
       end)
    evs items.

(** The user that [ParseObject.fromJSON] builds in [h] from the normalised
    snapshot [o] has an [authData] none of whose keys names a member of
    [Object.prototype]. *)
Definition loads_plainly (o : jsobj) (h : Heap) : Prop :=
  Forall (fun key => key ∉ Object_prototype)
    (Src.keys_in
       (ParseObject_get (ParseObject_fromJSON (Src.normalize o) h).1 "authData"
          (ParseObject_fromJSON (Src.normalize o) h).2)).

(** The cache holds a user. *)
Definition populated (w : World) : Prop := is_Some (_currentUserCache w).

(** A synchronous computation that, started where [P] holds, moves the
    world along [Rel]; when [total] is set it also returns rather than
    throws. *)
Definition respects (P : World -> Prop) (Rel : World -> World -> Prop)
    (total : bool) {A} (c : Sync A) : Prop :=
  forall w, P w ->
    Rel w (c w).1 /\ (total = true -> exists a, (c w).2 = Return a).

End Observations.

(** ** Observations on the object state store *)

Section StoreObservations.

Context `{PF : Platform}.

(** No pending set of the list holds an operation on [attr]. *)
Definition untouched (attr : string)
    (sets : list (gmap string ObjectState.Operation)) : Prop :=
  Forall (fun ops => ops !! attr = None) sets.

(** The confirmed data of [u] holds no password. *)
Definition no_confirmed_password (u : nat) (w : World) : Prop :=
  ObjectState.confirmed u (heap w) !! "password" = None.

(** From [w] to [w'] nothing but the entity layer changed, and a password
    did not come into the confirmed data of [u]. *)
Definition keeps_password_out (u : nat) (w w' : World) : Prop :=
  quiet w w' /\ (no_confirmed_password u w -> no_confirmed_password u w').

End StoreObservations.

(** ** Observations on the turns of a promise *)

Section TurnObservations.

Context `{OL : ObjectLayer} `{PF : Platform}.

(** The current user is disabled. *)
Definition disabled (w : World) : Prop := canUseCurrentUser w = false.

(** In every later turn of a promise that is resumed where [P] holds, the
    world moves along [Rel], whatever the answer of the collaborator. *)
Fixpoint later_turns (P : World -> Prop) (Rel : World -> World -> Prop)
    {A} (t : Task A) : Prop :=
  match t with
  | Settled _ => True
  | Await _ k =>
      forall r w1, P w1 ->
        let '(w2, t') := k r w1 in Rel w1 w2 /\ later_turns P Rel t'
  end.

(** A promise-returning call that moves the world along [Rel] in the turn
    of the call and in every later turn, when each starts where [P]
    holds. *)
Definition async_respects (P : World -> Prop) (Rel : World -> World -> Prop)
    {A} (p : Async A) : Prop :=
  forall w, P w -> let '(w', t) := p w in Rel w w' /\ later_turns P Rel t.

(** A promise that waits for the answer to [req] and for nothing else: it
    is fulfilled with [value] when the answer comes and rejected with the
    collaborator's error otherwise, the world being left as it is. *)
Definition settles_with {R A} (req : Request R) (value : R -> A)
    (promise : Task A) : Prop :=
  exists k,
    promise = Await req k /\
    forall w1,
      (forall v, k (inl v) w1 = (w1, Settled (Fulfilled (value v)))) /\
      (forall e, k (inr e) w1 = (w1, Settled (Rejected e))).

(** The calls of [provider.deauthenticate()] that [_logOutWith] makes for
    the keys of an [authData], in order: one for each key under which a
    provider with a [deauthenticate] method is registered. *)
Definition deauthentications (providers : gmap string Provider)
    (keys : list string) : list Event :=
  keys ≫= (fun key =>
    match providers !! key with
    | Some provider =>
        if has_deauthenticate provider
        then [Deauthenticated (getAuthType provider)]
        else []
    | None => []
    end).

(** The write of the snapshot of [user] as it is in [h]: what
    [updateUserOnDisk] sends to the store (lines 739-743). *)
Definition snapshot_write (user : User) (h : Heap) : Request unit :=
  StorageSetItemAsync (Storage_generatePath CURRENT_USER_KEY)
    (JSON_stringify (<["className" := JStr "_User"]> (ParseObject_toJSON user h))).

End TurnObservations.

(** * Properties *)

Section ReadPaths.

Context `{OL : ObjectLayer} `{PF : Platform}.

Lemma currentUser_hit (ctl : Sync (option User)) (w : World) (u : User) :
  _currentUserCache w = Some u ->
  Src.currentUser ctl w = (w, Return (Some u)).
Proof.
  intros Hc. unfold Src.currentUser, Src.currentUserCache_get, bind, read.
  rewrite Hc. reflexivity.
Qed.

Lemma currentUser_known_absent (ctl : Sync (option User)) (w : World) :
  _currentUserCache w = None ->
  currentUserCacheMatchesDisk w = true ->
  Src.currentUser ctl w = (w, Return None).
Proof.
  intros Hc Hm. unfold Src.currentUser, Src.currentUserCache_get, bind, read.
  rewrite Hc, Hm. reflexivity.
Qed.

Lemma currentUser_async_store (ctl : Sync (option User)) (w : World) :
  _currentUserCache w = None ->
  currentUserCacheMatchesDisk w = false ->
  storage_async w = true ->
  exists message, Src.currentUser ctl w = (w, Throw (JsError message)).
Proof.
  intros Hc Hm Ha. unfold Src.currentUser, Src.currentUserCache_get, bind, read.
  rewrite Hc, Hm, Ha. eexists. reflexivity.
Qed.

End ReadPaths.

(** ** Reasoning about synchronous code *)

Section Respect.

Context `{OL : ObjectLayer} `{PF : Platform}.

Variable P : World -> Prop.
Variable Rel : World -> World -> Prop.
Hypothesis Rel_refl : forall w, Rel w w.
Hypothesis Rel_trans : forall a b c, Rel a b -> Rel b c -> Rel a c.
Hypothesis Rel_P : forall w w', P w -> Rel w w' -> P w'.

Lemma respects_ret total {A} (a : A) : respects P Rel total (ret a).
Proof. intros w _. split; [apply Rel_refl | intros _; eexists; reflexivity]. Qed.

Lemma respects_read total {A} (f : World -> A) : respects P Rel total (read f).
Proof. intros w _. split; [apply Rel_refl | intros _; eexists; reflexivity]. Qed.

Lemma respects_throw {A} (e : Error) : respects P Rel false (@throw _ A e).
Proof. intros w _. split; [apply Rel_refl | discriminate]. Qed.

Lemma respects_write total (f : World -> World) :
  (forall w, P w -> Rel w (f w)) -> respects P Rel total (write f).
Proof. intros Hf w Hw. split; [apply Hf, Hw | intros _; eexists; reflexivity]. Qed.

Lemma respects_relax total {A} (c : Sync A) :
  respects P Rel total c -> respects P Rel false c.
Proof.
  intros Hc w Hw. destruct (Hc w Hw) as [HR _]. split; [exact HR | discriminate].
Qed.

Lemma respects_bind total {A B} (c : Sync A) (f : A -> Sync B) :
  respects P Rel total c ->
  (forall a, respects P Rel total (f a)) ->
  respects P Rel total (bind c f).
Proof.
  intros Hc Hf w Hw. destruct (Hc w Hw) as [HR Ht]. unfold bind.
  destruct (c w) as [w' [a | e]]; cbn in *.
  - destruct (Hf a w' (Rel_P _ _ Hw HR)) as [HR' Ht'].
    split; [eapply Rel_trans; eassumption | exact Ht'].
  - split; [exact HR |].
    intros Htot. destruct (Ht Htot) as [a Ha]. discriminate Ha.
Qed.

Lemma respects_for_each total {A} (l : list A) (body : A -> Sync unit) :
  (forall x, respects P Rel total (body x)) ->
  respects P Rel total (for_each l body).
Proof.
  intros Hb. induction l as [| x l IH]; cbn.
  - apply respects_ret.
  - apply respects_bind; [apply Hb | intros _; exact IH].
Qed.

End Respect.

(** ** The provider-synchronisation methods only touch the entity layer *)

Section AuthMethods.

Context `{OL : ObjectLayer} `{PF : Platform}.

Variable P : World -> Prop.
Variable Rel : World -> World -> Prop.
Hypothesis Rel_refl : forall w, Rel w w.
Hypothesis Rel_trans : forall a b c, Rel a b -> Rel b c -> Rel a c.
Hypothesis Rel_P : forall w w', P w -> Rel w w' -> P w'.
Hypothesis Rel_mutate : forall w this f, P w ->
  Rel w (with_heap (mutate_attribute this "authData" f (heap w)) w).
Hypothesis Rel_save : forall w this authData, P w ->
  Rel w (with_heap
           (ParseObject_save_begin this
              (JObj {["authData" := JObj authData]}) ∅ (heap w)) w).
Hypothesis Rel_log : forall w e, P w ->
  store_access e = false -> cache_event e = false -> Rel w (log e w).

Variable ctl : Sync (option User).
Variable total : bool.
Hypothesis ctl_ok : respects P Rel total ctl.

Local Ltac leaf :=
  first
    [ apply (respects_ret P Rel Rel_refl)
    | apply (respects_read P Rel Rel_refl)
    | apply (respects_throw P Rel Rel_refl)
    | apply (respects_write P Rel); intros ? ?;
      first [ apply Rel_mutate; assumption
            | apply Rel_save; assumption
            | apply Rel_log; [assumption | reflexivity | reflexivity] ]
    | assumption ].

Local Tactic Notation "after" ident(x) :=
  apply (respects_bind P Rel Rel_trans Rel_P); [| intros x ].

Local Tactic Notation "each" ident(x) :=
  apply (respects_for_each P Rel Rel_refl Rel_trans Rel_P); intros x.

Lemma current_respects : respects P Rel total (Src.ParseUser_current ctl).
Proof.
  unfold Src.ParseUser_current. after can; [leaf |].
  destruct (negb can); leaf.
Qed.

Lemma isCurrent_respects (this : User) :
  respects P Rel total (Src.isCurrent ctl this).
Proof.
  unfold Src.isCurrent. after cur; [apply current_respects |].
  destruct cur as [cur |]; [| leaf]. after h; leaf.
Qed.

Lemma get_respects b (this : User) (attr : string) :
  respects P Rel b (Src.get this attr).
Proof. unfold Src.get. leaf. Qed.

Lemma logOutWith_respects (this : User) (provider : string) :
  respects P Rel total (Src._logOutWith ctl this provider).
Proof.
  unfold Src._logOutWith. after cur; [apply isCurrent_respects |].
  destruct (negb cur); [leaf |]. after ps; [leaf |].
  destruct (ps !! provider) as [p |]; [| leaf].
  destruct (has_deauthenticate p); leaf.
Qed.

Lemma logOutWithAll_respects (this : User) :
  respects P Rel total (Src._logOutWithAll ctl this).
Proof.
  unfold Src._logOutWithAll. after authData; [apply get_respects |].
  destruct (negb (typeof_object authData)); [leaf |].
  each key. apply logOutWith_respects.
Qed.

Lemma cleanupAuthData_respects (this : User) :
  respects P Rel total (Src._cleanupAuthData ctl this).
Proof.
  unfold Src._cleanupAuthData. after cur; [apply isCurrent_respects |].
  destruct (negb cur); [leaf |]. after authData; [apply get_respects |].
  destruct (negb (typeof_object authData)); [leaf |].
  each key. destruct authData as [| | | | | o]; try leaf.
  destruct (negb (truthy (prop o key))); leaf.
Qed.

Lemma unlinkFrom_respects (this : User) (provider : Provider) :
  respects P Rel false (Src._unlinkFrom this provider).
Proof.
  unfold Src._unlinkFrom. after authData; [apply get_respects |].
  after authData'.
  - destruct authData as [| | | | | o]; cbn; try leaf;
      try (match goal with
           | |- respects _ _ _ (if ?c then _ else _) => destruct c
           end; leaf).
    after x; leaf.
  - after x; [leaf |]. after y; leaf.
Qed.

Lemma synchronizeAuthData_respects (this : User) (provider : string) :
  respects P Rel false (Src._synchronizeAuthData ctl this provider).
Proof.
  unfold Src._synchronizeAuthData. after cur.
  { apply (respects_relax P Rel total), isCurrent_respects. }
  destruct (negb cur || negb (truthy (JStr provider))); [leaf |].
  after ps; [leaf |]. after authData; [apply get_respects |].
  destruct (ps !! provider) as [p |].
  2: { destruct (bool_decide (provider ∈ Object_prototype)); [| leaf].
       destruct (negb (typeof_object authData)); leaf. }
  destruct (negb (typeof_object authData)); [leaf |].
  destruct authData as [| | | | | o]; try leaf.
  after x; [leaf |].
  destruct (restoreAuthentication p (prop o provider)); [leaf |].
  apply unlinkFrom_respects.
Qed.

Lemma synchronizeAllAuthData_respects (this : User) :
  respects P Rel false (Src._synchronizeAllAuthData ctl this).
Proof.
  unfold Src._synchronizeAllAuthData. after authData; [apply get_respects |].
  destruct (negb (typeof_object authData)); [leaf |].
  each key. apply synchronizeAuthData_respects.
Qed.

Lemma cache_set_respects b (user : option User) :
  (forall w, P w -> Rel w (log (CacheAssigned user)
     (with_cache user (log (Dispatched (Actions_set user)) w)))) ->
  respects P Rel b (Src.currentUserCache_set user).
Proof.
  intros H w Hw. split; [apply H, Hw | intros _; eexists; reflexivity].
Qed.

End AuthMethods.

(** ** With a populated cache the provider methods are quiet *)

Section Quiet.

Context `{OL : ObjectLayer} `{PF : Platform}.

Lemma quiet_refl (w : World) : quiet w w.
Proof.
  repeat split. exists []. split; [symmetry; apply app_nil_r | constructor].
Qed.

Lemma quiet_trans (a b c : World) : quiet a b -> quiet b c -> quiet a c.
Proof.
  intros (H1 & H2 & H3 & H4 & H5 & H6 & evs & Ht & Hf)
         (K1 & K2 & K3 & K4 & K5 & K6 & evs' & Kt & Kf).
  repeat split; try congruence.
  exists (evs ++ evs'). split.
  - rewrite Kt, Ht, app_assoc. reflexivity.
  - apply Forall_app; split; assumption.
Qed.

Lemma quiet_populated (w w' : World) : populated w -> quiet w w' -> populated w'.
Proof. intros Hp (_ & _ & Hc & _). unfold populated. rewrite Hc. exact Hp. Qed.

Lemma quiet_heap (w : World) (h : Heap) : populated w -> quiet w (with_heap h w).
Proof.
  intros _. repeat split. exists []. split; [symmetry; apply app_nil_r | constructor].
Qed.

Lemma quiet_log (w : World) (e : Event) :
  populated w -> store_access e = false -> cache_event e = false ->
  quiet w (log e w).
Proof.
  intros _ Hs Hc. repeat split. exists [e]. split; [reflexivity |].
  constructor; [split; assumption | constructor].
Qed.

Lemma cache_hit_respects (ctl : Sync (option User)) :
  cache_hit ctl -> respects populated quiet true ctl.
Proof.
  intros Hit w [u Hu]. rewrite (Hit w u Hu). cbn.
  split; [apply quiet_refl | intros _; eexists; reflexivity].
Qed.

Lemma currentUser_cache_hit (ctl : Sync (option User)) :
  cache_hit (Src.currentUser ctl).
Proof. intros w u Hu. apply currentUser_hit, Hu. Qed.

Variable ctl : Sync (option User).
Hypothesis ctl_hit : cache_hit ctl.

Local Ltac side :=
  first [ exact quiet_refl | exact quiet_trans | exact quiet_populated
        | exact (fun w this f Hp => quiet_heap w _ Hp)
        | exact (fun w this authData Hp => quiet_heap w _ Hp)
        | exact quiet_log
        | exact (cache_hit_respects _ ctl_hit) ].

Lemma cleanupAuthData_quiet (this : User) :
  respects populated quiet true (Src._cleanupAuthData ctl this).
Proof.
  apply cleanupAuthData_respects; side.
Qed.

Lemma logOutWithAll_quiet (this : User) :
  respects populated quiet true (Src._logOutWithAll ctl this).
Proof.
  apply logOutWithAll_respects; side.
Qed.

Lemma synchronizeAllAuthData_quiet (this : User) :
  respects populated quiet false (Src._synchronizeAllAuthData ctl this).
Proof.
  apply synchronizeAllAuthData_respects with (total := true); side.
Qed.

Lemma isCurrent_returns (this : User) (w : World) :
  populated w -> exists b, Src.isCurrent ctl this w = (w, Return b).
Proof.
  intros [u Hu]. unfold Src.isCurrent, Src.ParseUser_current, bind, read.
  destruct (canUseCurrentUser w); cbn.
  - rewrite (ctl_hit w u Hu). eexists. reflexivity.
  - eexists. reflexivity.
Qed.

(** A key under which no provider is registered and which names no member
    of [Object.prototype] is passed over. *)
Lemma synchronizeAuthData_unregistered (this : User) (key : string) (w : World) :
  populated w -> authProviders w !! key = None -> key ∉ Object_prototype ->
  Src._synchronizeAuthData ctl this key w = (w, Return tt).
Proof.
  intros Hp Hps Hkey. unfold Src._synchronizeAuthData.
  destruct (isCurrent_returns this w Hp) as [b Hb].
  unfold bind at 1. rewrite Hb.
  destruct (negb b || negb (truthy (JStr key))); [reflexivity |].
  unfold bind, read, Src.get. cbn. rewrite Hps.
  rewrite bool_decide_eq_false_2 by exact Hkey. reflexivity.
Qed.

Lemma synchronizeAllAuthData_unregistered (this : User) (w : World) :
  populated w ->
  Forall (fun key => authProviders w !! key = None /\ key ∉ Object_prototype)
    (Src.keys_in (ParseObject_get this "authData" (heap w))) ->
  Src._synchronizeAllAuthData ctl this w = (w, Return tt).
Proof.
  intros Hp Hkeys. unfold Src._synchronizeAllAuthData, bind, Src.get, read.
  destruct (negb (typeof_object (ParseObject_get this "authData" (heap w))));
    [reflexivity |].
  induction Hkeys as [| k l [Hk1 Hk2] _ IH]; [reflexivity |].
  cbn. unfold bind. rewrite synchronizeAuthData_unregistered by assumption.
  exact IH.
Qed.

(** Without an entry in the [authData] there is nothing to clean up. *)
Lemma cleanupAuthData_no_entries (this : User) (w : World) :
  populated w ->
  Src.keys_in (ParseObject_get this "authData" (heap w)) = [] ->
  Src._cleanupAuthData ctl this w = (w, Return tt).
Proof.
  intros Hp Hkeys. unfold Src._cleanupAuthData.
  destruct (isCurrent_returns this w Hp) as [b Hb].
  unfold bind at 1. rewrite Hb.
  destruct (negb b); [reflexivity |].
  unfold bind, Src.get, read.
  destruct (negb (typeof_object (ParseObject_get this "authData" (heap w))));
    [reflexivity |].
  rewrite Hkeys. reflexivity.
Qed.

End Quiet.

(** ** Reading and writing the current identity *)

Section CurrentIdentity.

Context `{OL : ObjectLayer} `{PF : Platform}.

Lemma currentUserAsync_hit (ctl : Sync (option User)) (w : World) (u : User) :
  _currentUserCache w = Some u ->
  Src.currentUserAsync ctl w = (w, Settled (Fulfilled (Some u))).
Proof.
  intros Hc. unfold Src.currentUserAsync, run_sync, Src.currentUserCache_get, read.
  rewrite Hc. reflexivity.
Qed.

Lemma currentUserAsync_known_absent (ctl : Sync (option User)) (w : World) :
  _currentUserCache w = None ->
  currentUserCacheMatchesDisk w = true ->
  Src.currentUserAsync ctl w = (w, Settled (Fulfilled None)).
Proof.
  intros Hc Hm. unfold Src.currentUserAsync, run_sync, Src.currentUserCache_get, read.
  rewrite Hc, Hm. reflexivity.
Qed.

(** What [setCurrentUser] does before it returns its promise. *)
Lemma setCurrentUser_sync (ctl : Sync (option User)) (user : User) (w : World) :
  cache_hit ctl ->
  exists w1 evs,
    quiet (log (CacheAssigned (Some user))
             (with_cache (Some user) (log (Dispatched (Actions_set (Some user))) w))) w1 /\
    trace w1 = trace w ++ Dispatched (Actions_set (Some user))
                 :: CacheAssigned (Some user) :: evs /\
    Forall (fun e => store_access e = false /\ cache_event e = false) evs /\
    (Src.setCurrentUser ctl user w = Src.updateUserOnDisk user w1 \/
     exists e, Src.setCurrentUser ctl user w = (w1, Settled (Crashed e))) /\
    (Src.keys_in (ParseObject_get user "authData" (heap w)) = [] ->
     Src.setCurrentUser ctl user w = Src.updateUserOnDisk user w1).
Proof.
  intros Hit. unfold Src.setCurrentUser, run_sync.
  set (w0 := log (CacheAssigned (Some user))
               (with_cache (Some user) (log (Dispatched (Actions_set (Some user))) w))).
  assert (Hp0 : populated w0) by (eexists; reflexivity).
  change ((exec Src.currentUserCache_set (Some user);
           exec Src._cleanupAuthData ctl user;
           Src._synchronizeAllAuthData ctl user) w)
    with ((exec Src._cleanupAuthData ctl user;
           Src._synchronizeAllAuthData ctl user) w0).
  unfold bind.
  destruct (cleanupAuthData_quiet ctl Hit user w0 Hp0) as [Hq1 Hr1].
  destruct (Hr1 eq_refl) as [[] Hr]. clear Hr1.
  pose proof (cleanupAuthData_no_entries ctl Hit user w0 Hp0) as Hclean.
  change (heap w0) with (heap w) in Hclean.
  destruct (Src._cleanupAuthData ctl user w0) as [w1 r1]; cbn in Hq1, Hr. subst r1.
  assert (Hp1 : populated w1) by (eapply quiet_populated; eassumption).
  destruct (synchronizeAllAuthData_quiet ctl Hit user w1 Hp1) as [Hq2 _].
  pose proof (synchronizeAllAuthData_unregistered ctl Hit user w1 Hp1) as Hnone.
  destruct (Src._synchronizeAllAuthData ctl user w1) as [w2 r2]; cbn in Hq2.
  pose proof (quiet_trans _ _ _ Hq1 Hq2) as Hq.
  destruct Hq as (H1 & H2 & H3 & H4 & H5 & H6 & evs & Ht & Hf).
  exists w2, evs. split; [| split; [| split; [| split]]].
  - repeat split; try assumption. exists evs. split; assumption.
  - rewrite Ht. cbn. rewrite <- !app_assoc. reflexivity.
  - exact Hf.
  - destruct r2 as [[] | e]; [left; reflexivity | right; eexists; reflexivity].
  - intros Hkeys. specialize (Hclean Hkeys). injection Hclean as Hw1.
    assert (Hh1 : heap w1 = heap w) by (rewrite Hw1; reflexivity).
    rewrite Hh1, Hkeys in Hnone.
    specialize (Hnone (List.Forall_nil _)). injection Hnone as _ ->. reflexivity.
Qed.

(** C2: for every user [U], [setCurrentUser(U)] assigns the in-memory cache
    before it sends the persistent write, and the promise it returns is
    still waiting for the store; a read of the current identity made in
    that state, synchronous or asynchronous, returns [U] and leaves the
    world as it is, so the persistent store is not touched.  (If the
    provider synchronisation throws, no write is sent at all; the cache
    holds [U] all the same.) *)
Theorem setCurrentUser_read_your_write (user : User) (w : World) :
  exists w' promise evs,
    DefaultController.setCurrentUser user w = (w', promise) /\
    _currentUserCache w' = Some user /\
    trace w' = trace w ++ Dispatched (Actions_set (Some user))
                 :: CacheAssigned (Some user) :: evs /\
    ((exists value k evs0,
        promise = Await (StorageSetItemAsync
                           (Storage_generatePath CURRENT_USER_KEY) value) k /\
        evs = evs0 ++ [Issued (StorageSetItemAsync
                                 (Storage_generatePath CURRENT_USER_KEY) value)] /\
        Forall (fun e => store_access e = false) evs0) \/
     (exists e, promise = Settled (Crashed e) /\
        Forall (fun e => store_access e = false) evs)) /\
    DefaultController.currentUser w' = (w', Return (Some user)) /\
    DefaultController.currentUserAsync w' = (w', Settled (Fulfilled (Some user))).
Proof.
  destruct (setCurrentUser_sync DefaultController.currentUser user w
              (currentUser_cache_hit _))
    as (w1 & evs & Hq & Ht & Hf & Hres & _).
  assert (Hc1 : _currentUserCache w1 = Some user).
  { destruct Hq as (_ & _ & Hc & _). exact Hc. }
  assert (Hf' : Forall (fun e => store_access e = false) evs).
  { eapply Forall_impl; [exact Hf | intros e [He _]; exact He]. }
  unfold DefaultController.setCurrentUser.
  destruct Hres as [Hres | [e Hres]]; rewrite Hres.
  - unfold Src.updateUserOnDisk, then_, Src.Storage_setItemAsync, issue. cbn.
    eexists _, _, _. split; [reflexivity |].
    split; [exact Hc1 |]. split; [cbn; rewrite Ht, <- app_assoc; reflexivity |].
    split; [left; eexists _, _, evs; repeat split; exact Hf' |].
    split; [apply currentUser_hit | apply currentUserAsync_hit]; exact Hc1.
  - exists w1, (Settled (Crashed e)), evs. split; [reflexivity |].
    split; [exact Hc1 |]. split; [exact Ht |].
    split; [right; exists e; split; [reflexivity | exact Hf'] |].
    split; [apply currentUser_hit | apply currentUserAsync_hit]; exact Hc1.
Qed.

End CurrentIdentity.

Lemma setCurrentUser_read_your_write_witness :
  exists w' promise,
    DefaultController.setCurrentUser 0%nat Sample.signed_out = (w', promise) /\
    _currentUserCache w' = Some 0%nat /\
    DefaultController.currentUser w' = (w', Return (Some 0%nat)) /\
    DefaultController.currentUserAsync w'
    = (w', Settled (Fulfilled (Some 0%nat))).
Proof.
  destruct (setCurrentUser_read_your_write (OL := ObjectState.layer)
              (PF := Sample.platform) 0%nat Sample.signed_out)
    as (w' & promise & evs & Heq & Hc & _ & _ & Hread & Hasync).
  exists w', promise. split; [exact Heq |]. split; [exact Hc |].
  split; [exact Hread | exact Hasync].
Defined.

(** With a registered provider that fails to restore its authentication,
    [setCurrentUser] cleans the [authData], starts the unlinking and then
    sends the write; the read still answers from the cache. *)
Example setCurrentUser_of_linked_user :
  let w' := (DefaultController.setCurrentUser 0%nat Sample.linked).1 in
  _currentUserCache w' = Some 0%nat /\
  ObjectState.get 0 "authData" (heap w') = JObj {[ "facebook" := JNull ]} /\
  List.filter cache_event (trace w')
  = [Dispatched (Actions_set (Some 0%nat)); CacheAssigned (Some 0%nat)] /\
  length (List.filter store_access (trace w')) = 1%nat /\
  DefaultController.currentUser w' = (w', Return (Some 0%nat)).
Proof.
  cbv zeta. split; [reflexivity |]. split; [vm_compute; reflexivity |].
  split; [reflexivity |]. split; [vm_compute; reflexivity |].
  unfold DefaultController.currentUser.
  change (DefaultController.currentUser_at 2)
    with (Src.currentUser (DefaultController.currentUser_at 1)).
  refine (currentUser_hit (OL := ObjectState.layer) (PF := Sample.platform)
            _ _ (0%nat : User) _).
  reflexivity.
Qed.

(** ** Usage errors and the disabled current user *)

Section Usage.

Context `{OL : ObjectLayer} `{PF : Platform}.

(** C5: the synchronous read, called with nothing cached, with
    [cacheMatchesDisk] false and on a store that is asynchronous only,
    throws an [Error]; the world is left exactly as it was, so the store
    has not been read and nothing stale or absent was returned. *)
Theorem currentUser_fails_fast_on_async_store (w : World) :
  _currentUserCache w = None ->
  currentUserCacheMatchesDisk w = false ->
  storage_async w = true ->
  exists message,
    DefaultController.currentUser w = (w, Throw (JsError message)).
Proof.
  intros Hc Hm Ha. apply currentUser_async_store; assumption.
Qed.

(** C9: while the current user is disabled, [ParseUser.current()] returns
    [null] and [ParseUser.currentAsync()] is a promise fulfilled with
    [null], both leaving the world untouched (no store access), and
    [ParseUser.become] and [ParseUser.logOut] throw an [Error] before doing
    anything.  The current user is disabled when the module is loaded with
    [IS_NODE] set and after [disableUnsafeCurrentUser]. *)
Theorem disabled_current_user (w : World) (sessionToken : jsval) (options : jsobj) :
  canUseCurrentUser w = false ->
  ParseUser.current w = (w, Return None) /\
  ParseUser.currentAsync w = (w, Settled (Fulfilled None)) /\
  (exists message,
     ParseUser.become sessionToken options w = (w, Throw (JsError message))) /\
  (exists message, ParseUser.logOut w = (w, Throw (JsError message))) /\
  (forall h async items,
     canUseCurrentUser (ParseUser.loaded true h async items) = false) /\
  (forall w0, canUseCurrentUser (ParseUser.disableUnsafeCurrentUser w0).1 = false).
Proof.
  intros Hcan. repeat split.
  - unfold ParseUser.current, Src.ParseUser_current, bind, read.
    rewrite Hcan. reflexivity.
  - unfold ParseUser.currentAsync, Src.ParseUser_currentAsync, run_sync, read.
    rewrite Hcan. reflexivity.
  - unfold ParseUser.become, Src.ParseUser_become, bind, read.
    rewrite Hcan. eexists. reflexivity.
  - unfold ParseUser.logOut, Src.ParseUser_logOut, bind, read.
    rewrite Hcan. eexists. reflexivity.
Qed.

End Usage.

Lemma currentUser_fails_fast_on_async_store_witness :
  _currentUserCache Sample.mobile = None /\
  currentUserCacheMatchesDisk Sample.mobile = false /\
  storage_async Sample.mobile = true /\
  exists message,
    DefaultController.currentUser Sample.mobile
    = (Sample.mobile, Throw (JsError message)).
Proof.
  split; [reflexivity |]. split; [reflexivity |]. split; [reflexivity |].
  apply (currentUser_fails_fast_on_async_store Sample.mobile); reflexivity.
Defined.

Lemma disabled_current_user_witness :
  canUseCurrentUser Sample.server = false /\
  ParseUser.current Sample.server = (Sample.server, Return None) /\
  ParseUser.currentAsync Sample.server
  = (Sample.server, Settled (Fulfilled None)).
Proof.
  split; [reflexivity |].
  destruct (disabled_current_user Sample.server (JStr "r:abc") ∅ eq_refl)
    as (H1 & H2 & _).
  split; [exact H1 | exact H2].
Defined.

(** ** The action vocabulary *)

(** C7: each of the ten action creators, whatever it is called with,
    returns a command whose [type] is its tag of the dispatcher vocabulary
    and whose [payload] is the argument list of the call; the exported
    object holds exactly these ten creators, in the order of the
    vocabulary, and no two of them share a tag. *)
Theorem action_creators_build_tagged_commands :
  Forall2 ActionCreators.creates ActionCreators.exports ActionCreators.vocabulary /\
  NoDup (ActionCreators.vocabulary.*2) /\
  forall arguments : list jsval,
    ActionCreators.initializeState arguments
      = {| ActionCreators.type := "INITIALIZE_STATE";
           ActionCreators.payload := arguments |} /\
    ActionCreators.removeState arguments
      = {| ActionCreators.type := "REMOVE_STATE";
           ActionCreators.payload := arguments |} /\
    ActionCreators.setServerData arguments
      = {| ActionCreators.type := "SET_SERVER_DATA";
           ActionCreators.payload := arguments |} /\
    ActionCreators.setPendingOp arguments
      = {| ActionCreators.type := "SET_PENDING_OP";
           ActionCreators.payload := arguments |} /\
    ActionCreators.pushPendingState arguments
      = {| ActionCreators.type := "PUSH_PENDING_STATE";
           ActionCreators.payload := arguments |} /\
    ActionCreators.popPendingState arguments
      = {| ActionCreators.type := "POP_PENDING_STATE";
           ActionCreators.payload := arguments |} /\
    ActionCreators.mergeFirstPendingState arguments
      = {| ActionCreators.type := "MERGE_FIRST_PENDING_STATE";
           ActionCreators.payload := arguments |} /\
    ActionCreators.commitServerChanges arguments
      = {| ActionCreators.type := "COMMIT_SERVER_CHANGES";
           ActionCreators.payload := arguments |} /\
    ActionCreators.enqueueTask arguments
      = {| ActionCreators.type := "ENQUEUE_TASK";
           ActionCreators.payload := arguments |} /\
    ActionCreators._clearAllState arguments
      = {| ActionCreators.type := "CLEAR_ALL_STATE";
           ActionCreators.payload := arguments |}.
Proof.
  split; [| split].
  - unfold ActionCreators.exports, ActionCreators.vocabulary.
    repeat (constructor; [split; [reflexivity | intros args; split; reflexivity] |]).
    constructor.
  - apply (bool_decide_unpack _). vm_compute. reflexivity.
  - intros args. repeat split.
Qed.

(** ** Legacy field names *)

Section Legacy.

Lemma strict_eq_true (a b : jsval) : strict_eq a b = true -> a = b.
Proof.
  destruct a, b; cbn; try discriminate; intros H; try reflexivity.
  - f_equal. apply Bool.eqb_prop, H.
  - f_equal. apply Z.eqb_eq, H.
  - f_equal. apply String.eqb_eq, H.
Qed.

Lemma prop_insert_eq (o : jsobj) (k : string) (v : jsval) :
  prop (<[k := v]> o) k = v.
Proof. unfold prop. rewrite lookup_insert_eq. reflexivity. Qed.

Lemma prop_insert_ne (o : jsobj) (k k' : string) (v : jsval) :
  k <> k' -> prop (<[k := v]> o) k' = prop o k'.
Proof. intros H. unfold prop. rewrite lookup_insert_ne by exact H. reflexivity. Qed.

Lemma prop_delete_ne (o : jsobj) (k k' : string) :
  k <> k' -> prop (delete k o) k' = prop o k'.
Proof. intros H. unfold prop. rewrite lookup_delete_ne by exact H. reflexivity. Qed.

(** The class-name default leaves every other field alone. *)
Lemma normalize_className_step (o : jsobj) (k : string) :
  k <> "className" ->
  (if negb (truthy (prop o "className"))
   then <["className" := JStr "_User"]> o else o) !! k = o !! k.
Proof.
  intros Hk. destruct (negb (truthy (prop o "className"))); [| reflexivity].
  apply lookup_insert_ne. congruence.
Qed.

Lemma normalize_id (o : jsobj) :
  truthy (prop o "_id") = true ->
  Src.normalize o !! "_id" = None /\
  prop (Src.normalize o) "objectId" = prop o "_id".
Proof.
  intros Hid. unfold Src.normalize.
  set (o1 := if negb (truthy (prop o "className"))
             then <["className" := JStr "_User"]> o else o).
  assert (H1 : forall k, k <> "className" -> prop o1 k = prop o k).
  { intros k Hk. unfold prop. subst o1.
    rewrite normalize_className_step by exact Hk. reflexivity. }
  rewrite (H1 "_id") by discriminate. rewrite Hid.
  set (o2 := delete "_id" _).
  assert (H2 : o2 !! "_id" = None) by (subst o2; apply lookup_delete_eq).
  assert (H3 : prop o2 "objectId" = prop o "_id").
  { subst o2. rewrite prop_delete_ne by discriminate.
    destruct (strict_eq (prop o1 "objectId") (prop o "_id")) eqn:E; cbn.
    - apply strict_eq_true, E.
    - apply prop_insert_eq. }
  destruct (truthy (prop o2 "_sessionToken")).
  - split.
    + rewrite lookup_delete_ne by discriminate.
      rewrite lookup_insert_ne by discriminate. exact H2.
    + rewrite prop_delete_ne by discriminate.
      rewrite prop_insert_ne by discriminate. exact H3.
  - split; assumption.
Qed.

Lemma normalize_sessionToken (o : jsobj) :
  truthy (prop o "_sessionToken") = true ->
  Src.normalize o !! "_sessionToken" = None /\
  prop (Src.normalize o) "sessionToken" = prop o "_sessionToken".
Proof.
  intros Hs. unfold Src.normalize.
  set (o1 := if negb (truthy (prop o "className"))
             then <["className" := JStr "_User"]> o else o).
  assert (H1 : forall k, k <> "className" -> prop o1 k = prop o k).
  { intros k Hk. unfold prop. subst o1.
    rewrite normalize_className_step by exact Hk. reflexivity. }
  set (o2 := if truthy (prop o1 "_id") then _ else _).
  assert (H2 : prop o2 "_sessionToken" = prop o "_sessionToken").
  { subst o2. destruct (truthy (prop o1 "_id")).
    - rewrite prop_delete_ne by discriminate.
      destruct (strict_eq (prop o1 "objectId") (prop o1 "_id")); cbn.
      + apply H1. discriminate.
      + rewrite prop_insert_ne by discriminate. apply H1. discriminate.
    - apply H1. discriminate. }
  rewrite H2, Hs. split.
  - apply lookup_delete_eq.
  - rewrite prop_delete_ne by discriminate. apply prop_insert_eq.
Qed.

(** A legacy key whose value is falsy is left where it is. *)
Lemma normalize_falsy_id (o : jsobj) :
  truthy (prop o "_id") = false ->
  Src.normalize o !! "_id" = o !! "_id".
Proof.
  intros Hid. unfold Src.normalize.
  set (o1 := if negb (truthy (prop o "className"))
             then <["className" := JStr "_User"]> o else o).
  assert (H1 : forall k, k <> "className" -> o1 !! k = o !! k).
  { intros k Hk. subst o1. apply normalize_className_step, Hk. }
  assert (Hp : prop o1 "_id" = prop o "_id").
  { unfold prop. rewrite H1 by discriminate. reflexivity. }
  rewrite Hp, Hid.
  destruct (truthy (prop o1 "_sessionToken")).
  - rewrite lookup_delete_ne by discriminate.
    rewrite lookup_insert_ne by discriminate. apply H1. discriminate.
  - apply H1. discriminate.
Qed.

Lemma normalize_falsy_sessionToken (o : jsobj) :
  truthy (prop o "_sessionToken") = false ->
  Src.normalize o !! "_sessionToken" = o !! "_sessionToken".
Proof.
  intros Hs. unfold Src.normalize.
  set (o1 := if negb (truthy (prop o "className"))
             then <["className" := JStr "_User"]> o else o).
  assert (H1 : forall k, k <> "className" -> o1 !! k = o !! k).
  { intros k Hk. subst o1. apply normalize_className_step, Hk. }
  set (o2 := if truthy (prop o1 "_id") then _ else _).
  assert (H2 : o2 !! "_sessionToken" = o !! "_sessionToken").
  { subst o2. destruct (truthy (prop o1 "_id")).
    - rewrite lookup_delete_ne by discriminate.
      destruct (strict_eq (prop o1 "objectId") (prop o1 "_id")); cbn.
      + apply H1. discriminate.
      + rewrite lookup_insert_ne by discriminate. apply H1. discriminate.
    - apply H1. discriminate. }
  assert (Hp : prop o2 "_sessionToken" = prop o "_sessionToken").
  { unfold prop. rewrite H2. reflexivity. }
  rewrite Hp, Hs. exact H2.
Qed.

End Legacy.

(** ** Loading the persisted snapshot *)

Section Loading.

Context `{OL : ObjectLayer} `{PF : Platform}.

Variable ctl : Sync (option User).
Hypothesis ctl_hit : cache_hit ctl.

Lemma revive_unfold (text : string) (o : jsobj) (w : World) :
  JSON_parse text = Some (JObj o) ->
  Src.revive ctl text w =
    let '(u, h) := ParseObject_fromJSON (Src.normalize o) (heap w) in
    let '(w1, r) := Src._synchronizeAllAuthData ctl u
                      (after_cache_set (Some u) (with_heap h w)) in
    (w1, match r with
         | Return _ => Return u
         | Throw e => Throw e
         end).
Proof.
  intros Hparse. unfold Src.revive, Src.parse_object. rewrite Hparse.
  unfold bind at 1. cbn -[Src.normalize].
  unfold bind at 1.
  destruct (ParseObject_fromJSON (Src.normalize o) (heap w)) as [u h].
  unfold bind, after_cache_set. cbn -[Src.normalize].
  match goal with
  | |- (let (_, _) := ?c in _) = _ => destruct c as [w1 [[] | e]]
  end; reflexivity.
Qed.

Lemma revive_object (text : string) (o : jsobj) (w : World) :
  JSON_parse text = Some (JObj o) ->
  exists w' r,
    Src.revive ctl text w = (w', r) /\
    quiet (after_cache_set
             (Some (ParseObject_fromJSON (Src.normalize o) (heap w)).1)
             (with_heap (ParseObject_fromJSON (Src.normalize o) (heap w)).2 w))
          w' /\
    (r = Return (ParseObject_fromJSON (Src.normalize o) (heap w)).1 \/
     exists e, r = Throw e) /\
    (authProviders w = ∅ -> loads_plainly o (heap w) ->
     r = Return (ParseObject_fromJSON (Src.normalize o) (heap w)).1).
Proof.
  intros Hparse. rewrite (revive_unfold text o w Hparse). unfold loads_plainly.
  destruct (ParseObject_fromJSON (Src.normalize o) (heap w)) as [u h].
  cbn [fst snd].
  set (w0 := after_cache_set (Some u) (with_heap h w)).
  assert (Hp0 : populated w0) by (eexists; reflexivity).
  destruct (synchronizeAllAuthData_quiet ctl ctl_hit u w0 Hp0) as [Hq _].
  pose proof (synchronizeAllAuthData_unregistered ctl ctl_hit u w0 Hp0) as Hnone.
  change (heap w0) with h in Hnone.
  change (authProviders w0) with (authProviders w) in Hnone.
  destruct (Src._synchronizeAllAuthData ctl u w0) as [w1 r1]; cbn in Hq.
  destruct r1 as [[] | e].
  - eexists _, _. split; [reflexivity |]. split; [exact Hq |].
    split; [left; reflexivity | intros _ _; reflexivity].
  - eexists _, _. split; [reflexivity |]. split; [exact Hq |].
    split; [right; eexists; reflexivity |].
    intros Hps Hplain. rewrite Hps in Hnone.
    assert (Hthrow : (w1, Throw e) = (w0, Return tt)).
    { apply Hnone. eapply Forall_impl; [exact Hplain |].
      intros key Hkey. split; [apply lookup_empty | exact Hkey]. }
    discriminate Hthrow.
Qed.

Lemma revive_not_json (text : string) (w : World) :
  JSON_parse text = None ->
  Src.revive ctl text w = (w, Throw SyntaxError).
Proof.
  intros Hparse. unfold Src.revive, Src.parse_object. rewrite Hparse. reflexivity.
Qed.

Lemma revive_not_object (text : string) (v : jsval) (w : World) :
  JSON_parse text = Some v ->
  (forall o, v <> JObj o) ->
  Src.revive ctl text w = (w, Throw TypeError).
Proof.
  intros Hparse Hv. unfold Src.revive, Src.parse_object. rewrite Hparse.
  destruct v; try reflexivity. destruct (Hv props eq_refl).
Qed.

(** Whatever the text, [revive] reads no store, leaves the flag alone and
    returns the user it has put in the cache, if it returns. *)
Lemma revive_any (text : string) (w : World) :
  exists w' r evs,
    Src.revive ctl text w = (w', r) /\
    trace w' = trace w ++ evs /\
    Forall (fun e => store_access e = false) evs /\
    currentUserCacheMatchesDisk w' = currentUserCacheMatchesDisk w /\
    (forall o, JSON_parse text = Some (JObj o) ->
       _currentUserCache w'
       = Some (ParseObject_fromJSON (Src.normalize o) (heap w)).1 /\
       (authProviders w = ∅ -> loads_plainly o (heap w) ->
        exists u, r = Return u)) /\
    ((exists u, r = Return u /\ _currentUserCache w' = Some u) \/
     (exists e, r = Throw e /\
        (_currentUserCache w' = _currentUserCache w \/
         exists o, JSON_parse text = Some (JObj o)))).
Proof.
  destruct (JSON_parse text) as [v |] eqn:Hparse.
  - destruct v as [| | | | | o];
      try (rewrite (revive_not_object text _ w Hparse) by discriminate;
           exists w, (Throw TypeError), [];
           split; [reflexivity |]; split; [symmetry; apply app_nil_r |];
           split; [constructor |]; split; [reflexivity |];
           split; [discriminate |];
           right; eexists; split; [reflexivity | left; reflexivity]).
    destruct (revive_object text o w Hparse) as (w' & r & Hrev & Hq & Hr & Hnone).
    destruct Hq as (_ & Hm & Hc & _ & _ & _ & evs & Ht & Hf).
    exists w', r, (Dispatched (Actions_set
                     (Some (ParseObject_fromJSON (Src.normalize o) (heap w)).1))
                   :: CacheAssigned
                        (Some (ParseObject_fromJSON (Src.normalize o) (heap w)).1)
                   :: evs).
    split; [exact Hrev |]. split.
    { rewrite Ht. cbn. rewrite <- !app_assoc. reflexivity. }
    split.
    { constructor; [reflexivity |]. constructor; [reflexivity |].
      eapply Forall_impl; [exact Hf | intros e [He _]; exact He]. }
    split; [exact Hm |]. split.
    { intros o' Ho'. injection Ho' as <-. split; [exact Hc |].
      intros Hps Hplain. eexists. apply Hnone; assumption. }
    destruct Hr as [-> | [e ->]].
    + left. eexists. split; [reflexivity | exact Hc].
    + right. exists e. split; [reflexivity |]. right. exists o. reflexivity.
  - rewrite (revive_not_json text w Hparse).
    exists w, (Throw SyntaxError), [].
    split; [reflexivity |]. split; [symmetry; apply app_nil_r |].
    split; [constructor |]. split; [reflexivity |].
    split; [discriminate |].
    right. eexists. split; [reflexivity | left; reflexivity].
Qed.

Lemma restore_spec (item : option string) (w : World) :
  exists w' r evs,
    Src.restore ctl item w = (w', r) /\
    trace w' = trace w ++ evs /\
    Forall (fun e => store_access e = false) evs /\
    currentUserCacheMatchesDisk w' = true /\
    (_currentUserCache w = None ->
       (forall text, Src.item_text item = Some text -> JSON_parse text = None) ->
       _currentUserCache w' = None) /\
    stored_identity item (heap w) (_currentUserCache w') /\
    (r = Return (_currentUserCache w') \/ exists e, r = Throw e) /\
    (Src.item_text item = None -> r = Return None) /\
    (authProviders w = ∅ ->
     (forall text, Src.item_text item = Some text ->
        exists o, JSON_parse text = Some (JObj o) /\
                  loads_plainly o (heap w)) ->
     r = Return (_currentUserCache w')).
Proof.
  unfold Src.restore, stored_identity.
  change (bind (write (with_cacheMatchesDisk true)) ?f w)
    with (f tt (with_cacheMatchesDisk true w)). cbn beta.
  destruct (Src.item_text item) as [text |].
  - destruct (revive_any text (with_cacheMatchesDisk true w))
      as (w' & r & evs & Hrev & Ht & Hf & Hm & Hobj & Hr).
    unfold bind. rewrite Hrev.
    exists w', (match r with Return a => Return (Some a) | Throw e => Throw e end), evs.
    split; [destruct r; reflexivity |]. split; [exact Ht |].
    split; [exact Hf |]. split; [exact Hm |]. split.
    { intros Hc Hbad. specialize (Hbad text eq_refl).
      destruct Hr as [(u & -> & Hu) | (e & -> & [Hsame | [o Ho]])].
      - rewrite (revive_not_json text _ Hbad) in Hrev. discriminate Hrev.
      - rewrite Hsame. exact Hc.
      - congruence. }
    split; [intros o Ho; apply (Hobj o Ho) |]. split.
    { destruct Hr as [(u & -> & Hu) | (e & -> & _)].
      - left. rewrite Hu. reflexivity.
      - right. eexists. reflexivity. }
    split; [discriminate |].
    intros Hps Hparse. destruct (Hparse text eq_refl) as (o & Ho & Hplain).
    destruct (Hobj o Ho) as [Hc Hret]. destruct (Hret Hps Hplain) as [u ->].
    destruct Hr as [(u' & Hu' & Hcu) | (e & He & _)]; [| discriminate He].
    injection Hu' as <-. rewrite Hcu. reflexivity.
  - eexists _, _, [Dispatched (Actions_set None); CacheAssigned None].
    split; [reflexivity |]. split; [cbn; rewrite <- app_assoc; reflexivity |].
    split; [repeat constructor |]. split; [reflexivity |].
    split; [reflexivity |]. split; [reflexivity |].
    split; [left; reflexivity |]. split; reflexivity.
Qed.

End Loading.

(** ** The read of the current identity *)

Section ReadClaim.

Context `{OL : ObjectLayer} `{PF : Platform}.

Lemma currentUser_reads_store (ctl : Sync (option User)) (w : World) :
  _currentUserCache w = None ->
  currentUserCacheMatchesDisk w = false ->
  storage_async w = false ->
  Src.currentUser ctl w
  = Src.restore ctl (storage_items w !! Storage_generatePath CURRENT_USER_KEY)
      (log (StorageGetItem (Storage_generatePath CURRENT_USER_KEY)) w).
Proof.
  intros Hc Hm Ha.
  unfold Src.currentUser, Src.currentUserCache_get, Src.Storage_getItem, bind, read.
  rewrite Hc, Hm, Ha. reflexivity.
Qed.

Lemma currentUserAsync_reads_store (ctl : Sync (option User)) (w : World) :
  _currentUserCache w = None ->
  currentUserCacheMatchesDisk w = false ->
  exists k,
    Src.currentUserAsync ctl w
    = (log (Issued (StorageGetItemAsync (Storage_generatePath CURRENT_USER_KEY))) w,
       Await (StorageGetItemAsync (Storage_generatePath CURRENT_USER_KEY)) k) /\
    forall w1,
      (forall e, k (inr e) w1 = (w1, Settled (Rejected e))) /\
      (forall item, k (inl item) w1 = run_sync (Src.restore ctl item) as_ w1).
Proof.
  intros Hc Hm.
  unfold Src.currentUserAsync, run_sync, Src.currentUserCache_get, read.
  rewrite Hc, Hm. eexists. split; [reflexivity |].
  intros w1. split; reflexivity.
Qed.

(** C1, as amended: a read of the current identity, synchronous or
    asynchronous, returns the cached user without touching anything when
    the cache holds one, and returns [null] without touching anything when
    the cache is empty and [cacheMatchesDisk] is set.  Otherwise the
    synchronous read throws, reading nothing, on a store that is
    asynchronous only; in the remaining cases the store is read (the
    asynchronous read waiting for its answer, and passing on a rejection).
    Once the store has answered, [cacheMatchesDisk] is true, the store is
    not accessed again, and the cache is [null] when the store held
    nothing ([null] or the empty string) or holds the user built from the
    normalised snapshot when the stored text parses to an object; the
    read returns what the cache then holds unless it throws. *)
Theorem read_current_identity (w : World) :
  let path := Storage_generatePath CURRENT_USER_KEY in
  (forall u, _currentUserCache w = Some u ->
     DefaultController.currentUser w = (w, Return (Some u)) /\
     DefaultController.currentUserAsync w = (w, Settled (Fulfilled (Some u)))) /\
  (_currentUserCache w = None -> currentUserCacheMatchesDisk w = true ->
     DefaultController.currentUser w = (w, Return None) /\
     DefaultController.currentUserAsync w = (w, Settled (Fulfilled None))) /\
  (_currentUserCache w = None -> currentUserCacheMatchesDisk w = false ->
     (storage_async w = true ->
        exists message,
          DefaultController.currentUser w = (w, Throw (JsError message))) /\
     (storage_async w = false ->
        exists w' r evs,
          DefaultController.currentUser w = (w', r) /\
          trace w' = trace w ++ StorageGetItem path :: evs /\
          Forall (fun e => store_access e = false) evs /\
          currentUserCacheMatchesDisk w' = true /\
          stored_identity (storage_items w !! path) (heap w)
            (_currentUserCache w') /\
          (r = Return (_currentUserCache w') \/ exists e, r = Throw e) /\
          (Src.item_text (storage_items w !! path) = None -> r = Return None)) /\
     (exists k,
        DefaultController.currentUserAsync w
        = (log (Issued (StorageGetItemAsync path)) w,
           Await (StorageGetItemAsync path) k) /\
        forall w1,
          (forall e, k (inr e) w1 = (w1, Settled (Rejected e))) /\
          (forall item, exists w' t evs,
             k (inl item) w1 = (w', t) /\
             trace w' = trace w1 ++ evs /\
             Forall (fun e => store_access e = false) evs /\
             currentUserCacheMatchesDisk w' = true /\
             stored_identity item (heap w1) (_currentUserCache w') /\
             (t = Settled (Fulfilled (_currentUserCache w')) \/
              exists e, t = Settled (Crashed e)) /\
             (Src.item_text item = None -> t = Settled (Fulfilled None))))).
Proof.
  intros path.
  pose proof (currentUser_cache_hit (DefaultController.currentUser_at 1)) as Hit1.
  pose proof (currentUser_cache_hit (DefaultController.currentUser_at 0)) as Hit0.
  split; [| split].
  - intros u Hu. split; [apply currentUser_hit | apply currentUserAsync_hit]; exact Hu.
  - intros Hc Hm.
    split; [apply currentUser_known_absent | apply currentUserAsync_known_absent];
      assumption.
  - intros Hc Hm. split; [| split].
    + intros Ha. apply currentUser_async_store; assumption.
    + intros Ha.
      unfold DefaultController.currentUser. cbn [DefaultController.currentUser_at].
      rewrite (currentUser_reads_store _ w Hc Hm Ha). fold path.
      destruct (restore_spec _ Hit0 (storage_items w !! path)
                  (log (StorageGetItem path) w))
        as (w' & r & evs & Heq & Ht & Hf & Hm' & _ & Hst & Hr & Hnone & _).
      exists w', r, evs. split; [exact Heq |].
      split; [rewrite Ht; cbn; rewrite <- app_assoc; reflexivity |].
      repeat split; assumption.
    + destruct (currentUserAsync_reads_store DefaultController.currentUser w Hc Hm)
        as (k & Heq & Hk).
      exists k. split; [exact Heq |]. intros w1.
      destruct (Hk w1) as [Hrej Hful]. split; [exact Hrej |].
      intros item. rewrite Hful. unfold run_sync.
      destruct (restore_spec _ Hit1 item w1)
        as (w' & r & evs & Heq' & Ht & Hf & Hm' & _ & Hst & Hr & Hnone & _).
      change (@DefaultController.currentUser OL PF)
        with (Src.currentUser (DefaultController.currentUser_at 1)).
      rewrite Heq'.
      exists w', (match r with
                  | Return a => Settled (Fulfilled a)
                  | Throw e => Settled (Crashed e)
                  end), evs.
      split; [destruct r; reflexivity |].
      split; [exact Ht |]. split; [exact Hf |]. split; [exact Hm' |].
      split; [exact Hst |]. split.
      * destruct Hr as [-> | [e ->]]; [left | right; eexists]; reflexivity.
      * intros Hi. rewrite (Hnone Hi). reflexivity.
Qed.

End ReadClaim.

(** ** Examples on the sample platform *)

(** C1, counterexample: on a platform whose store is asynchronous only,
    with nothing cached and [cacheMatchesDisk] false, the synchronous read
    neither reads the store nor sets [cacheMatchesDisk]: it throws and the
    world stays as it was. *)
Lemma sync_read_on_async_store_reads_nothing :
  _currentUserCache Sample.mobile = None /\
  currentUserCacheMatchesDisk Sample.mobile = false /\
  (exists e, (DefaultController.currentUser Sample.mobile).2 = Throw e) /\
  currentUserCacheMatchesDisk (DefaultController.currentUser Sample.mobile).1 = false /\
  trace (DefaultController.currentUser Sample.mobile).1 = [].
Proof.
  split; [reflexivity |]. split; [reflexivity |].
  split; [eexists; reflexivity |]. split; reflexivity.
Qed.

(** A stored text that is not JSON is read, [cacheMatchesDisk] is set, and
    the read throws with the cache still empty. *)
Example read_of_garbled_entry :
  DefaultController.currentUser Sample.garbled
  = (with_cacheMatchesDisk true (log (StorageGetItem Sample.path) Sample.garbled),
     Throw SyntaxError).
Proof. reflexivity. Qed.

Lemma read_current_identity_witness :
  exists w' r,
    DefaultController.currentUser Sample.browser = (w', r) /\
    currentUserCacheMatchesDisk w' = true /\
    _currentUserCache w' = Some 0%nat.
Proof.
  destruct (read_current_identity Sample.browser) as (_ & _ & H3).
  destruct (H3 eq_refl eq_refl) as (_ & Hsync & _).
  destruct (Hsync eq_refl) as (w' & r & evs & Heq & _ & _ & Hm & Hst & _).
  exists w', r. split; [exact Heq |]. split; [exact Hm |].
  apply (Hst Sample.legacy_snapshot). vm_compute. reflexivity.
Defined.

Section LegacyClaim.

Context `{OL : ObjectLayer} `{PF : Platform}.

(** C6, as amended: in a persisted snapshot that [currentUser] or
    [currentUserAsync] loads, a legacy [_id] whose value is truthy is
    renamed to [objectId] (whatever [objectId] held) and a legacy
    [_sessionToken] whose value is truthy is renamed to [sessionToken];
    the renamed key is gone from the loaded data.  A legacy key whose value
    is falsy (the empty string, [0], [false], [null]) stays where it is.
    The loaded data is what both read paths hand to
    [ParseObject.fromJSON]. *)
Theorem legacy_fields_translated (o : jsobj) :
  (truthy (prop o "_id") = true ->
     Src.normalize o !! "_id" = None /\
     prop (Src.normalize o) "objectId" = prop o "_id") /\
  (truthy (prop o "_sessionToken") = true ->
     Src.normalize o !! "_sessionToken" = None /\
     prop (Src.normalize o) "sessionToken" = prop o "_sessionToken") /\
  (truthy (prop o "_id") = false ->
     Src.normalize o !! "_id" = o !! "_id") /\
  (truthy (prop o "_sessionToken") = false ->
     Src.normalize o !! "_sessionToken" = o !! "_sessionToken") /\
  (forall (w : World) (text : string),
     let path := Storage_generatePath CURRENT_USER_KEY in
     JSON_parse text = Some (JObj o) ->
     Src.item_text (Some text) = Some text ->
     _currentUserCache w = None ->
     currentUserCacheMatchesDisk w = false ->
     (storage_async w = false ->
      storage_items w !! path = Some text ->
      _currentUserCache (DefaultController.currentUser w).1
      = Some (ParseObject_fromJSON (Src.normalize o) (heap w)).1) /\
     (exists k,
        (DefaultController.currentUserAsync w).2
        = Await (StorageGetItemAsync path) k /\
        forall w1,
          _currentUserCache (k (inl (Some text)) w1).1
          = Some (ParseObject_fromJSON (Src.normalize o) (heap w1)).1)).
Proof.
  split; [apply normalize_id |]. split; [apply normalize_sessionToken |].
  split; [apply normalize_falsy_id |].
  split; [apply normalize_falsy_sessionToken |].
  intros w text path Hparse Htext Hc Hm.
  pose proof (currentUser_cache_hit (DefaultController.currentUser_at 1)) as Hit1.
  pose proof (currentUser_cache_hit (DefaultController.currentUser_at 0)) as Hit0.
  split.
  - intros Ha Hitem.
    change (@DefaultController.currentUser OL PF)
      with (Src.currentUser (Src.currentUser (DefaultController.currentUser_at 0))).
    rewrite (currentUser_reads_store _ w Hc Hm Ha). fold path. rewrite Hitem.
    destruct (restore_spec _ Hit0 (Some text) (log (StorageGetItem path) w))
      as (w' & r & evs & Heq & _ & _ & _ & _ & Hst & _).
    rewrite Heq. cbn [fst]. unfold stored_identity in Hst.
    rewrite Htext in Hst. apply (Hst o Hparse).
  - destruct (currentUserAsync_reads_store DefaultController.currentUser w Hc Hm)
      as (k & Heq & Hk).
    exists k. unfold DefaultController.currentUserAsync. rewrite Heq.
    split; [reflexivity |]. intros w1.
    destruct (Hk w1) as [_ Hful]. rewrite Hful. unfold run_sync.
    change (@DefaultController.currentUser OL PF)
      with (Src.currentUser (DefaultController.currentUser_at 1)).
    destruct (restore_spec _ Hit1 (Some text) w1)
      as (w' & r & evs & Heq' & _ & _ & _ & _ & Hst & _).
    rewrite Heq'. unfold stored_identity in Hst. rewrite Htext in Hst.
    destruct r; cbn [fst]; apply (Hst o Hparse).
Qed.

End LegacyClaim.

(** C6, counterexample: the snapshot [{"_id": "", "objectId": "u7"}] has a
    legacy [_id]; after normalisation the key [_id] is still there and
    [objectId] is not what [_id] held. *)
Lemma blank_legacy_id_is_kept :
  Sample.blank_id_snapshot !! "_id" = Some (JStr "") /\
  Src.normalize Sample.blank_id_snapshot !! "_id" = Some (JStr "") /\
  prop (Src.normalize Sample.blank_id_snapshot) "objectId" = JStr "u7".
Proof. vm_compute. repeat split. Qed.

Lemma legacy_fields_translated_witness :
  truthy (prop Sample.legacy_snapshot "_id") = true /\
  Src.normalize Sample.legacy_snapshot !! "_id" = None /\
  prop (Src.normalize Sample.legacy_snapshot) "objectId" = JStr "u1" /\
  Src.normalize Sample.legacy_snapshot !! "_sessionToken" = None /\
  prop (Src.normalize Sample.legacy_snapshot) "sessionToken" = JStr "r:abc".
Proof.
  split; [reflexivity |].
  destruct (legacy_fields_translated (OL := ObjectState.layer)
              (PF := Sample.platform) Sample.legacy_snapshot)
    as (Hid & Htok & _).
  destruct (Hid eq_refl) as [H1 H2]. destruct (Htok eq_refl) as [H3 H4].
  repeat split; assumption.
Defined.

(** ** Logging out *)

Section LogOut.

Context `{OL : ObjectLayer} `{PF : Platform}.

Variable ctl : Sync (option User).
Hypothesis ctl_hit : cache_hit ctl.

Lemma logOut_callback_spec (currentUser : option User) (w0 : World) :
  _currentUserCache w0 = currentUser ->
  exists w' promise,
    Src.logOut_callback ctl currentUser w0 = (w', promise) /\
    (exists evs,
       trace w' = trace w0 ++ Issued (StorageRemoveItemAsync
                                        (Storage_generatePath CURRENT_USER_KEY))
                    :: evs /\
       Forall (fun e => store_access e = false) evs) /\
    _currentUserCache w' = None /\
    currentUserCacheMatchesDisk w' = true /\
    match revocable_session currentUser (heap w0) with
    | Some token => settles_with_invalidation token promise
    | None => settles_with_removal promise
    end.
Proof.
  intros Hc. unfold Src.logOut_callback, run_sync.
  set (path := Storage_generatePath CURRENT_USER_KEY).
  set (w1 := log (Issued (StorageRemoveItemAsync path)) w0).
  unfold bind at 1. unfold Src.call at 1, Src.Storage_removeItemAsync, issue.
  fold w1.
  destruct currentUser as [u |].
  - assert (Hp1 : populated w1) by (exists u; exact Hc).
    unfold bind at 1. unfold bind at 1. unfold Src.getSessionToken, Src.get at 1, read.
    unfold revocable_session.
    change (heap w1) with (heap w0).
    set (token := ParseObject_get u "sessionToken" (heap w0)).
    destruct (logOutWithAll_quiet ctl ctl_hit u w1 Hp1) as [Hq Hret].
    destruct (Hret eq_refl) as [[] Hr]. clear Hret.
    destruct (truthy token && isRevocableSession token);
      cbn -[Src._logOutWithAll Src._finishFetch Src.currentUserCache_set];
      unfold bind;
      destruct (Src._logOutWithAll ctl u w1) as [w2 r2]; cbn in Hq, Hr; subst r2;
      cbn;
      destruct Hq as (_ & _ & _ & _ & _ & _ & evs & Ht & Hf);
      (eexists _, _; split; [reflexivity |]; split;
       [ exists (evs ++ [Dispatched (Actions_set None); CacheAssigned None]);
         split;
         [ cbn; rewrite Ht; subst w1; cbn; rewrite <- !app_assoc; reflexivity
         | apply Forall_app; split;
           [ eapply Forall_impl; [exact Hf | intros e [He _]; exact He]
           | repeat constructor ] ]
       | split; [reflexivity |]; split; [reflexivity |] ]).
    + eexists. split; [reflexivity |]. intros w'. split; [reflexivity |].
      eexists. split; [reflexivity |]. intros w''. split; reflexivity.
    + eexists. split; [reflexivity |]. intros w'. split; reflexivity.
  - cbn. eexists _, _. split; [reflexivity |]. split.
    + exists [Dispatched (Actions_set None); CacheAssigned None].
      split; [cbn; rewrite <- !app_assoc; reflexivity | repeat constructor].
    + split; [reflexivity |]. split; [reflexivity |].
      eexists. split; [reflexivity |]. intros w'. split; reflexivity.
Qed.

Lemma logged_out_of_callback (currentUser : option User) (w0 w' : World)
    (promise : Task unit) :
  _currentUserCache w0 = currentUser ->
  Src.logOut_callback ctl currentUser w0 = (w', promise) ->
  logged_out w0 w' promise.
Proof.
  intros Hc Heq.
  destruct (logOut_callback_spec currentUser w0 Hc)
    as (w'' & promise' & Heq' & Htr & Hc' & Hm' & Hshape).
  rewrite Heq in Heq'. injection Heq' as <- <-.
  unfold logged_out. split; [exact Htr |]. split; [exact Hc' |].
  split; [exact Hm' |]. split.
  - destruct (revocable_session currentUser (heap w0));
      destruct Hshape as (k & -> & _); eexists; reflexivity.
  - split; [apply currentUser_known_absent | apply currentUserAsync_known_absent];
      assumption.
Qed.

(** [logOut] when no read of the store is needed. *)
Lemma logOut_direct (w : World) :
  populated w \/ currentUserCacheMatchesDisk w = true ->
  Src.logOut ctl w = Src.logOut_callback ctl (_currentUserCache w) w.
Proof.
  intros H. unfold Src.logOut, then_.
  destruct (_currentUserCache w) as [u |] eqn:Hc.
  - rewrite (currentUserAsync_hit ctl w u Hc). reflexivity.
  - destruct H as [[u Hu] | Hm]; [congruence |].
    rewrite (currentUserAsync_known_absent ctl w Hc Hm). reflexivity.
Qed.

(** [logOut] when the store has to be read first. *)
Lemma logOut_after_read (w : World) :
  _currentUserCache w = None ->
  currentUserCacheMatchesDisk w = false ->
  exists k,
    Src.logOut ctl w
    = (log (Issued (StorageGetItemAsync (Storage_generatePath CURRENT_USER_KEY))) w,
       Await (StorageGetItemAsync (Storage_generatePath CURRENT_USER_KEY)) k) /\
    forall w1,
      (forall e, k (inr e) w1 = (w1, Settled (Rejected e))) /\
      (forall item,
         k (inl item) w1
         = match Src.restore ctl item w1 with
           | (w2, Return currentUser) => Src.logOut_callback ctl currentUser w2
           | (w2, Throw e) => (w2, Settled (Crashed e))
           end).
Proof.
  intros Hc Hm. unfold Src.logOut, then_.
  destruct (currentUserAsync_reads_store ctl w Hc Hm) as (k0 & Heq & Hk0).
  rewrite Heq. cbn [chain]. eexists. split; [reflexivity |].
  intros w1. destruct (Hk0 w1) as [Hrej Hful]. split.
  - intros e. rewrite Hrej. reflexivity.
  - intros item. rewrite Hful. unfold run_sync.
    destruct (Src.restore ctl item w1) as [w2 [cu | e]]; reflexivity.
Qed.

End LogOut.

Section LogOutClaims.

Context `{OL : ObjectLayer} `{PF : Platform}.

(** What is not a store access leaves the store as it is. *)
Lemma store_after_other (evs : list Event) (items : gmap string string) :
  Forall (fun e => store_access e = false) evs -> store_after evs items = items.
Proof.
  intros Hf. revert items. unfold store_after.
  induction Hf as [| e evs He _ IH]; intros items; [reflexivity |].
  cbn [fold_left].
  destruct e as [| | | R req | | |]; try apply IH.
  destruct req; first [apply IH | discriminate He].
Qed.

(** In the state that [logOut] leaves, the store, once it has carried out
    what was sent, holds no current-user entry. *)
Lemma logged_out_removes (w0 w' : World) (promise : Task unit) :
  logged_out w0 w' promise ->
  exists evs,
    trace w' = trace w0 ++ evs /\
    forall items,
      store_after evs items !! Storage_generatePath CURRENT_USER_KEY = None.
Proof.
  intros ((evs & Ht & Hf) & _).
  eexists. split; [exact Ht |]. intros items.
  unfold store_after. cbn [fold_left].
  change (fold_left _ evs ?x) with (store_after evs x).
  rewrite (store_after_other evs _ Hf). apply lookup_delete_eq.
Qed.

(** C3, as amended: from every state in which [logOut]'s own read of the
    current identity succeeds, it removes the persisted current-user entry
    (the removal is sent to the store, which is not accessed otherwise
    from then on, so that the store holds no such entry once it has
    carried out what was sent), empties the in-memory cache and sets
    [cacheMatchesDisk]; in the state it leaves, both reads of the current
    identity return [null] and change nothing.  The read succeeds at once
    when the cache holds a user or [cacheMatchesDisk] is true; otherwise
    it succeeds when the store answers and taking the answer in does not
    throw: so when the store holds nothing, and when it holds a text that
    parses to an object, no provider is registered and no key of the
    loaded user's [authData] names a member of [Object.prototype].  When
    the store rejects the read, [logOut] is rejected; when taking the
    answer in throws, [logOut] ends there; in both cases no removal is
    sent. *)
Theorem logOut_clears_current_identity (w : World) :
  let path := Storage_generatePath CURRENT_USER_KEY in
  (populated w \/ currentUserCacheMatchesDisk w = true ->
     exists w' promise,
       DefaultController.logOut w = (w', promise) /\
       logged_out w w' promise) /\
  (_currentUserCache w = None -> currentUserCacheMatchesDisk w = false ->
     exists k,
       DefaultController.logOut w
       = (log (Issued (StorageGetItemAsync path)) w,
          Await (StorageGetItemAsync path) k) /\
       forall w1,
         (forall e, k (inr e) w1 = (w1, Settled (Rejected e))) /\
         (forall item, exists w' promise,
            k (inl item) w1 = (w', promise) /\
            ((exists w2 evs,
                trace w2 = trace w1 ++ evs /\
                Forall (fun e => store_access e = false) evs /\
                logged_out w2 w' promise) \/
             (exists e evs,
                promise = Settled (Crashed e) /\
                trace w' = trace w1 ++ evs /\
                Forall (fun e => store_access e = false) evs)) /\
            (Src.item_text item = None \/
             (authProviders w1 = ∅ /\
              exists text o, Src.item_text item = Some text /\
                             JSON_parse text = Some (JObj o) /\
                             loads_plainly o (heap w1)) ->
             exists w2 evs,
               trace w2 = trace w1 ++ evs /\
               Forall (fun e => store_access e = false) evs /\
               logged_out w2 w' promise))) /\
  (forall w0 w' promise,
     logged_out w0 w' promise ->
     exists evs,
       trace w' = trace w0 ++ evs /\
       forall items, store_after evs items !! path = None).
Proof.
  intros path.
  pose proof (currentUser_cache_hit (DefaultController.currentUser_at 1)) as Hit.
  split; [| split; [| exact logged_out_removes]].
  - intros H. unfold DefaultController.logOut.
    rewrite (logOut_direct _ w H).
    destruct (Src.logOut_callback DefaultController.currentUser
                (_currentUserCache w) w) as [w' promise] eqn:Heq.
    exists w', promise. split; [reflexivity |].
    apply (logged_out_of_callback _ Hit (_currentUserCache w) w w' promise eq_refl Heq).
  - intros Hc Hm. unfold DefaultController.logOut.
    destruct (logOut_after_read DefaultController.currentUser w Hc Hm)
      as (k & Heq & Hk).
    exists k. split; [exact Heq |]. intros w1.
    destruct (Hk w1) as [Hrej Hful]. split; [exact Hrej |].
    intros item. rewrite Hful.
    destruct (restore_spec _ Hit item w1)
      as (w2 & r & evs & Hres & Ht & Hf & _ & _ & _ & Hr & Hnone & Hload).
    change (@DefaultController.currentUser OL PF)
      with (Src.currentUser (DefaultController.currentUser_at 1)).
    rewrite Hres.
    assert (Hok : forall cu, r = Return cu ->
              exists w' promise,
                Src.logOut_callback
                  (Src.currentUser (DefaultController.currentUser_at 1)) cu w2
                = (w', promise) /\
                logged_out w2 w' promise).
    { intros cu Hcu.
      destruct (Src.logOut_callback _ cu w2) as [w' promise] eqn:Hcb.
      exists w', promise. split; [reflexivity |].
      apply (logged_out_of_callback _ Hit cu w2 w' promise); [| exact Hcb].
      destruct Hr as [Hr | [e Hr]]; congruence. }
    destruct r as [cu | e].
    + destruct (Hok cu eq_refl) as (w' & promise & Hcb & Hlo).
      exists w', promise. split; [exact Hcb |].
      split; [left | intros _];
        (exists w2, evs; split; [exact Ht |]; split; [exact Hf | exact Hlo]).
    + exists w2, (Settled (Crashed e)). split; [reflexivity |]. split.
      * right. exists e, evs. split; [reflexivity |]. split; [exact Ht | exact Hf].
      * intros [Hi | (Hps & text & o & Hi & Hparse & Hplain)].
        -- specialize (Hnone Hi). discriminate Hnone.
        -- assert (Hret : Throw e = Return (_currentUserCache w2)).
           { apply Hload; [exact Hps |]. intros text' Ht'.
             exists o. split; [congruence | exact Hplain]. }
           discriminate Hret.
Qed.

(** C4, as amended: when the user being logged out has a truthy session
    token of the revocable kind, the promise of [logOut] waits for the
    removal of the persisted entry and then for the invalidation request,
    which is sent once the removal is fulfilled: the promise is fulfilled
    when that request is, and rejected with its error when the request
    fails (or with the store's error, no request being sent, when the
    removal fails).  Only without such a token does the promise settle
    with the removal alone.  This holds when the user comes from the cache
    and when it has just been read from the store. *)
Theorem logOut_follows_invalidation (w : World) :
  (populated w \/ currentUserCacheMatchesDisk w = true ->
     exists w' promise,
       DefaultController.logOut w = (w', promise) /\
       match revocable_session (_currentUserCache w) (heap w) with
       | Some token => settles_with_invalidation token promise
       | None => settles_with_removal promise
       end) /\
  (_currentUserCache w = None -> currentUserCacheMatchesDisk w = false ->
     exists k,
       (DefaultController.logOut w).2
       = Await (StorageGetItemAsync (Storage_generatePath CURRENT_USER_KEY)) k /\
       forall w1 item w2 currentUser,
         Src.restore DefaultController.currentUser item w1
         = (w2, Return currentUser) ->
         exists w' promise,
           k (inl item) w1 = (w', promise) /\
           match revocable_session currentUser (heap w2) with
           | Some token => settles_with_invalidation token promise
           | None => settles_with_removal promise
           end).
Proof.
  pose proof (currentUser_cache_hit (DefaultController.currentUser_at 1)) as Hit.
  split.
  - intros H. unfold DefaultController.logOut. rewrite (logOut_direct _ w H).
    destruct (logOut_callback_spec _ Hit (_currentUserCache w) w eq_refl)
      as (w' & promise & Heq & _ & _ & _ & Hshape).
    exists w', promise. split; [exact Heq | exact Hshape].
  - intros Hc Hm. unfold DefaultController.logOut.
    destruct (logOut_after_read DefaultController.currentUser w Hc Hm)
      as (k & Heq & Hk).
    exists k. rewrite Heq. split; [reflexivity |].
    intros w1 item w2 cu Hres. destruct (Hk w1) as [_ Hful].
    rewrite Hful, Hres.
    destruct (restore_spec _ Hit item w1)
      as (w2' & r & evs & Hres' & _ & _ & _ & _ & _ & Hr & _).
    change (@DefaultController.currentUser OL PF)
      with (Src.currentUser (DefaultController.currentUser_at 1)) in Hres.
    rewrite Hres in Hres'. injection Hres' as <- <-.
    assert (Hcu : _currentUserCache w2 = cu).
    { destruct Hr as [Hr | [e Hr]]; congruence. }
    destruct (logOut_callback_spec _ Hit cu w2 Hcu)
      as (w' & promise & Hcb & _ & _ & _ & Hshape).
    exists w', promise. split; [exact Hcb | exact Hshape].
Qed.

End LogOutClaims.

(** C3, counterexample: two starting states from which [logOut] removes
    nothing.  In a browser whose persisted entry is not JSON, the read
    that [logOut] starts with is answered with that text and taking it in
    throws: no removal is sent.  And when the store rejects that read,
    [logOut] is rejected: no removal is sent, [cacheMatchesDisk] is still
    false and the next read of the current identity goes to the store. *)
Lemma logOut_without_removal :
  storage_items Sample.garbled !! Sample.path = Some Sample.garbled_text /\
  exists w1 k,
    DefaultController.logOut Sample.garbled
    = (w1, Await (StorageGetItemAsync Sample.path) k) /\
    (k (inl (Some Sample.garbled_text)) w1).2 = Settled (Crashed SyntaxError) /\
    trace (k (inl (Some Sample.garbled_text)) w1).1
    = [Issued (StorageGetItemAsync Sample.path)] /\
    (k (inr (Failure "store unavailable")) w1).2
    = Settled (Rejected (Failure "store unavailable")) /\
    trace (k (inr (Failure "store unavailable")) w1).1
    = [Issued (StorageGetItemAsync Sample.path)] /\
    currentUserCacheMatchesDisk (k (inr (Failure "store unavailable")) w1).1
    = false /\
    exists k',
      (DefaultController.currentUserAsync
         (k (inr (Failure "store unavailable")) w1).1).2
      = Await (StorageGetItemAsync Sample.path) k'.
Proof.
  split; [reflexivity |].
  eexists _, _. split; [reflexivity |].
  split; [reflexivity |]. split; [reflexivity |]. split; [reflexivity |].
  split; [reflexivity |]. split; [reflexivity |].
  eexists. reflexivity.
Qed.

Lemma logOut_clears_current_identity_witness :
  populated Sample.signed_in /\
  exists w' promise,
    DefaultController.logOut Sample.signed_in = (w', promise) /\
    _currentUserCache w' = None /\
    currentUserCacheMatchesDisk w' = true /\
    DefaultController.currentUser w' = (w', Return None).
Proof.
  assert (Hp : populated Sample.signed_in) by (exists 0%nat; reflexivity).
  split; [exact Hp |].
  destruct (logOut_clears_current_identity Sample.signed_in) as [H _].
  destruct (H (or_introl Hp)) as (w' & promise & Heq & _ & Hc & Hm & _ & Hr & _).
  exists w', promise. repeat split; assumption.
Defined.

(** C4, counterexample: the cached user holds the revocable token
    [r:abc].  When the removal of the persisted entry has been fulfilled,
    the promise of [logOut] is not settled: it has sent the invalidation
    request and waits for it; and when that request fails, the promise is
    rejected with the failure. *)
Lemma logOut_pending_after_removal :
  exists w' k,
    DefaultController.logOut Sample.signed_in
    = (w', Await (StorageRemoveItemAsync Sample.path) k) /\
    exists k2,
      (k (inl tt) w').2
      = Await (RESTRequest "POST" "logout" ∅ {["sessionToken" := JStr "r:abc"]}) k2 /\
      (k2 (inr (Failure "offline")) (k (inl tt) w').1).2
      = Settled (Rejected (Failure "offline")).
Proof.
  eexists _, _. split; [reflexivity |].
  eexists. split; reflexivity.
Qed.

Lemma logOut_follows_invalidation_witness :
  populated Sample.signed_in /\
  exists w' promise,
    DefaultController.logOut Sample.signed_in = (w', promise) /\
    settles_with_invalidation (JStr "r:abc") promise.
Proof.
  assert (Hp : populated Sample.signed_in) by (exists 0%nat; reflexivity).
  split; [exact Hp |].
  destruct (logOut_follows_invalidation Sample.signed_in) as [H _].
  destruct (H (or_introl Hp)) as (w' & promise & Heq & Hshape).
  exists w', promise. split; [exact Heq | exact Hshape].
Defined.

(** ** Every change of the cache goes through the dispatcher *)

Section Tracked.

Context `{OL : ObjectLayer} `{PF : Platform}.

Lemma announced_weaken (prev : option Event) (evs : list Event) :
  announced None evs -> announced prev evs.
Proof.
  destruct evs as [| e evs]; [trivial |]. cbn. intros [He Hrest].
  split; [| exact Hrest]. destruct e; try exact I. discriminate He.
Qed.

Lemma announced_app (prev : option Event) (evs1 evs2 : list Event) :
  announced prev evs1 -> announced None evs2 -> announced prev (evs1 ++ evs2).
Proof.
  revert prev. induction evs1 as [| e evs1 IH]; intros prev H1 H2; cbn.
  - apply announced_weaken, H2.
  - destruct H1 as [He Hrest]. split; [exact He | apply IH; assumption].
Qed.

Lemma replay_app (evs1 evs2 : list Event) (c : option User) :
  replay (evs1 ++ evs2) c = replay evs2 (replay evs1 c).
Proof.
  revert c. induction evs1 as [| e evs1 IH]; intros c; [reflexivity |].
  destruct e; cbn; apply IH.
Qed.

Lemma tracked_refl (w : World) : tracked w w.
Proof. exists []. split; [symmetry; apply app_nil_r | split; [exact I | reflexivity]]. Qed.

Lemma tracked_trans (a b c : World) : tracked a b -> tracked b c -> tracked a c.
Proof.
  intros (evs1 & Ht1 & Ha1 & Hc1) (evs2 & Ht2 & Ha2 & Hc2).
  exists (evs1 ++ evs2). split; [| split].
  - rewrite Ht2, Ht1, app_assoc. reflexivity.
  - apply announced_app; assumption.
  - rewrite replay_app, <- Hc1. exact Hc2.
Qed.

Lemma tracked_heap (w : World) (h : Heap) : tracked w (with_heap h w).
Proof. exists []. split; [symmetry; apply app_nil_r | split; [exact I | reflexivity]]. Qed.

Lemma tracked_cacheMatchesDisk (w : World) (b : bool) :
  tracked w (with_cacheMatchesDisk b w).
Proof. exists []. split; [symmetry; apply app_nil_r | split; [exact I | reflexivity]]. Qed.

Lemma tracked_log (w : World) (e : Event) :
  cache_event e = false -> tracked w (log e w).
Proof.
  intros He. exists [e]. split; [reflexivity |]. split.
  - cbn. split; [| exact I]. destruct e; try exact I. discriminate He.
  - destruct e; try reflexivity. discriminate He.
Qed.

Lemma tracked_cache_set (w : World) (user : option User) :
  tracked w (after_cache_set user w).
Proof.
  exists [Dispatched (Actions_set user); CacheAssigned user].
  split; [cbn; rewrite <- app_assoc; reflexivity |].
  split; [cbn; auto | reflexivity].
Qed.

(** Induction on promises, through their continuations. *)
Lemma Task_induction {A} (Q : Task A -> Prop)
    (HS : forall o, Q (Settled o))
    (HA : forall R (req : Request R) k,
            (forall r w, Q (k r w).2) -> Q (Await req k))
    (t : Task A) : Q t.
Proof.
  revert t. fix IH 1. intros [o | R req k].
  - apply HS.
  - apply HA. intros r w. destruct (k r w) as [w' t']. apply IH.
Qed.

Lemma chain_tracked {A B} (t : Task A) (f : A -> Async B) :
  turns_tracked t ->
  (forall a, async_tracked (f a)) ->
  forall w, let '(w', t') := chain t f w in tracked w w' /\ turns_tracked t'.
Proof.
  intros Ht Hf. revert Ht.
  induction t as [o | R req k IH] using Task_induction; intros Ht w.
  - destruct o as [a | e | e]; cbn.
    + apply Hf.
    + split; [apply tracked_refl | exact I].
    + split; [apply tracked_refl | exact I].
  - cbn. split; [apply tracked_refl |].
    intros r w1. specialize (Ht r w1). specialize (IH r w1).
    destruct (k r w1) as [w2 t2]. cbn in IH. destruct Ht as [Htr Htt].
    specialize (IH Htt w2). destruct (chain t2 f w2) as [w3 t3].
    destruct IH as [Htr' Htt']. split; [eapply tracked_trans; eassumption | exact Htt'].
Qed.

Lemma then_tracked {A B} (p : Async A) (f : A -> Async B) :
  async_tracked p -> (forall a, async_tracked (f a)) -> async_tracked (then_ p f).
Proof.
  intros Hp Hf w. unfold then_. specialize (Hp w).
  destruct (p w) as [w1 t]. destruct Hp as [Htr Htt].
  pose proof (chain_tracked t f Htt Hf w1) as Hc.
  destruct (chain t f w1) as [w2 t2]. destruct Hc as [Htr' Htt'].
  split; [eapply tracked_trans; eassumption | exact Htt'].
Qed.

Lemma run_sync_tracked {A B} (c : Sync A) (f : A -> Async B) :
  respects (fun _ => True) tracked false c ->
  (forall a, async_tracked (f a)) -> async_tracked (run_sync c f).
Proof.
  intros Hc Hf w. unfold run_sync. destruct (Hc w I) as [Htr _].
  destruct (c w) as [w1 [a | e]]; cbn in Htr.
  - specialize (Hf a w1). destruct (f a w1) as [w2 t]. destruct Hf as [Htr' Htt].
    split; [eapply tracked_trans; eassumption | exact Htt].
  - split; [exact Htr | exact I].
Qed.

Lemma as_tracked {A} (a : A) : async_tracked (as_ a).
Proof. intros w. split; [apply tracked_refl | exact I]. Qed.

Lemma issue_tracked {R} (req : Request R) : async_tracked (issue req).
Proof.
  intros w. split; [apply tracked_log; reflexivity |].
  intros r w1. split; [apply tracked_refl | exact I].
Qed.

Local Ltac side :=
  first [ exact tracked_refl | exact tracked_trans
        | exact (fun (w w' : World) (_ : True) (_ : tracked w w') => I)
        | exact (fun w (this : User) (f : jsobj -> jsobj) (_ : True) =>
                   tracked_heap w _)
        | exact (fun w (this : User) (authData : jsobj) (_ : True) =>
                   tracked_heap w _)
        | exact (fun w e (_ : True) (_ : store_access e = false)
                   (Hc : cache_event e = false) => tracked_log w e Hc) ].

Local Ltac leaf :=
  first
    [ apply (respects_ret (fun _ => True) tracked tracked_refl)
    | apply (respects_read (fun _ => True) tracked tracked_refl)
    | apply (respects_throw (fun _ => True) tracked tracked_refl)
    | apply (respects_write (fun _ => True) tracked); intros ? _;
      first [ apply tracked_heap | apply tracked_cacheMatchesDisk
            | apply tracked_cache_set | apply tracked_log; reflexivity ]
    | assumption ].

Local Tactic Notation "after" ident(x) :=
  apply (respects_bind (fun _ => True) tracked tracked_trans
           (fun w w' _ _ => I)); [| intros x ].

Lemma cache_set_tracked (user : option User) :
  respects (fun _ => True) tracked false (Src.currentUserCache_set user).
Proof.
  apply cache_set_respects. intros w _. apply tracked_cache_set.
Qed.

Section Controller.

Variable ctl : Sync (option User).
Hypothesis ctl_tracked : respects (fun _ => True) tracked false ctl.

Lemma revive_tracked (text : string) :
  respects (fun _ => True) tracked false (Src.revive ctl text).
Proof.
  unfold Src.revive. after userData.
  { unfold Src.parse_object. destruct (JSON_parse text) as [[| | | | | o] |]; leaf. }
  after current.
  { intros w _. destruct (ParseObject_fromJSON _ (heap w)) as [u h]. cbn.
    split; [apply tracked_heap | discriminate]. }
  after x; [apply cache_set_tracked |].
  after y; [| leaf].
  apply synchronizeAllAuthData_respects with (total := false); side || exact ctl_tracked.
Qed.

Lemma restore_tracked (item : option string) :
  respects (fun _ => True) tracked false (Src.restore ctl item).
Proof.
  unfold Src.restore. after x; [leaf |].
  destruct (Src.item_text item) as [text |].
  - after current; [apply revive_tracked | leaf].
  - after y; [apply cache_set_tracked | leaf].
Qed.

Lemma currentUser_tracked :
  respects (fun _ => True) tracked false (Src.currentUser ctl).
Proof.
  unfold Src.currentUser. after cache; [unfold Src.currentUserCache_get; leaf |].
  destruct cache as [u |]; [leaf |].
  after matches; [leaf |]. destruct matches; [leaf |].
  after async; [leaf |]. destruct async; [leaf |].
  after userData; [| apply restore_tracked].
  unfold Src.Storage_getItem. after x; leaf.
Qed.

Lemma updateUserOnDisk_tracked (user : User) :
  async_tracked (Src.updateUserOnDisk user).
Proof.
  intros w. unfold Src.updateUserOnDisk.
  apply (then_tracked _ _ (issue_tracked _) (fun _ => as_tracked user) w).
Qed.

Lemma setCurrentUser_tracked (user : User) :
  async_tracked (Src.setCurrentUser ctl user).
Proof.
  unfold Src.setCurrentUser. apply run_sync_tracked.
  - after x; [apply cache_set_tracked |].
    after y.
    + apply cleanupAuthData_respects; side || exact ctl_tracked.
    + apply synchronizeAllAuthData_respects with (total := false);
        side || exact ctl_tracked.
  - intros _. apply updateUserOnDisk_tracked.
Qed.

Lemma currentUserAsync_tracked : async_tracked (Src.currentUserAsync ctl).
Proof.
  unfold Src.currentUserAsync. apply run_sync_tracked.
  { unfold Src.currentUserCache_get. leaf. }
  intros [u |]; [apply as_tracked |].
  apply run_sync_tracked; [leaf |].
  intros [|]; [apply as_tracked |].
  apply then_tracked; [apply issue_tracked |].
  intros item. apply run_sync_tracked; [apply restore_tracked |].
  intros cu. apply as_tracked.
Qed.

Lemma logOut_callback_tracked (currentUser : option User) :
  async_tracked (Src.logOut_callback ctl currentUser).
Proof.
  intros w. unfold Src.logOut_callback, run_sync.
  set (path := Storage_generatePath CURRENT_USER_KEY).
  set (w1 := log (Issued (StorageRemoveItemAsync path)) w).
  assert (H01 : tracked w w1) by (apply tracked_log; reflexivity).
  unfold bind at 1. unfold Src.call at 1, Src.Storage_removeItemAsync, issue.
  fold w1.
  destruct currentUser as [u |].
  - unfold bind at 1. unfold bind at 1.
    unfold Src.getSessionToken, Src.get at 1, read.
    assert (Hlo : respects (fun _ => True) tracked false (Src._logOutWithAll ctl u)).
    { apply logOutWithAll_respects; side || exact ctl_tracked. }
    destruct (Hlo w1 I) as [H12 _].
    destruct (truthy (ParseObject_get u "sessionToken" (heap w1))
              && isRevocableSession (ParseObject_get u "sessionToken" (heap w1)));
      cbn -[Src._logOutWithAll Src._finishFetch Src.currentUserCache_set];
      unfold bind;
      destruct (Src._logOutWithAll ctl u w1) as [w2 [[] | e]]; cbn in H12; cbn.
    + split.
      * eapply tracked_trans; [exact H01 |]. eapply tracked_trans; [exact H12 |].
        eapply tracked_trans; [apply tracked_heap |].
        eapply tracked_trans; [apply tracked_cacheMatchesDisk |].
        apply tracked_cache_set.
      * intros [[] | e] w'; cbn.
        -- split; [apply tracked_log; reflexivity |].
           intros r w''. destruct r; cbn; split; (apply tracked_refl || exact I).
        -- split; [apply tracked_refl | exact I].
    + split; [eapply tracked_trans; eassumption | exact I].
    + split.
      * eapply tracked_trans; [exact H01 |]. eapply tracked_trans; [exact H12 |].
        eapply tracked_trans; [apply tracked_heap |].
        eapply tracked_trans; [apply tracked_cacheMatchesDisk |].
        apply tracked_cache_set.
      * intros r w'. split; [apply tracked_refl | exact I].
    + split; [eapply tracked_trans; eassumption | exact I].
  - cbn. split.
    + eapply tracked_trans; [exact H01 |].
      eapply tracked_trans; [apply tracked_cacheMatchesDisk |].
      apply tracked_cache_set.
    + intros r w'. split; [apply tracked_refl | exact I].
Qed.

Lemma logOut_tracked : async_tracked (Src.logOut ctl).
Proof.
  unfold Src.logOut. apply then_tracked.
  - apply currentUserAsync_tracked.
  - apply logOut_callback_tracked.
Qed.

End Controller.

Lemma currentUser_at_tracked (depth : nat) :
  respects (fun _ => True) tracked false (DefaultController.currentUser_at depth).
Proof.
  induction depth as [| depth IH]; cbn.
  - unfold DefaultController.stack_exhausted. leaf.
  - apply currentUser_tracked, IH.
Qed.

End Tracked.

Section DispatchClaim.

Context `{OL : ObjectLayer} `{PF : Platform}.

(** C8: [currentUserCache.set(user)] dispatches [Actions.set(user)] and
    then assigns the in-memory value, and nothing else ever assigns it: in
    every turn of [setCurrentUser], of the synchronous and the asynchronous
    read, of [logOut], and in [_clearCache] and [_setCurrentUserCache], the
    cache at the end is the cache at the start changed by the assignments
    recorded in the trace, and each recorded assignment comes right after
    the dispatch of [Actions.set] for the value assigned.  This holds for
    every answer of the collaborators and for every state in which a
    suspended call is resumed. *)
Theorem cache_updates_are_dispatched :
  (forall user w,
     Src.currentUserCache_set user w = (after_cache_set user w, Return tt) /\
     trace (after_cache_set user w)
     = trace w ++ [Dispatched (Actions_set user); CacheAssigned user] /\
     _currentUserCache (after_cache_set user w) = user) /\
  (forall user, async_tracked (DefaultController.setCurrentUser user)) /\
  (forall w, tracked w (DefaultController.currentUser w).1) /\
  async_tracked DefaultController.currentUserAsync /\
  async_tracked DefaultController.logOut /\
  (forall w, tracked w (ParseUser._clearCache w).1) /\
  (forall user w, tracked w (ParseUser._setCurrentUserCache user w).1).
Proof.
  pose proof (currentUser_at_tracked 2) as Hctl.
  split; [| split; [| split; [| split; [| split; [| split]]]]].
  - intros user w. split; [reflexivity |]. split; [| reflexivity].
    cbn. rewrite <- app_assoc. reflexivity.
  - intros user. apply setCurrentUser_tracked, Hctl.
  - intros w. apply (Hctl w I).
  - apply currentUserAsync_tracked, Hctl.
  - apply logOut_tracked, Hctl.
  - intros w. cbn. eapply tracked_trans; [apply tracked_cache_set |].
    apply tracked_cacheMatchesDisk.
  - intros user w. apply tracked_cache_set.
Qed.

End DispatchClaim.

(** ** The call depth of [currentUser] *)

Section Depth.

Context `{OL : ObjectLayer} `{PF : Platform}.

Variables ctl1 ctl2 : Sync (option User).
Hypothesis hit1 : cache_hit ctl1.
Hypothesis hit2 : cache_hit ctl2.

Lemma isCurrent_agree (this : User) (w : World) :
  populated w -> Src.isCurrent ctl1 this w = Src.isCurrent ctl2 this w.
Proof.
  intros [u Hu]. unfold Src.isCurrent, Src.ParseUser_current, bind, read.
  destruct (canUseCurrentUser w); cbn; [| reflexivity].
  rewrite (hit1 w u Hu), (hit2 w u Hu). reflexivity.
Qed.

Lemma synchronizeAuthData_agree (this : User) (key : string) (w : World) :
  populated w ->
  Src._synchronizeAuthData ctl1 this key w = Src._synchronizeAuthData ctl2 this key w.
Proof.
  intros Hp. unfold Src._synchronizeAuthData. unfold bind at 1 3.
  rewrite (isCurrent_agree this w Hp). reflexivity.
Qed.

Lemma synchronizeAllAuthData_agree (this : User) (w : World) :
  populated w ->
  Src._synchronizeAllAuthData ctl1 this w = Src._synchronizeAllAuthData ctl2 this w.
Proof.
  intros Hp. unfold Src._synchronizeAllAuthData, bind, Src.get, read.
  destruct (negb (typeof_object (ParseObject_get this "authData" (heap w))));
    [reflexivity |].
  generalize (Src.keys_in (ParseObject_get this "authData" (heap w))).
  intros l. revert w Hp. induction l as [| key l IH]; intros w Hp; [reflexivity |].
  cbn. unfold bind. rewrite (synchronizeAuthData_agree this key w Hp).
  pose proof (synchronizeAuthData_respects populated quiet quiet_refl quiet_trans
                quiet_populated
                (fun w this f Hp => quiet_heap w _ Hp)
                (fun w this authData Hp => quiet_heap w _ Hp)
                quiet_log ctl2 true
                (cache_hit_respects ctl2 hit2) this key w Hp) as [Hq _].
  destruct (Src._synchronizeAuthData ctl2 this key w) as [w' [[] | e]];
    [| reflexivity].
  apply IH. eapply quiet_populated; eassumption.
Qed.

Lemma revive_agree (text : string) (w : World) :
  Src.revive ctl1 text w = Src.revive ctl2 text w.
Proof.
  destruct (JSON_parse text) as [v |] eqn:Hparse.
  - destruct v as [| | | | | o];
      try (rewrite !(revive_not_object _ text _ w Hparse) by discriminate;
           reflexivity).
    rewrite !(revive_unfold _ text o w Hparse).
    destruct (ParseObject_fromJSON (Src.normalize o) (heap w)) as [u h].
    rewrite synchronizeAllAuthData_agree; [reflexivity |].
    eexists; reflexivity.
  - rewrite !(revive_not_json _ text w Hparse). reflexivity.
Qed.

Lemma currentUser_agree (w : World) :
  Src.currentUser ctl1 w = Src.currentUser ctl2 w.
Proof.
  unfold Src.currentUser, bind, Src.currentUserCache_get, read.
  destruct (_currentUserCache w); [reflexivity |].
  destruct (currentUserCacheMatchesDisk w); [reflexivity |].
  destruct (storage_async w); [reflexivity |].
  cbn. unfold Src.restore, bind. cbn.
  destruct (Src.item_text _) as [text |]; [| reflexivity].
  rewrite revive_agree. reflexivity.
Qed.

End Depth.

(** Any call depth from two on gives the same [currentUser]: the calls
    that come back through [isCurrent] find the cache filled. *)
Lemma currentUser_at_depth `{OL : ObjectLayer} `{PF : Platform}
    (depth : nat) (w : World) :
  DefaultController.currentUser_at (2 + depth) w = DefaultController.currentUser w.
Proof.
  apply currentUser_agree; apply currentUser_cache_hit.
Qed.

(** ** No password in the confirmed data after sign-up and log-in *)

Section StoreFacts.

Import ObjectState.

Lemma merge_attrs_removed (data attrs : jsobj) (k : string) :
  attrs !! k = Some JUndefined -> merge_attrs data attrs !! k = None.
Proof.
  intros H. unfold merge_attrs. rewrite lookup_merge, H.
  destruct (data !! k); reflexivity.
Qed.

Lemma apply_ops_absent (data : jsobj) (ops : gmap string Operation) (k : string) :
  data !! k = None -> ops !! k = None -> apply_ops data ops !! k = None.
Proof.
  intros Hd Ho. unfold apply_ops. rewrite lookup_merge, Hd, Ho. reflexivity.
Qed.

Lemma estimate_absent (st : State) (k : string) :
  serverData st !! k = None ->
  Forall (fun ops => ops !! k = None) (pendingOps st) ->
  prop (estimate st) k = JUndefined.
Proof.
  unfold estimate. generalize (serverData st) as data.
  induction (pendingOps st) as [| ops l IH]; intros data Hd Hl; cbn.
  - unfold prop. rewrite Hd. reflexivity.
  - inversion Hl as [| ? ? Ho Hl']; subst.
    apply IH; [apply apply_ops_absent; assumption | exact Hl'].
Qed.

Lemma state_of_insert (ident : string * string) (st : State) (t : Table) :
  state_of ident (<[ident := st]> t) = st.
Proof. unfold state_of. rewrite lookup_insert_eq. reflexivity. Qed.

Lemma confirmed_finishFetch (u : nat) (data : jsobj) (h : Heap) (k : string) :
  k <> "objectId" ->
  data !! k = Some JUndefined ->
  confirmed u (_finishFetch u data h) !! k = None.
Proof.
  intros Hk Hd. unfold _finishFetch.
  set (h1 := match id (object u h), server_id (prop data "objectId") with
             | None, Some s => set_id u s h
             | _, _ => h
             end).
  unfold confirmed, on_table, commitServerChanges, setServerData.
  change (identity u {| table := ?t; objects := objects h1 |})
    with (identity u h1).
  cbn [table]. rewrite state_of_insert. cbn [serverData].
  apply merge_attrs_removed. rewrite lookup_delete_ne by congruence. exact Hd.
Qed.

End StoreFacts.

Section PasswordFacts.

Import ObjectState.

Context `{PF : Platform}.

Lemma serverData_setPendingOp (ident other : string * string) (attr : string)
    (op : option Operation) (t : Table) :
  serverData (state_of other (setPendingOp ident attr op t))
  = serverData (state_of other t).
Proof.
  unfold setPendingOp. destruct (decide (ident = other)) as [-> | Hne].
  - rewrite state_of_insert. reflexivity.
  - unfold state_of. rewrite lookup_insert_ne by exact Hne. reflexivity.
Qed.

Lemma serverData_pushPendingState (ident other : string * string) (t : Table) :
  serverData (state_of other (pushPendingState ident t))
  = serverData (state_of other t).
Proof.
  unfold pushPendingState. destruct (decide (ident = other)) as [-> | Hne].
  - rewrite state_of_insert. reflexivity.
  - unfold state_of. rewrite lookup_insert_ne by exact Hne. reflexivity.
Qed.

Lemma confirmed_mutate_authData (u this : nat) (f : jsobj -> jsobj) (h : Heap) :
  confirmed u (mutate this "authData" f h) !! "password"
  = confirmed u h !! "password".
Proof.
  unfold mutate.
  destruct (serverData (state_of (identity this h) (table h)) !! "authData")
    as [[| | | | | o] |]; try reflexivity.
  unfold confirmed, on_table.
  change (identity u {| table := ?t; objects := objects h |}) with (identity u h).
  cbn [table]. destruct (decide (identity this h = identity u h)) as [He | Hne].
  - rewrite He, state_of_insert. cbn [serverData].
    rewrite lookup_insert_ne by discriminate. reflexivity.
  - unfold state_of at 1. rewrite lookup_insert_ne by exact Hne. reflexivity.
Qed.

Lemma confirmed_save_authData (u this : nat) (authData : jsobj) (h : Heap) :
  confirmed u (save_begin this (JObj {["authData" := JObj authData]}) ∅ h)
  = confirmed u h.
Proof.
  unfold save_begin, confirmed, on_table.
  change (identity u {| table := ?t; objects := objects h |}) with (identity u h).
  cbn [table]. rewrite map_fold_singleton.
  rewrite serverData_pushPendingState, serverData_setPendingOp. reflexivity.
Qed.

Variable u : nat.

Lemma keeps_refl (w : World) : keeps_password_out u w w.
Proof. split; [apply quiet_refl | trivial]. Qed.

Lemma keeps_trans (a b c : World) :
  keeps_password_out u a b -> keeps_password_out u b c -> keeps_password_out u a c.
Proof.
  intros [Hq1 Hk1] [Hq2 Hk2]. split; [eapply quiet_trans; eassumption | auto].
Qed.

Lemma keeps_populated (w w' : World) :
  populated w -> keeps_password_out u w w' -> populated w'.
Proof. intros Hp [Hq _]. eapply quiet_populated; eassumption. Qed.

Lemma keeps_mutate (w : World) (this : User) (f : jsobj -> jsobj) :
  populated w ->
  keeps_password_out u w
    (with_heap (mutate_attribute this "authData" f (heap w)) w).
Proof.
  intros Hp. split; [apply quiet_heap, Hp |].
  unfold no_confirmed_password. cbn [heap with_heap].
  change (mutate_attribute this "authData" f (heap w))
    with (mutate this "authData" f (heap w)).
  rewrite confirmed_mutate_authData. trivial.
Qed.

Lemma keeps_save (w : World) (this : User) (authData : jsobj) :
  populated w ->
  keeps_password_out u w
    (with_heap (ParseObject_save_begin this
                  (JObj {["authData" := JObj authData]}) ∅ (heap w)) w).
Proof.
  intros Hp. split; [apply quiet_heap, Hp |].
  unfold no_confirmed_password. cbn [heap with_heap].
  change (ParseObject_save_begin this ?a ?o (heap w))
    with (save_begin this a o (heap w)).
  rewrite confirmed_save_authData. trivial.
Qed.

Lemma keeps_log (w : World) (e : Event) :
  populated w -> store_access e = false -> cache_event e = false ->
  keeps_password_out u w (log e w).
Proof. intros Hp Hs Hc. split; [apply quiet_log; assumption | trivial]. Qed.

Lemma keeps_cache_hit (ctl : Sync (option User)) :
  cache_hit ctl -> respects populated (keeps_password_out u) true ctl.
Proof.
  intros Hit w [v Hv]. rewrite (Hit w v Hv). cbn.
  split; [apply keeps_refl | intros _; eexists; reflexivity].
Qed.

(** [setCurrentUser] brings no password into the confirmed data. *)
Lemma setCurrentUser_keeps_password_out (ctl : Sync (option User))
    (user : User) (w : World) :
  cache_hit ctl ->
  no_confirmed_password u w ->
  no_confirmed_password u (Src.setCurrentUser ctl user w).1.
Proof.
  intros Hit Hno. unfold Src.setCurrentUser, run_sync.
  set (w0 := after_cache_set (Some user) w).
  change ((exec Src.currentUserCache_set (Some user);
           exec Src._cleanupAuthData ctl user;
           Src._synchronizeAllAuthData ctl user) w)
    with ((exec Src._cleanupAuthData ctl user;
           Src._synchronizeAllAuthData ctl user) w0).
  assert (Hp0 : populated w0) by (eexists; reflexivity).
  assert (Hsync : respects populated (keeps_password_out u) false
            (exec Src._cleanupAuthData ctl user;
             Src._synchronizeAllAuthData ctl user)).
  { apply (respects_bind populated (keeps_password_out u) keeps_trans
             keeps_populated).
    - apply (respects_relax populated (keeps_password_out u) true).
      apply cleanupAuthData_respects;
        first [ exact keeps_refl | exact keeps_trans | exact keeps_populated
              | exact keeps_mutate | exact keeps_save | exact keeps_log
              | exact (keeps_cache_hit ctl Hit) ].
    - intros _. apply synchronizeAllAuthData_respects with (total := true);
        first [ exact keeps_refl | exact keeps_trans | exact keeps_populated
              | exact keeps_mutate | exact keeps_save | exact keeps_log
              | exact (keeps_cache_hit ctl Hit) ]. }
  destruct (Hsync w0 Hp0) as [[_ Hkeep] _].
  destruct ((exec Src._cleanupAuthData ctl user;
             Src._synchronizeAllAuthData ctl user) w0) as [w1 [[] | e]];
    cbn in Hkeep; cbn; apply Hkeep, Hno.
Qed.

End PasswordFacts.

Section LogInFacts.

Import ObjectState.

Lemma last_alter_top {A} (f : A -> A) (l : list A) :
  last (alter f (length l - 1)%nat l) = f <$> last l.
Proof.
  rewrite !last_lookup, length_alter, Nat.sub_1_r.
  apply list_lookup_alter_eq.
Qed.

Lemma pending_clear (u : nat) (attr : string) (h : Heap) :
  pending u (on_table (setPendingOp (identity u h) attr None) h)
  = alter (delete attr) (length (pending u h) - 1)%nat (pending u h).
Proof.
  unfold pending, on_table.
  change (identity u {| table := ?t; objects := objects h |}) with (identity u h).
  cbn [table]. unfold setPendingOp. rewrite state_of_insert. reflexivity.
Qed.

Lemma object_setExisted (u : nat) (b : bool) (h : Heap) :
  id (object u (_setExisted u b h)) = id (object u h) /\
  identity u (_setExisted u b h) = identity u h.
Proof.
  unfold identity, _getId, object, _setExisted. cbn [objects].
  rewrite list_lookup_alter_eq. destruct (objects h !! u); split; reflexivity.
Qed.

Lemma id_after_migrate (u : nat) (serverId : jsval) (h : Heap) :
  is_Some (objects h !! u) ->
  is_Some (id (object u (_migrateId u serverId h))) \/ server_id serverId = None.
Proof.
  intros [o Ho]. unfold _migrateId.
  destruct (id (object u h)) as [s |] eqn:Hid.
  - left. rewrite Hid. eexists; reflexivity.
  - destruct (server_id serverId) as [s |]; [| right; reflexivity].
    left. unfold object, on_table, set_id. cbn [objects].
    rewrite list_lookup_alter_eq, Ho. cbn. eexists; reflexivity.
Qed.

Lemma pending_finishFetch (u : nat) (data : jsobj) (h : Heap) :
  is_Some (id (object u h)) \/ server_id (prop data "objectId") = None ->
  pending u (_finishFetch u data h) = pending u h.
Proof.
  intros H. unfold _finishFetch.
  assert (Hh : match id (object u h), server_id (prop data "objectId") with
               | None, Some s => set_id u s h
               | _, _ => h
               end = h).
  { destruct H as [[s Hs] | Hn]; [rewrite Hs; reflexivity |].
    rewrite Hn. destruct (id (object u h)); reflexivity. }
  rewrite Hh. unfold pending, on_table, commitServerChanges, setServerData.
  change (identity u {| table := ?t; objects := objects h |}) with (identity u h).
  cbn [table]. rewrite state_of_insert. reflexivity.
Qed.

End LogInFacts.

Section PasswordClaim.

Import ObjectState.

Context `{PF : Platform}.

Lemma logIn_received_unfold (u : User) (response : jsobj) (w : World) :
  let h1 := _migrateId u (prop response "objectId") (heap w) in
  let h2 := _setExisted u true h1 in
  let h3 := on_table (setPendingOp (identity u h2) "username" None) h2 in
  let h4 := on_table (setPendingOp (identity u h3) "password" None) h3 in
  let h5 := _finishFetch u (<["password" := JUndefined]> response) h4 in
  Src.logIn_received u response w = (with_heap h5 w, Return (canUseCurrentUser w)).
Proof. reflexivity. Qed.

Lemma signUp_saved_unfold (u : User) (w : World) :
  Src.signUp_saved u w
  = (with_heap (_finishFetch u {["password" := JUndefined]} (heap w)) w,
     Return (canUseCurrentUser w)).
Proof. reflexivity. Qed.

Lemma get_without_password (u : nat) (h : Heap) :
  confirmed u h !! "password" = None ->
  untouched "password" (pending u h) ->
  get u "password" h = JUndefined.
Proof. intros Hc Hp. apply estimate_absent; assumption. Qed.

(** C10, as amended: once the save of [signUp] has succeeded, and once
    [logIn] has received the server's response, the confirmed server data
    of the user holds no password, and it still holds none at the end of
    the callback, whether or not the user is then made the current user.
    [logIn] also leaves no operation on [username] or [password] in the
    newest pending set.  The user's estimated [password] is then absent
    whenever no pending set holds an operation on it: for [logIn], at the
    point where the response has been applied, whenever no set older than
    the newest does.  (Modelled on the object state store of the
    specification.) *)
Theorem password_leaves_confirmed_data (u : User) (w : World) :
  (no_confirmed_password u (Src.signUp_saved u w).1 /\
   let w' := (DefaultController.signUp_callback u w).1 in
   no_confirmed_password u w' /\
   (untouched "password" (pending u (heap w')) ->
    get u "password" (heap w') = JUndefined)) /\
  (forall response : jsobj,
     is_Some (objects (heap w) !! u) ->
     let w1 := (Src.logIn_received u response w).1 in
     let sets := pending u (heap w1) in
     no_confirmed_password u w1 /\
     (forall top, last sets = Some top ->
        top !! "username" = None /\ top !! "password" = None) /\
     (untouched "password" (take (length sets - 1) sets) ->
      get u "password" (heap w1) = JUndefined) /\
     let w' := (DefaultController.logIn_callback u response w).1 in
     no_confirmed_password u w' /\
     (untouched "password" (pending u (heap w')) ->
      get u "password" (heap w') = JUndefined)).
Proof.
  pose proof (currentUser_cache_hit (DefaultController.currentUser_at 1)) as Hit.
  assert (Hsaved : no_confirmed_password u (Src.signUp_saved u w).1).
  { rewrite signUp_saved_unfold. unfold no_confirmed_password. cbn [fst heap with_heap].
    apply confirmed_finishFetch; [discriminate | apply lookup_singleton_eq]. }
  split.
  - split; [exact Hsaved |].
    assert (Hend : no_confirmed_password u (DefaultController.signUp_callback u w).1).
    { unfold DefaultController.signUp_callback, Src.signUp_callback, run_sync.
      rewrite signUp_saved_unfold in *. cbn [fst] in Hsaved.
      destruct (canUseCurrentUser w).
      - apply setCurrentUser_keeps_password_out; [exact Hit | exact Hsaved].
      - exact Hsaved. }
    cbv zeta. split; [exact Hend |].
    intros Hp. apply get_without_password; assumption.
  - intros response Hlive.
    pose proof (logIn_received_unfold u response w) as Hun. cbv zeta in Hun.
    set (h1 := _migrateId u (prop response "objectId") (heap w)) in Hun.
    set (h2 := _setExisted u true h1) in Hun.
    set (h3 := on_table (setPendingOp (identity u h2) "username" None) h2) in Hun.
    set (h4 := on_table (setPendingOp (identity u h3) "password" None) h3) in Hun.
    set (h5 := _finishFetch u (<["password" := JUndefined]> response) h4) in Hun.
    assert (Hconf : confirmed u h5 !! "password" = None).
    { apply confirmed_finishFetch; [discriminate | apply lookup_insert_eq]. }
    assert (Hid4 : is_Some (id (object u h4))
                   \/ server_id (prop (<["password" := JUndefined]> response)
                                   "objectId") = None).
    { rewrite prop_insert_ne by discriminate.
      destruct (id_after_migrate u (prop response "objectId") (heap w) Hlive)
        as [Hs | Hn]; [left | right; exact Hn].
      destruct (object_setExisted u true h1) as [He _]. fold h2 in He.
      change (id (object u h4)) with (id (object u h2)).
      rewrite He. exact Hs. }
    assert (Hpend : pending u h5
              = alter (delete "password") (length (pending u h3) - 1)%nat
                  (alter (delete "username") (length (pending u h2) - 1)%nat
                     (pending u h2))).
    { subst h5. rewrite (pending_finishFetch u _ h4 Hid4).
      subst h4. rewrite pending_clear. subst h3. rewrite pending_clear.
      reflexivity. }
    assert (Htop : forall top, last (pending u h5) = Some top ->
              top !! "username" = None /\ top !! "password" = None).
    { intros top. rewrite Hpend.
      assert (Hlen : length (pending u h3) = length (pending u h2)).
      { subst h3. rewrite pending_clear. apply length_alter. }
      rewrite Hlen.
      replace (length (pending u h2) - 1)%nat
        with (length (alter (delete "username") (length (pending u h2) - 1)%nat
                        (pending u h2)) - 1)%nat at 1
        by (rewrite length_alter; reflexivity).
      rewrite !last_alter_top.
      destruct (last (pending u h2)) as [top0 |]; [| discriminate].
      cbn. intros [= <-]. split.
      - rewrite lookup_delete_ne by discriminate. apply lookup_delete_eq.
      - apply lookup_delete_eq. }
    rewrite Hun. cbn [fst heap with_heap]. cbv zeta.
    split; [exact Hconf |]. split; [exact Htop |]. split.
    + intros Hold. apply get_without_password; [exact Hconf |].
      unfold untouched in *.
      destruct (last (pending u h5)) as [top |] eqn:Hlast.
      * rewrite last_lookup, <- Nat.sub_1_r in Hlast.
        rewrite <- (take_drop_middle _ _ _ Hlast).
        apply Forall_app. split; [exact Hold |].
        constructor; [apply (Htop top eq_refl) |].
        rewrite drop_ge; [constructor |].
        destruct (pending u h5); cbn in *; [discriminate | lia].
      * apply last_None in Hlast. rewrite Hlast. constructor.
    + assert (Hend : no_confirmed_password u
                (DefaultController.logIn_callback u response w).1).
      { unfold DefaultController.logIn_callback, Src.logIn_callback, run_sync.
        rewrite Hun. destruct (canUseCurrentUser w); cbn [negb].
        - apply setCurrentUser_keeps_password_out; [exact Hit | exact Hconf].
        - exact Hconf. }
      split; [exact Hend |].
      intros Hp. apply get_without_password; assumption.
Qed.

End PasswordClaim.

(** C10, counterexample: a user whose save of [username] and [password]
    is still in flight logs in.  The callback of [logIn] clears the newest
    pending set and the confirmed data, but the operation on [password] of
    the set being saved stays: the user object still carries the
    password. *)
Lemma password_survives_logIn_during_save :
  length (ObjectState.pending 0 (heap Sample.saving)) = 2%nat /\
  ObjectState.get 0 "password" (heap Sample.saving) = JStr "secret" /\
  ObjectState.get 0 "password"
    (heap (DefaultController.logIn_callback 0%nat Sample.login_response
             Sample.saving).1)
  = JStr "secret".
Proof. vm_compute. repeat split. Qed.

Lemma password_leaves_confirmed_data_witness :
  is_Some (ObjectState.objects (heap Sample.logging_in) !! 0%nat) /\
  ObjectState.get 0 "password" (heap Sample.logging_in) = JStr "secret" /\
  ObjectState.get 0 "password"
    (heap (Src.logIn_received 0%nat Sample.login_response Sample.logging_in).1)
  = JUndefined.
Proof.
  assert (Hlive : is_Some (ObjectState.objects (heap Sample.logging_in) !! 0%nat))
    by (eexists; reflexivity).
  split; [exact Hlive |]. split; [vm_compute; reflexivity |].
  destruct (password_leaves_confirmed_data 0%nat Sample.logging_in) as [_ H].
  destruct (H Sample.login_response Hlive) as (_ & _ & Hget & _).
  apply Hget. vm_compute. constructor.
Defined.

(** * Further properties of the controller *)

(** ** Promises that wait for one request *)

Section Turns.

Context `{OL : ObjectLayer} `{PF : Platform}.

Lemma then_issue {R B} (req : Request R) (f : R -> Async B) (w : World) :
  exists k,
    then_ (issue req) f w = (log (Issued req) w, Await req k) /\
    forall w1,
      (forall v, k (inl v) w1 = f v w1) /\
      (forall e, k (inr e) w1 = (w1, Settled (Rejected e))).
Proof.
  eexists. split; [reflexivity |]. intros w1. split; reflexivity.
Qed.

Variable P : World -> Prop.
Variable Rel : World -> World -> Prop.
Hypothesis Rel_refl : forall w, Rel w w.
Hypothesis Rel_trans : forall a b c, Rel a b -> Rel b c -> Rel a c.
Hypothesis Rel_P : forall w w', P w -> Rel w w' -> P w'.

Lemma chain_respects {A B} (t : Task A) (f : A -> Async B) :
  later_turns P Rel t ->
  (forall a, async_respects P Rel (f a)) ->
  forall w, P w ->
    let '(w', t') := chain t f w in Rel w w' /\ later_turns P Rel t'.
Proof.
  intros Ht Hf. revert Ht.
  induction t as [o | R req k IH] using Task_induction; intros Ht w Hw.
  - destruct o as [a | e | e]; cbn.
    + apply Hf, Hw.
    + split; [apply Rel_refl | exact I].
    + split; [apply Rel_refl | exact I].
  - cbn. split; [apply Rel_refl |].
    intros r w1 Hw1. specialize (Ht r w1 Hw1). specialize (IH r w1).
    destruct (k r w1) as [w2 t2]. cbn in IH. destruct Ht as [Hr Htt].
    specialize (IH Htt w2 (Rel_P _ _ Hw1 Hr)).
    destruct (chain t2 f w2) as [w3 t3]. destruct IH as [Hr' Htt'].
    split; [eapply Rel_trans; eassumption | exact Htt'].
Qed.

Lemma then_respects {A B} (p : Async A) (f : A -> Async B) :
  async_respects P Rel p -> (forall a, async_respects P Rel (f a)) ->
  async_respects P Rel (then_ p f).
Proof.
  intros Hp Hf w Hw. unfold then_. specialize (Hp w Hw).
  destruct (p w) as [w1 t]. destruct Hp as [Hr Htt].
  pose proof (chain_respects t f Htt Hf w1 (Rel_P _ _ Hw Hr)) as Hc.
  destruct (chain t f w1) as [w2 t2]. destruct Hc as [Hr' Htt'].
  split; [eapply Rel_trans; eassumption | exact Htt'].
Qed.

Lemma run_sync_respects {A B} (c : Sync A) (f : A -> Async B) :
  respects P Rel false c ->
  (forall a, async_respects P Rel (f a)) -> async_respects P Rel (run_sync c f).
Proof.
  intros Hc Hf w Hw. unfold run_sync. destruct (Hc w Hw) as [Hr _].
  destruct (c w) as [w1 [a | e]]; cbn in Hr.
  - specialize (Hf a w1 (Rel_P _ _ Hw Hr)).
    destruct (f a w1) as [w2 t]. destruct Hf as [Hr' Htt].
    split; [eapply Rel_trans; eassumption | exact Htt].
  - split; [exact Hr | exact I].
Qed.

Lemma as_respects {A} (a : A) : async_respects P Rel (as_ a).
Proof. intros w _. split; [apply Rel_refl | exact I]. Qed.

Lemma error_respects {A} (e : Error) : async_respects P Rel (@error_ _ A e).
Proof. intros w _. split; [apply Rel_refl | exact I]. Qed.

Lemma issue_respects {R} (req : Request R) :
  (forall w, P w -> Rel w (log (Issued req) w)) ->
  async_respects P Rel (issue req).
Proof.
  intros Hlog w Hw. split; [apply Hlog, Hw |].
  intros r w1 _. split; [apply Rel_refl | exact I].
Qed.

End Turns.


(** ** What the entity-layer steps of the callbacks leave alone *)

Section Callbacks.

Context `{OL : ObjectLayer} `{PF : Platform}.

Lemma quiet_with_heap (w : World) (h : Heap) : quiet w (with_heap h w).
Proof.
  repeat split. exists []. split; [symmetry; apply app_nil_r | constructor].
Qed.

Lemma quiet_event (w : World) (e : Event) :
  store_access e = false -> cache_event e = false -> quiet w (log e w).
Proof.
  intros Hs Hc. repeat split. exists [e]. split; [reflexivity |].
  constructor; [split; assumption | constructor].
Qed.

Lemma quiet_disabled (w w' : World) : disabled w -> quiet w w' -> disabled w'.
Proof. intros Hd (Hcan & _). unfold disabled. rewrite Hcan. exact Hd. Qed.

Lemma signUp_saved_heap (user : User) (w : World) :
  exists h,
    Src.signUp_saved user w = (with_heap h w, Return (canUseCurrentUser w)).
Proof. eexists. reflexivity. Qed.

Lemma logIn_received_heap (user : User) (response : jsobj) (w : World) :
  exists h,
    Src.logIn_received user response w
    = (with_heap h w, Return (canUseCurrentUser w)).
Proof.
  unfold Src.logIn_received, Src._finishFetch, bind, write, read.
  cbn. eexists. reflexivity.
Qed.

Lemma super_save_unfold (this : User) (attrs : jsval) (options : jsobj)
    (w : World) :
  Src.super_save this attrs options w
  = issue (ObjectSave this attrs options)
      (with_heap (ParseObject_save_begin this attrs options (heap w)) w).
Proof. reflexivity. Qed.

End Callbacks.

(** ** The controller while the current user is disabled *)

Section Disabled.

Context `{OL : ObjectLayer} `{PF : Platform}.

Variable ctl : Sync (option User).

Lemma current_disabled (w : World) :
  disabled w -> Src.ParseUser_current ctl w = (w, Return None).
Proof.
  intros Hd. unfold Src.ParseUser_current, bind, read. rewrite Hd. reflexivity.
Qed.

Lemma isCurrent_disabled (this : User) (w : World) :
  disabled w -> Src.isCurrent ctl this w = (w, Return false).
Proof.
  intros Hd. unfold Src.isCurrent, bind. rewrite (current_disabled w Hd).
  reflexivity.
Qed.

Local Ltac by_then :=
  apply (then_respects disabled quiet quiet_refl quiet_trans quiet_disabled).
Local Ltac by_run :=
  apply (run_sync_respects disabled quiet quiet_trans quiet_disabled).
Local Ltac by_issue :=
  apply (issue_respects disabled quiet quiet_refl);
  intros ? _; apply quiet_event; reflexivity.
Local Ltac settled :=
  first [ apply (as_respects disabled quiet quiet_refl)
        | apply (error_respects disabled quiet quiet_refl) ].
Local Ltac reads :=
  repeat first
    [ apply (respects_ret disabled quiet quiet_refl)
    | apply (respects_read disabled quiet quiet_refl)
    | apply (respects_bind disabled quiet quiet_trans quiet_disabled);
      [| intros ? ] ].

Lemma save_disabled (this : User) (attrs : jsval) (options : jsobj) :
  async_respects disabled quiet (Src.save ctl this attrs options).
Proof.
  unfold Src.save. by_then.
  - unfold Src.super_save. by_run; [| intros _; by_issue].
    apply (respects_write disabled quiet). intros w _. apply quiet_with_heap.
  - intros _ w Hw. unfold run_sync. rewrite (isCurrent_disabled this w Hw).
    split; [apply quiet_refl | exact I].
Qed.

Lemma signUp_callback_disabled (user : User) :
  async_respects disabled quiet (Src.signUp_callback ctl user).
Proof.
  intros w Hw. unfold Src.signUp_callback, run_sync.
  destruct (signUp_saved_heap user w) as [h ->]. rewrite Hw.
  split; [apply quiet_with_heap | exact I].
Qed.

Lemma signUp_disabled (user : User) (attrs : jsval) (options : jsobj) :
  async_respects disabled quiet (Src.signUp ctl user attrs options).
Proof.
  unfold Src.signUp. by_run; [unfold Src.get; reads |].
  intros [username password].
  destruct (Src.empty_credential username); [settled |].
  destruct (Src.empty_credential password); [settled |].
  by_then; [apply save_disabled | intros _; apply signUp_callback_disabled].
Qed.

Lemma logIn_callback_disabled (user : User) (response : jsobj) :
  async_respects disabled quiet (Src.logIn_callback ctl user response).
Proof.
  intros w Hw. unfold Src.logIn_callback, run_sync.
  destruct (logIn_received_heap user response w) as [h ->]. rewrite Hw.
  split; [apply quiet_with_heap | exact I].
Qed.

Lemma logIn_disabled (user : User) (options : jsobj) :
  async_respects disabled quiet (Src.logIn ctl user options).
Proof.
  unfold Src.logIn. by_run; [unfold Src.get; reads |].
  intros auth. by_then; [unfold Src.RESTController_request; by_issue |].
  apply logIn_callback_disabled.
Qed.

Lemma linkWith_disabled (user : User) (authData : jsval) :
  async_respects disabled quiet (Src.linkWith ctl user authData).
Proof.
  unfold Src.linkWith. by_then; [apply save_disabled |].
  intros _ w Hw. unfold run_sync, read. rewrite Hw.
  split; [apply quiet_refl | exact I].
Qed.

Lemma upgradeToRevocableSession_disabled
    (session : jsobj -> Heap -> jsval * Heap) (user : User) (options : jsobj) :
  async_respects disabled quiet (Src.upgradeToRevocableSession ctl session user options).
Proof.
  unfold Src.upgradeToRevocableSession. by_run.
  { unfold Src.getSessionToken, Src.get. reads. }
  intros token. destruct (negb (truthy token)); [settled |].
  by_then; [unfold Src.RESTController_request; by_issue |].
  intros result w Hw.
  unfold Src.upgradeToRevocableSession_callback, run_sync.
  unfold bind at 1. destruct (session result (heap w)) as [token' h].
  unfold bind at 1. unfold Src._finishFetch at 1, write.
  rewrite isCurrent_disabled by exact Hw.
  split; [| exact I].
  eapply quiet_trans; apply quiet_with_heap.
Qed.

Lemma requestPasswordReset_disabled (email : jsval) (options : jsobj) :
  async_respects disabled quiet (Src.requestPasswordReset email options).
Proof.
  unfold Src.requestPasswordReset, Src.RESTController_request. by_issue.
Qed.

End Disabled.


Section DisabledController.

Context `{OL : ObjectLayer} `{PF : Platform}.

(** X1: while the current user is disabled (a server process), [signUp],
    [logIn], [save], [linkWith], [upgradeToRevocableSession] and
    [requestPasswordReset] of the controller leave the current identity
    alone: in the turn of the call and in every later turn resumed with the
    current user still disabled, whatever the server answers, the cache,
    [cacheMatchesDisk], the registered providers and the store are
    unchanged, and what is logged is neither a store access nor a cache
    update. *)
Theorem disabled_controller_leaves_current_user_alone
    (session : jsobj -> Heap -> jsval * Heap)
    (user : User) (attrs authData email : jsval) (options : jsobj)
    (w : World) :
  disabled w ->
  (let '(w', t) := DefaultController.signUp user attrs options w in
   quiet w w' /\ later_turns disabled quiet t) /\
  (let '(w', t) := DefaultController.logIn user options w in
   quiet w w' /\ later_turns disabled quiet t) /\
  (let '(w', t) := DefaultController.save user attrs options w in
   quiet w w' /\ later_turns disabled quiet t) /\
  (let '(w', t) := DefaultController.linkWith user authData w in
   quiet w w' /\ later_turns disabled quiet t) /\
  (let '(w', t) :=
     DefaultController.upgradeToRevocableSession session user options w in
   quiet w w' /\ later_turns disabled quiet t) /\
  (let '(w', t) := DefaultController.requestPasswordReset email options w in
   quiet w w' /\ later_turns disabled quiet t).
Proof.
  intros Hd. split; [| split; [| split; [| split; [| split]]]].
  - apply (signUp_disabled DefaultController.currentUser user attrs options w Hd).
  - apply (logIn_disabled DefaultController.currentUser user options w Hd).
  - apply (save_disabled DefaultController.currentUser user attrs options w Hd).
  - apply (linkWith_disabled DefaultController.currentUser user authData w Hd).
  - apply (upgradeToRevocableSession_disabled DefaultController.currentUser session user options w Hd).
  - apply (requestPasswordReset_disabled email options w Hd).
Qed.

End DisabledController.

Lemma disabled_controller_leaves_current_user_alone_witness :
  disabled Sample.server /\
  quiet Sample.server
    (DefaultController.logIn (0%nat : User) ∅ Sample.server).1.
Proof.
  split; [reflexivity |].
  destruct (disabled_controller_leaves_current_user_alone
              (OL := ObjectState.layer) (PF := Sample.platform)
              (fun _ h => (JUndefined, h)) 0%nat JUndefined JUndefined
              JUndefined ∅ Sample.server eq_refl) as (_ & H & _).
  destruct (DefaultController.logIn (OL := ObjectState.layer)
              (PF := Sample.platform) 0%nat ∅ Sample.server) as [w' t].
  exact (proj1 H).
Defined.


(** ** Writing the snapshot *)

Section Settling.

Context `{OL : ObjectLayer} `{PF : Platform}.

Lemma updateUserOnDisk_settles (user : User) (w : World) :
  exists promise,
    Src.updateUserOnDisk user w
    = (log (Issued (snapshot_write user (heap w))) w, promise) /\
    settles_with (snapshot_write user (heap w)) (fun _ => user) promise.
Proof.
  eexists. split; [reflexivity |]. eexists. split; [reflexivity |].
  intros w1. split; [intros [] | intros e]; reflexivity.
Qed.

Variable ctl : Sync (option User).
Hypothesis ctl_hit : cache_hit ctl.

(** [setCurrentUser] leaves [user] in the cache and returns the promise of
    the snapshot write, unless the provider synchronisation throws. *)
Lemma setCurrentUser_outcome (user : User) (w : World) :
  exists w' promise,
    Src.setCurrentUser ctl user w = (w', promise) /\
    _currentUserCache w' = Some user /\
    canUseCurrentUser w' = canUseCurrentUser w /\
    ((last (trace w') = Some (Issued (snapshot_write user (heap w'))) /\
      settles_with (snapshot_write user (heap w')) (fun _ => user) promise) \/
     (exists e, promise = Settled (Crashed e))) /\
    (Src.keys_in (ParseObject_get user "authData" (heap w)) = [] ->
     settles_with (snapshot_write user (heap w')) (fun _ => user) promise).
Proof.
  destruct (setCurrentUser_sync ctl user w ctl_hit)
    as (w1 & evs & Hq & Ht & Hf & Hres & Hnone).
  destruct Hq as (Hcan & _ & Hc & _).
  destruct (updateUserOnDisk_settles user w1) as (promise & Hupd & Hset).
  assert (Hwritten :
    Src.setCurrentUser ctl user w = Src.updateUserOnDisk user w1 ->
    exists w' promise,
      Src.setCurrentUser ctl user w = (w', promise) /\
      _currentUserCache w' = Some user /\
      canUseCurrentUser w' = canUseCurrentUser w /\
      last (trace w') = Some (Issued (snapshot_write user (heap w'))) /\
      settles_with (snapshot_write user (heap w')) (fun _ => user) promise).
  { intros Heq. rewrite Heq, Hupd. eexists _, _. split; [reflexivity |].
    split; [exact Hc |]. split; [exact Hcan |].
    split; [cbn; apply last_snoc | exact Hset]. }
  destruct Hres as [Heq | [e Heq]].
  - destruct (Hwritten Heq) as (w' & p & H1 & H2 & H3 & H4 & H5).
    exists w', p. split; [exact H1 |]. split; [exact H2 |]. split; [exact H3 |].
    split; [left; split; assumption | intros _; exact H5].
  - exists w1, (Settled (Crashed e)). split; [exact Heq |].
    split; [exact Hc |]. split; [exact Hcan |].
    split; [right; eexists; reflexivity |].
    intros Hps. specialize (Hnone Hps). rewrite Hnone, Hupd in Heq.
    destruct Hset as (k & -> & _). discriminate Heq.
Qed.

End Settling.

Section WriteOutcome.

Context `{OL : ObjectLayer} `{PF : Platform}.

(** X2: [setCurrentUser(user)] returns with [user] in the cache and, unless
    the provider synchronisation throws (which it cannot do when the
    [authData] of the user has no entry), the last thing it has done is to
    send the snapshot of the user, tagged [_User], to the store; its
    promise then waits for that write alone: it is fulfilled with the user
    when the store acknowledges and rejected with the store's error when
    the store fails, and in neither case is anything else done, so a
    failed write does not take the user out of the cache. *)
Theorem setCurrentUser_follows_the_write (user : User) (w : World) :
  exists w' promise,
    DefaultController.setCurrentUser user w = (w', promise) /\
    _currentUserCache w' = Some user /\
    ((last (trace w') = Some (Issued (snapshot_write user (heap w'))) /\
      settles_with (snapshot_write user (heap w')) (fun _ => user) promise) \/
     (exists e, promise = Settled (Crashed e))) /\
    (Src.keys_in (ParseObject_get user "authData" (heap w)) = [] ->
     settles_with (snapshot_write user (heap w')) (fun _ => user) promise).
Proof.
  destruct (setCurrentUser_outcome DefaultController.currentUser
              (currentUser_cache_hit _) user w)
    as (w' & promise & Heq & Hc & _ & Hor & Hnone).
  exists w', promise. repeat split; assumption.
Qed.

End WriteOutcome.


Lemma setCurrentUser_follows_the_write_witness :
  Src.keys_in (ParseObject_get (0%nat : User) "authData" (heap Sample.signed_out))
  = [] /\
  exists w' promise,
    DefaultController.setCurrentUser (0%nat : User) Sample.signed_out
    = (w', promise) /\
    _currentUserCache w' = Some 0%nat /\
    settles_with (snapshot_write (0%nat : User) (heap w')) (fun _ => 0%nat)
      promise.
Proof.
  split; [reflexivity |].
  destruct (setCurrentUser_follows_the_write (OL := ObjectState.layer)
              (PF := Sample.platform) 0%nat Sample.signed_out)
    as (w' & promise & Heq & Hc & _ & Hnone).
  exists w', promise. split; [exact Heq |]. split; [exact Hc |].
  exact (Hnone eq_refl).
Defined.

(** ** Logging in and becoming a user *)

Section LogIn.

Context `{OL : ObjectLayer} `{PF : Platform}.

(** X3: [logIn(user, options)] sends one request, [GET login] with the
    username and the password read from the user, and waits for it.  When
    the request fails the promise is rejected with its error and nothing
    is changed.  When it succeeds while the current user is disabled, the
    promise is fulfilled with the user and only the entity layer has
    changed.  When it succeeds otherwise, the user is in the cache as soon
    as the callback has run, before the snapshot write settles, and
    [ParseUser.current()] returns it. *)
Theorem logIn_outcome (user : User) (options : jsobj) (w : World) :
  let login :=
    RESTRequest "GET" "login"
      {[ "username" := ParseObject_get user "username" (heap w);
         "password" := ParseObject_get user "password" (heap w) ]} options in
  exists k,
    DefaultController.logIn user options w
    = (log (Issued login) w, Await login k) /\
    forall w1,
      (forall e, k (inr e) w1 = (w1, Settled (Rejected e))) /\
      (forall response, canUseCurrentUser w1 = false ->
         exists h,
           k (inl response) w1 = (with_heap h w1, Settled (Fulfilled user))) /\
      (forall response, canUseCurrentUser w1 = true ->
         exists w2 promise,
           k (inl response) w1 = (w2, promise) /\
           _currentUserCache w2 = Some user /\
           ParseUser.current w2 = (w2, Return (Some user)) /\
           ((last (trace w2) = Some (Issued (snapshot_write user (heap w2))) /\
             settles_with (snapshot_write user (heap w2)) (fun _ => user)
               promise) \/
            (exists e, promise = Settled (Crashed e)))).
Proof.
  intros login.
  destruct (then_issue login (DefaultController.logIn_callback user) w)
    as (k & Heq & Hk).
  exists k. split; [exact Heq |].
  intros w1. destruct (Hk w1) as [Hful Hrej]. split; [exact Hrej |].
  split; intros response Hcan; rewrite Hful;
    unfold DefaultController.logIn_callback, Src.logIn_callback, run_sync;
    destruct (logIn_received_heap user response w1) as [h ->]; rewrite Hcan; cbn.
  - exists h. reflexivity.
  - destruct (setCurrentUser_outcome DefaultController.currentUser
                (currentUser_cache_hit _) user (with_heap h w1))
      as (w2 & promise & Hset & Hc & Hcan2 & Hor & _).
    exists w2, promise. split; [exact Hset |]. split; [exact Hc |].
    split; [| exact Hor].
    unfold ParseUser.current, Src.ParseUser_current, bind, read.
    rewrite Hcan2. cbn. rewrite Hcan. cbn.
    apply currentUser_hit, Hc.
Qed.

(** X4: [become(options)] makes a new user and sends one request,
    [GET users/me] with no body.  When the request fails the promise is
    rejected with its error and nothing more is done: the cache is as it
    was.  When it succeeds, the new user is in the cache as soon as the
    callback has run, before the snapshot write settles, and the
    controller's read returns it. *)
Theorem become_outcome (options : jsobj) (w : World) :
  let user := (ParseObject_new (heap w)).1 in
  let me := RESTRequest "GET" "users/me" ∅ options in
  exists k,
    DefaultController.become options w
    = (log (Issued me) (with_heap (ParseObject_new (heap w)).2 w),
       Await me k) /\
    forall w1,
      (forall e, k (inr e) w1 = (w1, Settled (Rejected e))) /\
      (forall response,
         exists w2 promise,
           k (inl response) w1 = (w2, promise) /\
           _currentUserCache w2 = Some user /\
           DefaultController.currentUser w2 = (w2, Return (Some user)) /\
           ((last (trace w2) = Some (Issued (snapshot_write user (heap w2))) /\
             settles_with (snapshot_write user (heap w2)) (fun _ => user)
               promise) \/
            (exists e, promise = Settled (Crashed e)))).
Proof.
  intros user me.
  unfold DefaultController.become, Src.become, run_sync. subst user.
  destruct (ParseObject_new (heap w)) as [user h0]. cbn [fst snd].
  match goal with
  | |- context [then_ ?p ?f] =>
      destruct (then_issue me f (with_heap h0 w)) as (k & Heq & Hk)
  end.
  exists k. split; [exact Heq |].
  intros w1. destruct (Hk w1) as [Hful Hrej]. split; [exact Hrej |].
  intros response. rewrite Hful. unfold run_sync, bind, Src._finishFetch, write.
  cbn.
  match goal with
  | |- context [Src.setCurrentUser _ user ?w0] =>
      destruct (setCurrentUser_outcome DefaultController.currentUser
                  (currentUser_cache_hit _) user w0)
        as (w2 & promise & Hset & Hc & _ & Hor & _)
  end.
  exists w2, promise. split; [exact Hset |]. split; [exact Hc |].
  split; [| exact Hor].
  apply currentUser_hit, Hc.
Qed.

End LogIn.


(** ** Saving, and who is current *)

Section Save.

Context `{OL : ObjectLayer} `{PF : Platform}.

(** X5: [save] starts the save of the entity layer and waits for it.  A
    failed save rejects the promise and nothing more is done.  After a
    successful save the user is asked whether it is current: if not, the
    promise is fulfilled with the user and the store is left alone; if so,
    the snapshot of the user is written to the store and the promise
    follows that write; if the question throws, no promise is returned
    from the callback. *)
Theorem save_persists_the_current_user (this : User) (attrs : jsval)
    (options : jsobj) (w : World) :
  let request := ObjectSave this attrs options in
  exists k,
    DefaultController.save this attrs options w
    = (log (Issued request)
         (with_heap (ParseObject_save_begin this attrs options (heap w)) w),
       Await request k) /\
    forall w1,
      (forall e, k (inr e) w1 = (w1, Settled (Rejected e))) /\
      (forall w2, ParseUser.isCurrent this w1 = (w2, Return false) ->
         k (inl tt) w1 = (w2, Settled (Fulfilled this))) /\
      (forall w2, ParseUser.isCurrent this w1 = (w2, Return true) ->
         exists promise,
           k (inl tt) w1
           = (log (Issued (snapshot_write this (heap w2))) w2, promise) /\
           settles_with (snapshot_write this (heap w2)) (fun _ => this)
             promise) /\
      (forall w2 e, ParseUser.isCurrent this w1 = (w2, Throw e) ->
         k (inl tt) w1 = (w2, Settled (Crashed e))).
Proof.
  intros request.
  unfold DefaultController.save, Src.save. unfold then_ at 1.
  rewrite super_save_unfold.
  match goal with
  | |- context [chain _ ?f] =>
      destruct (then_issue request f
                  (with_heap (ParseObject_save_begin this attrs options (heap w)) w))
        as (k & Heq & Hk)
  end.
  exists k. split; [exact Heq |].
  intros w1. destruct (Hk w1) as [Hful Hrej]. split; [exact Hrej |].
  unfold ParseUser.isCurrent.
  split; [| split]; intros w2; [| | intros e]; intros Hcur;
    rewrite Hful; unfold run_sync; rewrite Hcur.
  - reflexivity.
  - apply updateUserOnDisk_settles.
  - reflexivity.
Qed.

Lemma isCurrent_unfold (ctl : Sync (option User)) (this : User) (w : World) :
  Src.isCurrent ctl this w
  = (let '(w1, r) := Src.ParseUser_current ctl w in
     (w1, match r with
          | Return (Some current) =>
              Return (strict_eq (ParseObject_id current (heap w1))
                                (ParseObject_id this (heap w1)))
          | Return None => Return false
          | Throw e => Throw e
          end)).
Proof.
  unfold Src.isCurrent, bind.
  destruct (Src.ParseUser_current ctl w) as [w1 [[current |] | e]]; reflexivity.
Qed.

Lemma authenticated_unfold (ctl : Sync (option User)) (this : User) (w : World) :
  Src.authenticated ctl this w
  = (let '(w1, r) := Src.isCurrent ctl this w in
     (w1, match r with
          | Return is_current =>
              Return (truthy (ParseObject_get this "sessionToken" (heap w1))
                      && is_current)
          | Throw e => Throw e
          end)).
Proof.
  rewrite isCurrent_unfold. unfold Src.authenticated, bind.
  destruct (Src.ParseUser_current ctl w) as [w1 [[current |] | e]]; cbn;
    try reflexivity;
    destruct (truthy (ParseObject_get this "sessionToken" (heap w1)));
    reflexivity.
Qed.

(** X6: [isCurrent()] and [authenticated()] compare the [id] of the user
    with the [id] of the current user: a user is current when the two are
    identical, whichever object holds it, and authenticated when it is
    current and its session token is truthy.  [authenticated()] does to the
    world what [isCurrent()] does.  While the current user is disabled, and
    when the cache is known to be empty, no user is current or
    authenticated and nothing is touched. *)
Theorem authenticated_is_current_with_token (this : User) (w : World) :
  ParseUser.authenticated this w
  = (let '(w1, r) := ParseUser.isCurrent this w in
     (w1, match r with
          | Return is_current =>
              Return (truthy (ParseObject_get this "sessionToken" (heap w1))
                      && is_current)
          | Throw e => Throw e
          end)) /\
  (forall current,
     canUseCurrentUser w = true -> _currentUserCache w = Some current ->
     ParseUser.isCurrent this w
     = (w, Return (strict_eq (ParseObject_id current (heap w))
                             (ParseObject_id this (heap w))))) /\
  (canUseCurrentUser w = false \/
   (_currentUserCache w = None /\ currentUserCacheMatchesDisk w = true) ->
   ParseUser.isCurrent this w = (w, Return false)).
Proof.
  split; [| split].
  - apply authenticated_unfold.
  - intros current Hcan Hc. unfold ParseUser.isCurrent.
    rewrite isCurrent_unfold. unfold Src.ParseUser_current, bind, read.
    rewrite Hcan. cbn [negb].
    assert (Hhit : DefaultController.currentUser w = (w, Return (Some current)))
      by (apply currentUser_hit, Hc).
    rewrite Hhit. reflexivity.
  - intros [Hcan | [Hc Hm]].
    + apply isCurrent_disabled, Hcan.
    + unfold ParseUser.isCurrent.
      rewrite isCurrent_unfold. unfold Src.ParseUser_current, bind, read.
      destruct (canUseCurrentUser w); cbn [negb]; [| reflexivity].
      assert (Habsent : DefaultController.currentUser w = (w, Return None))
        by (apply currentUser_known_absent; assumption).
      rewrite Habsent. reflexivity.
Qed.

End Save.


(** ** Reading again *)

Section ReadingAgain.

Context `{OL : ObjectLayer} `{PF : Platform}.

(** X7: a stored entry that is not JSON makes the read that finds it throw
    a [SyntaxError] (the asynchronous read: its callback) and leaves the
    cache empty, but [cacheMatchesDisk] has been set before the text was
    parsed: the reads that follow return [null] without reading the store
    again. *)
Theorem unreadable_entry_reads_as_logged_out (text : string) (w : World) :
  _currentUserCache w = None ->
  currentUserCacheMatchesDisk w = false ->
  text <> "" ->
  JSON_parse text = None ->
  let path := Storage_generatePath CURRENT_USER_KEY in
  (storage_async w = false -> storage_items w !! path = Some text ->
   let w1 := with_cacheMatchesDisk true (log (StorageGetItem path) w) in
   DefaultController.currentUser w = (w1, Throw SyntaxError) /\
   DefaultController.currentUser w1 = (w1, Return None) /\
   DefaultController.currentUserAsync w1 = (w1, Settled (Fulfilled None))) /\
  (exists k,
     DefaultController.currentUserAsync w
     = (log (Issued (StorageGetItemAsync path)) w,
        Await (StorageGetItemAsync path) k) /\
     forall w1,
       let w2 := with_cacheMatchesDisk true w1 in
       k (inl (Some text)) w1 = (w2, Settled (Crashed SyntaxError)) /\
       (_currentUserCache w1 = None ->
        DefaultController.currentUser w2 = (w2, Return None) /\
        DefaultController.currentUserAsync w2 = (w2, Settled (Fulfilled None)))).
Proof.
  intros Hc Hm Htext Hparse path.
  assert (Hitem : Src.item_text (Some text) = Some text).
  { cbn. destruct (String.eqb_spec text ""); [contradiction | reflexivity]. }
  assert (Hrestore : forall ctl w0,
    Src.restore ctl (Some text) w0
    = (with_cacheMatchesDisk true w0, Throw SyntaxError)).
  { intros ctl w0. unfold Src.restore. rewrite Hitem.
    unfold bind at 1. cbn [write]. unfold bind.
    rewrite revive_not_json by exact Hparse. reflexivity. }
  split.
  - intros Ha Hstored w1.
    split; [| split].
    + unfold DefaultController.currentUser. cbn [DefaultController.currentUser_at].
      rewrite (currentUser_reads_store _ w Hc Hm Ha). fold path.
      rewrite Hstored. apply Hrestore.
    + apply currentUser_known_absent; [exact Hc | reflexivity].
    + apply currentUserAsync_known_absent; [exact Hc | reflexivity].
  - destruct (currentUserAsync_reads_store DefaultController.currentUser w Hc Hm)
      as (k & Heq & Hk).
    exists k. split; [exact Heq |].
    intros w1 w2. destruct (Hk w1) as [_ Hful]. split.
    + rewrite Hful. unfold run_sync. rewrite Hrestore. reflexivity.
    + intros Hc1.
      split; [apply currentUser_known_absent | apply currentUserAsync_known_absent];
        solve [exact Hc1 | reflexivity].
Qed.

(** X8: once the synchronous read has returned, with a user or with
    [null], reading again returns the same answer and leaves the world as
    it is: the store is not read a second time and nothing is
    dispatched. *)
Theorem repeated_read_is_stable (w w1 : World) (r : option User) :
  DefaultController.currentUser w = (w1, Return r) ->
  DefaultController.currentUser w1 = (w1, Return r) /\
  DefaultController.currentUserAsync w1 = (w1, Settled (Fulfilled r)).
Proof.
  intros Hread.
  assert (Hfinal : currentUserCacheMatchesDisk w1 = true /\ r = _currentUserCache w1
                   \/ exists u, r = Some u /\ _currentUserCache w1 = Some u).
  { destruct (_currentUserCache w) as [u |] eqn:Hc.
    { right. exists u.
      assert (Hhit : DefaultController.currentUser w = (w, Return (Some u)))
        by (apply currentUser_hit, Hc).
      rewrite Hhit in Hread. injection Hread as <- <-. split; [reflexivity | exact Hc]. }
    destruct (currentUserCacheMatchesDisk w) eqn:Hm.
    { left.
      assert (Habs : DefaultController.currentUser w = (w, Return None))
        by (apply currentUser_known_absent; assumption).
      rewrite Habs in Hread. injection Hread as <- <-.
      split; [exact Hm | symmetry; exact Hc]. }
    destruct (storage_async w) eqn:Ha.
    { destruct (currentUser_async_store (DefaultController.currentUser_at 1) w Hc Hm Ha)
        as [message Hthrow].
      change (Src.currentUser (DefaultController.currentUser_at 1))
        with (@DefaultController.currentUser OL PF) in Hthrow.
      rewrite Hthrow in Hread. discriminate Hread. }
    left.
    pose proof (currentUser_reads_store (DefaultController.currentUser_at 1) w Hc Hm Ha)
      as Hstore.
    change (Src.currentUser (DefaultController.currentUser_at 1))
      with (@DefaultController.currentUser OL PF) in Hstore.
    rewrite Hstore in Hread.
    destruct (restore_spec _ (currentUser_cache_hit (DefaultController.currentUser_at 0))
                (storage_items w !! Storage_generatePath CURRENT_USER_KEY)
                (log (StorageGetItem (Storage_generatePath CURRENT_USER_KEY)) w))
      as (w' & r' & evs & Heq & _ & _ & Hm' & _ & _ & Hr & _).
    change (Src.currentUser (DefaultController.currentUser_at 0))
      with (@DefaultController.currentUser_at OL PF 1) in Heq.
    rewrite Heq in Hread. injection Hread as -> ->.
    split; [exact Hm' |].
    destruct Hr as [Hr | [e He]]; [| discriminate He].
    injection Hr as ->. reflexivity. }
  destruct Hfinal as [[Hm1 ->] | (u & -> & Hu)].
  - destruct (_currentUserCache w1) as [u |] eqn:Hc1.
    + split; [apply currentUser_hit | apply currentUserAsync_hit]; exact Hc1.
    + split; [apply currentUser_known_absent | apply currentUserAsync_known_absent];
        assumption.
  - split; [apply currentUser_hit | apply currentUserAsync_hit]; exact Hu.
Qed.

(** X9: [_clearCache()] empties the cache through the dispatcher and
    clears [cacheMatchesDisk], whatever they were: the read that follows
    goes back to the store (the synchronous read throws, as always, when
    the store is asynchronous only). *)
Theorem clearCache_forces_a_new_read (w : World) :
  let path := Storage_generatePath CURRENT_USER_KEY in
  exists w1,
    ParseUser._clearCache w = (w1, Return tt) /\
    _currentUserCache w1 = None /\
    currentUserCacheMatchesDisk w1 = false /\
    trace w1 = trace w ++ [Dispatched (Actions_set None); CacheAssigned None] /\
    (storage_async w = false ->
     exists w2 r evs,
       DefaultController.currentUser w1 = (w2, r) /\
       trace w2 = trace w1 ++ StorageGetItem path :: evs /\
       Forall (fun e => store_access e = false) evs /\
       currentUserCacheMatchesDisk w2 = true /\
       stored_identity (storage_items w !! path) (heap w) (_currentUserCache w2)) /\
    (storage_async w = true ->
     exists message,
       DefaultController.currentUser w1 = (w1, Throw (JsError message))) /\
    (exists k,
       DefaultController.currentUserAsync w1
       = (log (Issued (StorageGetItemAsync path)) w1,
          Await (StorageGetItemAsync path) k)).
Proof.
  intros path.
  exists (with_cacheMatchesDisk false (after_cache_set None w)).
  set (w1 := with_cacheMatchesDisk false (after_cache_set None w)).
  split; [reflexivity |]. split; [reflexivity |]. split; [reflexivity |].
  split; [cbn; rewrite <- app_assoc; reflexivity |].
  split; [| split].
  - intros Ha.
    pose proof (currentUser_reads_store (DefaultController.currentUser_at 1) w1
                  eq_refl eq_refl Ha) as Hstore.
    change (Src.currentUser (DefaultController.currentUser_at 1))
      with (@DefaultController.currentUser OL PF) in Hstore.
    rewrite Hstore. fold path.
    destruct (restore_spec _ (currentUser_cache_hit (DefaultController.currentUser_at 0))
                (storage_items w1 !! path) (log (StorageGetItem path) w1))
      as (w2 & r & evs & Heq & Ht & Hf & Hm & _ & Hst & _).
    change (Src.currentUser (DefaultController.currentUser_at 0))
      with (@DefaultController.currentUser_at OL PF 1) in Heq.
    exists w2, r, evs. split; [exact Heq |].
    split; [rewrite Ht; cbn; rewrite <- !app_assoc; reflexivity |].
    split; [exact Hf |]. split; [exact Hm | exact Hst].
  - intros Ha.
    apply (currentUser_async_store (DefaultController.currentUser_at 1) w1);
      solve [reflexivity | exact Ha].
  - destruct (currentUserAsync_reads_store DefaultController.currentUser w1
                eq_refl eq_refl) as (k & Heq & _).
    exists k. exact Heq.
Qed.

(** X10: [disableUnsafeCurrentUser()] hides the cached user without
    clearing the cache and without telling the dispatcher:
    [ParseUser.current()] returns [null] while the user is still held, and
    after [enableUnsafeCurrentUser()] it returns that user again, the store
    not being read. *)
Theorem disabling_keeps_the_cached_user (w : World) (u : User) :
  _currentUserCache w = Some u ->
  let w1 := (ParseUser.disableUnsafeCurrentUser w).1 in
  let w2 := (ParseUser.enableUnsafeCurrentUser w1).1 in
  ParseUser.current w1 = (w1, Return None) /\
  _currentUserCache w1 = Some u /\
  ParseUser.current w2 = (w2, Return (Some u)) /\
  trace w2 = trace w.
Proof.
  intros Hc w1 w2. split; [reflexivity |]. split; [exact Hc |].
  split; [| reflexivity].
  unfold ParseUser.current, Src.ParseUser_current, bind, read. cbn [negb].
  change (canUseCurrentUser w2) with true. cbn [negb].
  apply currentUser_hit. exact Hc.
Qed.

End ReadingAgain.

Lemma unreadable_entry_reads_as_logged_out_witness :
  exists w1,
    DefaultController.currentUser Sample.garbled = (w1, Throw SyntaxError) /\
    DefaultController.currentUser w1 = (w1, Return None).
Proof.
  destruct (unreadable_entry_reads_as_logged_out (OL := ObjectState.layer)
              (PF := Sample.platform) Sample.garbled_text Sample.garbled
              eq_refl eq_refl) as [Hsync _].
  { discriminate. }
  { reflexivity. }
  destruct (Hsync eq_refl eq_refl) as (H1 & H2 & _).
  eexists. split; [exact H1 | exact H2].
Defined.

Lemma repeated_read_is_stable_witness :
  let w := ParseUser.loaded false Sample.no_objects false ∅ in
  let w1 := (DefaultController.currentUser w).1 in
  trace w1
  = [StorageGetItem Sample.path; Dispatched (Actions_set None);
     CacheAssigned None] /\
  DefaultController.currentUser w1 = (w1, Return None).
Proof.
  intros w w1. split; [reflexivity |].
  apply (repeated_read_is_stable (OL := ObjectState.layer)
           (PF := Sample.platform) w w1 None).
  reflexivity.
Defined.

Lemma disabling_keeps_the_cached_user_witness :
  _currentUserCache Sample.signed_in = Some 0%nat /\
  ParseUser.current
    (ParseUser.enableUnsafeCurrentUser
       (ParseUser.disableUnsafeCurrentUser Sample.signed_in).1).1
  = ((ParseUser.enableUnsafeCurrentUser
        (ParseUser.disableUnsafeCurrentUser Sample.signed_in).1).1,
     Return (Some 0%nat)).
Proof.
  split; [reflexivity |].
  apply (disabling_keeps_the_cached_user (OL := ObjectState.layer)
           (PF := Sample.platform) Sample.signed_in 0%nat eq_refl).
Defined.


(** ** Signing up *)

Section SignUp.

Context `{OL : ObjectLayer} `{PF : Platform}.

Lemma empty_credential_spec (v : jsval) :
  Src.empty_credential v = true <->
  match v with
  | JStr s => s = ""
  | JObj o => truthy (prop o "length") = false
  | _ => True
  end.
Proof.
  unfold Src.empty_credential.
  destruct v as [| | b | n | s | o]; cbn [negb];
    rewrite ?orb_true_r; try (split; trivial; fail).
  - cbn. destruct (String.eqb_spec s ""); cbn; split; congruence.
  - cbn. destruct (truthy (prop o "length")); cbn; split; congruence.
Qed.

(** X11: [signUp] takes the username and the password from [attrs] when
    [attrs] holds a truthy one and from the user otherwise.  A credential
    is empty unless it is a string that is not empty (or an object with a
    truthy [length]): missing, [null], the empty string, a number and a
    boolean are all empty.  With an empty username [signUp] returns a
    promise rejected with [OTHER_CAUSE], "Cannot sign up user with an
    empty name.", and with an empty password (the username being fine) one
    rejected with "Cannot sign up user with an empty password."; in both
    cases nothing is sent and nothing is changed.  Otherwise the save is
    started, and a failed save rejects the promise without anything more
    being done. *)
Theorem signUp_refuses_empty_credentials (user : User) (attrs : jsval)
    (options : jsobj) (w : World) :
  let username :=
    Src.attr_or attrs "username" (ParseObject_get user "username" (heap w)) in
  let password :=
    Src.attr_or attrs "password" (ParseObject_get user "password" (heap w)) in
  let request := ObjectSave user attrs options in
  (forall v, Src.empty_credential v = true <->
     match v with
     | JStr s => s = ""
     | JObj o => truthy (prop o "length") = false
     | _ => True
     end) /\
  (Src.empty_credential username = true ->
   DefaultController.signUp user attrs options w
   = (w, Settled (Rejected (ParseError OTHER_CAUSE
                              "Cannot sign up user with an empty name.")))) /\
  (Src.empty_credential username = false ->
   Src.empty_credential password = true ->
   DefaultController.signUp user attrs options w
   = (w, Settled (Rejected (ParseError OTHER_CAUSE
                              "Cannot sign up user with an empty password.")))) /\
  (Src.empty_credential username = false ->
   Src.empty_credential password = false ->
   exists k,
     DefaultController.signUp user attrs options w
     = (log (Issued request)
          (with_heap (ParseObject_save_begin user attrs options (heap w)) w),
        Await request k) /\
     forall w1 e, k (inr e) w1 = (w1, Settled (Rejected e))).
Proof.
  intros username password request.
  split; [exact empty_credential_spec |].
  unfold DefaultController.signUp, Src.signUp, run_sync, bind, Src.get, read.
  cbn [ret]. fold username password.
  split; [| split].
  - intros ->. reflexivity.
  - intros -> ->. reflexivity.
  - intros -> ->.
    unfold then_, Src.save, then_, Src.super_save, run_sync, write, issue.
    cbn [chain]. eexists. split; [reflexivity |].
    intros w1 e. reflexivity.
Qed.

End SignUp.

Lemma signUp_refuses_empty_credentials_witness :
  DefaultController.signUp (0%nat : User) JUndefined ∅ Sample.signed_out
  = (Sample.signed_out,
     Settled (Rejected (ParseError OTHER_CAUSE
                          "Cannot sign up user with an empty name."))).
Proof.
  apply (signUp_refuses_empty_credentials (OL := ObjectState.layer)
           (PF := Sample.platform) 0%nat JUndefined ∅ Sample.signed_out).
  vm_compute. reflexivity.
Defined.

(** ** The class name and the legacy fields, again *)

Section Normalize.

Lemma normalize_unfold (o : jsobj) :
  Src.normalize o
  = let o1 := if negb (truthy (prop o "className"))
              then <["className" := JStr "_User"]> o else o in
    let o2 := if truthy (prop o "_id")
              then delete "_id"
                     (if negb (strict_eq (prop o1 "objectId") (prop o "_id"))
                      then <["objectId" := prop o "_id"]> o1 else o1)
              else o1 in
    if truthy (prop o "_sessionToken")
    then delete "_sessionToken"
           (<["sessionToken" := prop o "_sessionToken"]> o2)
    else o2.
Proof.
  unfold Src.normalize.
  set (o1 := if negb (truthy (prop o "className"))
             then <["className" := JStr "_User"]> o else o).
  assert (H1 : forall k, k <> "className" -> prop o1 k = prop o k).
  { intros k Hk. unfold prop. subst o1.
    rewrite normalize_className_step by exact Hk. reflexivity. }
  rewrite (H1 "_id") by discriminate.
  cbv zeta.
  set (o2 := if truthy (prop o "_id") then _ else o1).
  assert (H2 : prop o2 "_sessionToken" = prop o "_sessionToken").
  { subst o2. destruct (truthy (prop o "_id")).
    - rewrite prop_delete_ne by discriminate.
      destruct (strict_eq (prop o1 "objectId") (prop o "_id")); cbn.
      + apply H1. discriminate.
      + rewrite prop_insert_ne by discriminate. apply H1. discriminate.
    - apply H1. discriminate. }
  rewrite H2. reflexivity.
Qed.

Lemma normalize_other_keys (o : jsobj) (k : string) :
  k ∉ ["className"; "_id"; "objectId"; "_sessionToken"; "sessionToken"] ->
  Src.normalize o !! k = o !! k.
Proof.
  intros Hk.
  apply not_elem_of_cons in Hk as [H1 Hk].
  apply not_elem_of_cons in Hk as [H2 Hk].
  apply not_elem_of_cons in Hk as [H3 Hk].
  apply not_elem_of_cons in Hk as [H4 Hk].
  apply not_elem_of_cons in Hk as [H5 _].
  rewrite normalize_unfold. cbv zeta.
  repeat match goal with
         | |- context [if ?c then _ else _] => destruct c
         end;
    repeat first [ rewrite lookup_delete_ne by congruence
                 | rewrite lookup_insert_ne by congruence ];
    reflexivity.
Qed.

Lemma normalize_className (o : jsobj) :
  prop (Src.normalize o) "className"
  = if truthy (prop o "className") then prop o "className" else JStr "_User".
Proof.
  rewrite normalize_unfold. cbv zeta.
  destruct (truthy (prop o "className")); cbn [negb];
    repeat match goal with
           | |- context [if ?c then _ else _] => destruct c
           end;
    repeat first [ rewrite prop_delete_ne by discriminate
                 | rewrite prop_insert_ne by discriminate ];
    first [ reflexivity | apply prop_insert_eq ].
Qed.

Lemma normalize_fixed (o : jsobj) :
  truthy (prop o "className") = true ->
  truthy (prop o "_id") = false ->
  truthy (prop o "_sessionToken") = false ->
  Src.normalize o = o.
Proof.
  intros H1 H2 H3. rewrite normalize_unfold. cbv zeta.
  rewrite H1, H2, H3. reflexivity.
Qed.

Lemma falsy_lookup (o o' : jsobj) (k : string) :
  o' !! k = o !! k -> truthy (prop o k) = false -> truthy (prop o' k) = false.
Proof. intros H. unfold prop. rewrite H. trivial. Qed.

(** X12: the normalisation of a loaded snapshot (lines 778-790) touches the
    class name and the two pairs of legacy and current field names and
    nothing else; the class name is kept when it is truthy and is [_User]
    otherwise; without a truthy legacy field [objectId] and [sessionToken]
    stay as they are; a snapshot with a class name and without truthy
    legacy fields is left exactly as it is; and normalising twice is
    normalising once. *)
Theorem normalize_touches_only_what_it_must (o : jsobj) :
  (forall k,
     k ∉ ["className"; "_id"; "objectId"; "_sessionToken"; "sessionToken"] ->
     Src.normalize o !! k = o !! k) /\
  prop (Src.normalize o) "className"
  = (if truthy (prop o "className") then prop o "className" else JStr "_User") /\
  (truthy (prop o "_id") = false ->
   Src.normalize o !! "objectId" = o !! "objectId") /\
  (truthy (prop o "_sessionToken") = false ->
   Src.normalize o !! "sessionToken" = o !! "sessionToken") /\
  (truthy (prop o "className") = true ->
   truthy (prop o "_id") = false ->
   truthy (prop o "_sessionToken") = false ->
   Src.normalize o = o) /\
  Src.normalize (Src.normalize o) = Src.normalize o.
Proof.
  split; [apply normalize_other_keys |].
  split; [apply normalize_className |].
  split; [| split; [| split; [apply normalize_fixed |]]].
  - intros Hid. rewrite normalize_unfold. cbv zeta. rewrite Hid.
    repeat match goal with
           | |- context [if ?c then _ else _] => destruct c
           end;
      repeat first [ rewrite lookup_delete_ne by discriminate
                   | rewrite lookup_insert_ne by discriminate ];
      reflexivity.
  - intros Hs. rewrite normalize_unfold. cbv zeta. rewrite Hs.
    repeat match goal with
           | |- context [if ?c then _ else _] => destruct c
           end;
      repeat first [ rewrite lookup_delete_ne by discriminate
                   | rewrite lookup_insert_ne by discriminate ];
      reflexivity.
  - apply normalize_fixed.
    + rewrite normalize_className.
      destruct (truthy (prop o "className")) eqn:E; [exact E | reflexivity].
    + destruct (truthy (prop o "_id")) eqn:E.
      * destruct (normalize_id o E) as [Hgone _].
        unfold prop. rewrite Hgone. reflexivity.
      * eapply falsy_lookup; [apply normalize_falsy_id, E | exact E].
    + destruct (truthy (prop o "_sessionToken")) eqn:E.
      * destruct (normalize_sessionToken o E) as [Hgone _].
        unfold prop. rewrite Hgone. reflexivity.
      * eapply falsy_lookup; [apply normalize_falsy_sessionToken, E | exact E].
Qed.

End Normalize.


(** ** Upgrading to a revocable session *)

Section Upgrade.

Context `{OL : ObjectLayer} `{PF : Platform}.

Variable session : jsobj -> Heap -> jsval * Heap.

(** X13: [upgradeToRevocableSession] of a user without a truthy session
    token returns a promise rejected with [SESSION_MISSING] and sends
    nothing.  Otherwise it sends one request,
    [POST upgradeToRevocableSession], whose [sessionToken] option is the
    token of the user whatever the caller's options held; a failed request
    rejects the promise and changes nothing; on success the user takes the
    token of the session the server returned and, when it is the current
    user, is made the current user again, which rewrites the snapshot. *)
Theorem upgradeToRevocableSession_outcome (user : User) (options : jsobj)
    (w : World) :
  let token := ParseObject_get user "sessionToken" (heap w) in
  let upgrade :=
    RESTRequest "POST" "upgradeToRevocableSession" ∅
      (<["sessionToken" := token]> options) in
  (truthy token = false ->
   DefaultController.upgradeToRevocableSession session user options w
   = (w, Settled (Rejected (ParseError SESSION_MISSING
                              "Cannot upgrade a user with no session token")))) /\
  (truthy token = true ->
   exists k,
     DefaultController.upgradeToRevocableSession session user options w
     = (log (Issued upgrade) w, Await upgrade k) /\
     forall w1,
       (forall e, k (inr e) w1 = (w1, Settled (Rejected e))) /\
       (forall result,
          let w2 :=
            with_heap
              (ParseObject_finishFetch user
                 {[ "sessionToken" := (session result (heap w1)).1 ]}
                 (session result (heap w1)).2) w1 in
          (forall w3, ParseUser.isCurrent user w2 = (w3, Return false) ->
             k (inl result) w1 = (w3, Settled (Fulfilled user))) /\
          (forall w3, ParseUser.isCurrent user w2 = (w3, Return true) ->
             k (inl result) w1 = DefaultController.setCurrentUser user w3))).
Proof.
  intros token upgrade.
  unfold DefaultController.upgradeToRevocableSession,
    Src.upgradeToRevocableSession, run_sync, Src.getSessionToken, Src.get, read.
  fold token.
  split.
  - intros ->. reflexivity.
  - intros ->. cbn [negb]. fold upgrade.
    match goal with
    | |- context [then_ _ ?f] =>
        destruct (then_issue upgrade f w) as (k & Heq & Hk)
    end.
    exists k. split; [exact Heq |].
    intros w1. destruct (Hk w1) as [Hful Hrej]. split; [exact Hrej |].
    intros result.
    match goal with
    | |- context [ParseUser.isCurrent user ?x] => set (w2 := x)
    end.
    assert (Hcb : forall r w3,
      ParseUser.isCurrent user w2 = (w3, r) ->
      k (inl result) w1
      = match r with
        | Return true => DefaultController.setCurrentUser user w3
        | Return false => (w3, Settled (Fulfilled user))
        | Throw e => (w3, Settled (Crashed e))
        end).
    { intros r w3 Hcur. rewrite Hful.
      unfold Src.upgradeToRevocableSession_callback, run_sync.
      unfold bind at 1. subst w2.
      destruct (session result (heap w1)) as [token' h]. cbn [fst snd] in Hcur.
      unfold bind at 1. unfold Src._finishFetch at 1, write.
      unfold ParseUser.isCurrent in Hcur.
      match goal with
      | |- context [Src.isCurrent _ user ?x] =>
          change x
            with (with_heap
                    (ParseObject_finishFetch user
                       {["sessionToken" := token']} h) w1)
      end.
      rewrite Hcur.
      destruct r as [[|] | e]; reflexivity. }
    split; intros w3 Hcur; apply (Hcb _ _ Hcur).
Qed.

End Upgrade.

Lemma upgradeToRevocableSession_outcome_witness :
  DefaultController.upgradeToRevocableSession (fun _ h => (JUndefined, h))
    (0%nat : User) ∅ Sample.logging_in
  = (Sample.logging_in,
     Settled (Rejected (ParseError SESSION_MISSING
                          "Cannot upgrade a user with no session token"))).
Proof.
  apply (upgradeToRevocableSession_outcome (OL := ObjectState.layer)
           (PF := Sample.platform) (fun _ h => (JUndefined, h))
           0%nat ∅ Sample.logging_in).
  vm_compute. reflexivity.
Defined.

(** ** Registering an authentication provider *)

Section Register.

Context `{OL : ObjectLayer} `{PF : Platform}.



End Register.



(** ** The dispatcher sees every change of the cache, whatever the operation *)

Section TrackedOperations.

Context `{OL : ObjectLayer} `{PF : Platform}.

Variable ctl : Sync (option User).
Hypothesis ctl_tracked : respects (fun _ => True) tracked false ctl.

Local Ltac sync_step :=
  first
    [ apply (respects_ret (fun _ => True) tracked tracked_refl)
    | apply (respects_read (fun _ => True) tracked tracked_refl)
    | apply (respects_write (fun _ => True) tracked); intros ? _;
      apply tracked_heap
    | apply (respects_bind (fun _ => True) tracked tracked_trans
               (fun w w' _ _ => I)); [| intros ? ] ].

Lemma isCurrent_tracked (this : User) :
  respects (fun _ => True) tracked false (Src.isCurrent ctl this).
Proof.
  apply isCurrent_respects with (total := false);
    first [ exact tracked_refl | exact tracked_trans
          | exact (fun (w w' : World) (_ : True) (_ : tracked w w') => I)
          | exact ctl_tracked ].
Qed.

Lemma authenticated_tracked (this : User) :
  respects (fun _ => True) tracked false (Src.authenticated ctl this).
Proof.
  intros w _. rewrite authenticated_unfold.
  destruct (isCurrent_tracked this w I) as [Htr _].
  destruct (Src.isCurrent ctl this w) as [w1 [b | e]]; cbn in *;
    (split; [exact Htr | discriminate]).
Qed.

Lemma error_tracked {A} (e : Error) : async_tracked (@error_ _ A e).
Proof. intros w. split; [apply tracked_refl | exact I]. Qed.

Lemma save_tracked (this : User) (attrs : jsval) (options : jsobj) :
  async_tracked (Src.save ctl this attrs options).
Proof.
  unfold Src.save. apply then_tracked.
  - unfold Src.super_save. apply run_sync_tracked; [sync_step |].
    intros _. apply issue_tracked.
  - intros _. apply run_sync_tracked; [apply isCurrent_tracked |].
    intros [|]; [apply updateUserOnDisk_tracked | apply as_tracked].
Qed.

Lemma signUp_tracked (user : User) (attrs : jsval) (options : jsobj) :
  async_tracked (Src.signUp ctl user attrs options).
Proof.
  unfold Src.signUp. apply run_sync_tracked.
  { unfold Src.get. repeat sync_step. }
  intros [username password].
  destruct (Src.empty_credential username); [apply error_tracked |].
  destruct (Src.empty_credential password); [apply error_tracked |].
  apply then_tracked; [apply save_tracked |].
  intros _. unfold Src.signUp_callback. apply run_sync_tracked.
  { unfold Src.signUp_saved, Src._finishFetch. repeat sync_step. }
  intros [|]; [apply setCurrentUser_tracked, ctl_tracked | apply as_tracked].
Qed.

Lemma logIn_tracked (user : User) (options : jsobj) :
  async_tracked (Src.logIn ctl user options).
Proof.
  unfold Src.logIn. apply run_sync_tracked.
  { unfold Src.get. repeat sync_step. }
  intros auth. apply then_tracked; [apply issue_tracked |].
  intros response. unfold Src.logIn_callback. apply run_sync_tracked.
  { unfold Src.logIn_received, Src._finishFetch. repeat sync_step. }
  intros [|]; [apply setCurrentUser_tracked, ctl_tracked | apply as_tracked].
Qed.

Lemma become_tracked (options : jsobj) : async_tracked (Src.become ctl options).
Proof.
  unfold Src.become. apply run_sync_tracked.
  { intros w _. destruct (ParseObject_new (heap w)) as [user h]. cbn.
    split; [apply tracked_heap | discriminate]. }
  intros user. apply then_tracked; [apply issue_tracked |].
  intros response. apply run_sync_tracked.
  { unfold Src._finishFetch. repeat sync_step. }
  intros _. apply setCurrentUser_tracked, ctl_tracked.
Qed.

Lemma linkWith_tracked (user : User) (authData : jsval) :
  async_tracked (Src.linkWith ctl user authData).
Proof.
  unfold Src.linkWith. apply then_tracked; [apply save_tracked |].
  intros _. apply run_sync_tracked; [sync_step |].
  intros [|]; [apply setCurrentUser_tracked, ctl_tracked | apply as_tracked].
Qed.

Lemma upgradeToRevocableSession_tracked
    (session : jsobj -> Heap -> jsval * Heap) (user : User) (options : jsobj) :
  async_tracked (Src.upgradeToRevocableSession ctl session user options).
Proof.
  unfold Src.upgradeToRevocableSession. apply run_sync_tracked.
  { unfold Src.getSessionToken, Src.get. sync_step. }
  intros token. destruct (negb (truthy token)); [apply error_tracked |].
  apply then_tracked; [apply issue_tracked |].
  intros result. unfold Src.upgradeToRevocableSession_callback.
  apply run_sync_tracked.
  { sync_step.
    { intros w _. destruct (session result (heap w)) as [token' h]. cbn.
      split; [apply tracked_heap | discriminate]. }
    sync_step; [unfold Src._finishFetch; sync_step |].
    apply isCurrent_tracked. }
  intros [|]; [apply setCurrentUser_tracked, ctl_tracked | apply as_tracked].
Qed.

Lemma registerAuthenticationProvider_tracked
    (currentUserAsync : Async (option User)) (provider : Provider) :
  async_tracked currentUserAsync ->
  async_tracked
    (Src.ParseUser__registerAuthenticationProvider ctl currentUserAsync provider).
Proof.
  intros Hasync. unfold Src.ParseUser__registerAuthenticationProvider.
  apply run_sync_tracked.
  { apply (respects_write (fun _ => True) tracked). intros w _.
    exists []. split; [symmetry; apply app_nil_r | split; [exact I | reflexivity]]. }
  intros _. apply then_tracked.
  - unfold Src.ParseUser_currentAsync. apply run_sync_tracked; [sync_step |].
    intros [|]; [exact Hasync | apply as_tracked].
  - intros [current |]; apply run_sync_tracked;
      try (intros ?; apply as_tracked); [| sync_step].
    apply synchronizeAuthData_respects with (total := false);
      first [ exact tracked_refl | exact tracked_trans
            | exact (fun (w w' : World) (_ : True) (_ : tracked w w') => I)
            | exact (fun w (this : User) (f : jsobj -> jsobj) (_ : True) =>
                       tracked_heap w _)
            | exact (fun w (this : User) (authData : jsobj) (_ : True) =>
                       tracked_heap w _)
            | exact (fun w e (_ : True) (_ : store_access e = false)
                       (Hc : cache_event e = false) => tracked_log w e Hc)
            | exact ctl_tracked ].
Qed.

End TrackedOperations.

Section DispatchEverywhere.

Context `{OL : ObjectLayer} `{PF : Platform}.

(** X15: the cache changes only through [currentUserCache.set] in the rest
    of the controller as well: in every turn of [signUp], [logIn],
    [become], [save], [linkWith], [upgradeToRevocableSession],
    [requestPasswordReset] and [_registerAuthenticationProvider], and in
    [isCurrent()] and [authenticated()], the cache at the end is the cache
    at the start changed by the assignments recorded in the trace, each of
    which comes right after the dispatch of [Actions.set] for the value
    assigned, whatever the collaborators answer and whatever the state in
    which a suspended call is resumed. *)
Theorem every_operation_dispatches_cache_updates
    (session : jsobj -> Heap -> jsval * Heap)
    (user : User) (attrs authData email : jsval) (options : jsobj)
    (provider : Provider) :
  async_tracked (DefaultController.signUp user attrs options) /\
  async_tracked (DefaultController.logIn user options) /\
  async_tracked (DefaultController.become options) /\
  async_tracked (DefaultController.save user attrs options) /\
  async_tracked (DefaultController.linkWith user authData) /\
  async_tracked (DefaultController.upgradeToRevocableSession session user options) /\
  async_tracked (DefaultController.requestPasswordReset email options) /\
  async_tracked (ParseUser._registerAuthenticationProvider provider) /\
  (forall w, tracked w (ParseUser.isCurrent user w).1) /\
  (forall w, tracked w (ParseUser.authenticated user w).1).
Proof.
  pose proof (currentUser_at_tracked 2) as Hctl.
  split; [apply signUp_tracked, Hctl |].
  split; [apply logIn_tracked, Hctl |].
  split; [apply become_tracked, Hctl |].
  split; [apply save_tracked, Hctl |].
  split; [apply linkWith_tracked, Hctl |].
  split; [apply upgradeToRevocableSession_tracked, Hctl |].
  split; [apply issue_tracked |].
  split; [apply registerAuthenticationProvider_tracked;
          [exact Hctl | apply currentUserAsync_tracked, Hctl] |].
  split; intros w.
  - apply (isCurrent_tracked _ Hctl user w I).
  - apply (authenticated_tracked _ Hctl user w I).
Qed.

End DispatchEverywhere.


(** ** The snapshot that is written is the snapshot that is read *)

Section RoundTrip.

Context `{OL : ObjectLayer} `{PF : Platform}.

Lemma read_loads_normalized (o : jsobj) (text : string) (w : World) :
  let path := Storage_generatePath CURRENT_USER_KEY in
  JSON_parse text = Some (JObj o) ->
  text <> "" ->
  _currentUserCache w = None ->
  currentUserCacheMatchesDisk w = false ->
  (storage_async w = false ->
   storage_items w !! path = Some text ->
   _currentUserCache (DefaultController.currentUser w).1
   = Some (ParseObject_fromJSON (Src.normalize o) (heap w)).1) /\
  (exists k,
     (DefaultController.currentUserAsync w).2
     = Await (StorageGetItemAsync path) k /\
     forall w1,
       _currentUserCache (k (inl (Some text)) w1).1
       = Some (ParseObject_fromJSON (Src.normalize o) (heap w1)).1).
Proof.
  intros path Hparse Hne Hc Hm.
  assert (Htext : Src.item_text (Some text) = Some text).
  { cbn. destruct (String.eqb_spec text ""); [contradiction | reflexivity]. }
  pose proof (currentUser_cache_hit (DefaultController.currentUser_at 1)) as Hit1.
  pose proof (currentUser_cache_hit (DefaultController.currentUser_at 0)) as Hit0.
  split.
  - intros Ha Hitem.
    change (@DefaultController.currentUser OL PF)
      with (Src.currentUser (Src.currentUser (DefaultController.currentUser_at 0))).
    rewrite (currentUser_reads_store _ w Hc Hm Ha). fold path. rewrite Hitem.
    destruct (restore_spec _ Hit0 (Some text) (log (StorageGetItem path) w))
      as (w' & r & evs & Heq & _ & _ & _ & _ & Hst & _).
    rewrite Heq. cbn [fst]. unfold stored_identity in Hst.
    rewrite Htext in Hst. apply (Hst o Hparse).
  - destruct (currentUserAsync_reads_store DefaultController.currentUser w Hc Hm)
      as (k & Heq & Hk).
    exists k. unfold DefaultController.currentUserAsync. rewrite Heq.
    split; [reflexivity |]. intros w1.
    destruct (Hk w1) as [_ Hful]. rewrite Hful. unfold run_sync.
    change (@DefaultController.currentUser OL PF)
      with (Src.currentUser (DefaultController.currentUser_at 1)).
    destruct (restore_spec _ Hit1 (Some text) w1)
      as (w' & r & evs & Heq' & _ & _ & _ & _ & Hst & _).
    rewrite Heq'. unfold stored_identity in Hst. rewrite Htext in Hst.
    destruct r; cbn [fst]; apply (Hst o Hparse).
Qed.

(** X16: [updateUserOnDisk(user)] sends one write to the store: under the
    path of the current-user key, the text of the user's JSON tagged with
    the class name [_User]; its promise waits for that write, and the
    store, once it has carried the write out, holds that text under the
    path.  When [JSON.parse] reads the text back as the same object, and
    the user has no truthy attribute named [_id] or [_sessionToken], a
    later read of the current identity that finds in the store what the
    write has left there, synchronous or asynchronous, hands exactly that
    object to [ParseObject.fromJSON]: the normalisation changes nothing of
    it, and the user built from it is put in the cache. *)
Theorem persisted_snapshot_is_read_back (user : User) (w0 w : World) :
  let json :=
    <["className" := JStr "_User"]> (ParseObject_toJSON user (heap w0)) in
  let text := JSON_stringify json in
  let path := Storage_generatePath CURRENT_USER_KEY in
  JSON_parse text = Some (JObj json) ->
  text <> "" ->
  truthy (prop json "_id") = false ->
  truthy (prop json "_sessionToken") = false ->
  exists w0' promise evs,
    DefaultController.updateUserOnDisk user w0 = (w0', promise) /\
    trace w0' = trace w0 ++ evs /\
    evs = [Issued (StorageSetItemAsync path text)] /\
    settles_with (StorageSetItemAsync path text) (fun _ => user) promise /\
    (forall items, store_after evs items !! path = Some text) /\
    Src.normalize json = json /\
    (_currentUserCache w = None ->
     currentUserCacheMatchesDisk w = false ->
     storage_async w = false ->
     storage_items w = store_after evs (storage_items w0) ->
     _currentUserCache (DefaultController.currentUser w).1
     = Some (ParseObject_fromJSON json (heap w)).1) /\
    (_currentUserCache w = None ->
     currentUserCacheMatchesDisk w = false ->
     exists k,
       (DefaultController.currentUserAsync w).2
       = Await (StorageGetItemAsync path) k /\
       forall w1,
         _currentUserCache
           (k (inl (store_after evs (storage_items w0) !! path)) w1).1
         = Some (ParseObject_fromJSON json (heap w1)).1).
Proof.
  intros json text path Hparse Hne Hid Hs.
  assert (Hfix : Src.normalize json = json).
  { apply normalize_fixed; [| exact Hid | exact Hs].
    subst json. rewrite prop_insert_eq. reflexivity. }
  destruct (updateUserOnDisk_settles user w0) as (promise & Hupd & Hset).
  assert (Hstored : forall items,
    store_after [Issued (StorageSetItemAsync path text)] items !! path
    = Some text) by (intros items; apply lookup_insert_eq).
  exists (log (Issued (StorageSetItemAsync path text)) w0), promise,
    [Issued (StorageSetItemAsync path text)].
  split; [exact Hupd |]. split; [reflexivity |]. split; [reflexivity |].
  split; [exact Hset |]. split; [exact Hstored |]. split; [exact Hfix |].
  split.
  - intros Hc Hm Ha Hitems.
    destruct (read_loads_normalized json text w Hparse Hne Hc Hm) as [Hsync _].
    rewrite Hfix in Hsync. apply Hsync; [exact Ha |].
    rewrite Hitems. apply Hstored.
  - intros Hc Hm.
    destruct (read_loads_normalized json text w Hparse Hne Hc Hm)
      as [_ (k & Heq & Hk)].
    exists k. split; [exact Heq |]. intros w1.
    rewrite Hstored. specialize (Hk w1). rewrite Hfix in Hk. exact Hk.
Qed.

End RoundTrip.

Lemma persisted_snapshot_is_read_back_witness :
  let w0 : World := ParseUser.loaded false Sample.alice_heap false ∅ in
  let json :=
    <["className" := JStr "_User"]>
      (ParseObject_toJSON (0%nat : User) (heap w0)) in
  _currentUserCache
    (DefaultController.currentUser (PF := Scribe.platform) Scribe.browser).1
  = Some (ParseObject_fromJSON json (heap Scribe.browser)).1.
Proof.
  intros w0 json.
  destruct (persisted_snapshot_is_read_back (OL := ObjectState.layer)
              (PF := Scribe.platform) 0%nat w0 Scribe.browser)
    as (w0' & promise & evs & _ & _ & -> & _ & _ & _ & Hsync & _).
  - vm_compute. reflexivity.
  - intros H. vm_compute in H. discriminate H.
  - vm_compute. reflexivity.
  - vm_compute. reflexivity.
  - apply Hsync; [reflexivity | reflexivity | reflexivity |].
    vm_compute. reflexivity.
Defined.

(** ** The provider methods and the user that is not current *)

Section NotCurrent.

Context `{OL : ObjectLayer} `{PF : Platform}.

Variable ctl : Sync (option User).

Lemma for_each_fixed {A} (l : list A) (body : A -> Sync unit) (w : World) :
  (forall x, body x w = (w, Return tt)) ->
  for_each l body w = (w, Return tt).
Proof.
  intros Hbody. induction l as [| x l IH]; [reflexivity |].
  cbn. unfold bind. rewrite Hbody. exact IH.
Qed.

Lemma cleanupAuthData_after (this : User) (w w1 : World) (r : Result bool) :
  Src.isCurrent ctl this w = (w1, r) ->
  match r with
  | Return true => True
  | Return false => Src._cleanupAuthData ctl this w = (w1, Return tt)
  | Throw e => Src._cleanupAuthData ctl this w = (w1, Throw e)
  end.
Proof.
  intros H. destruct r as [[|] | e]; [exact I | |];
    unfold Src._cleanupAuthData; unfold bind at 1; rewrite H; reflexivity.
Qed.

Lemma logOutWith_after (this : User) (key : string) (w w1 : World)
    (r : Result bool) :
  Src.isCurrent ctl this w = (w1, r) ->
  match r with
  | Return true => True
  | Return false => Src._logOutWith ctl this key w = (w1, Return tt)
  | Throw e => Src._logOutWith ctl this key w = (w1, Throw e)
  end.
Proof.
  intros H. destruct r as [[|] | e]; [exact I | |];
    unfold Src._logOutWith; unfold bind at 1; rewrite H; reflexivity.
Qed.

Lemma synchronizeAuthData_after (this : User) (key : string) (w w1 : World)
    (r : Result bool) :
  Src.isCurrent ctl this w = (w1, r) ->
  match r with
  | Return true => True
  | Return false => Src._synchronizeAuthData ctl this key w = (w1, Return tt)
  | Throw e => Src._synchronizeAuthData ctl this key w = (w1, Throw e)
  end.
Proof.
  intros H. destruct r as [[|] | e]; [exact I | |];
    unfold Src._synchronizeAuthData; unfold bind at 1; rewrite H; reflexivity.
Qed.

End NotCurrent.

Section NotCurrentClaim.

Context `{OL : ObjectLayer} `{PF : Platform}.

(** X17: the provider methods concern the current user only.  For a user
    for which [isCurrent()] answers [false] without touching anything,
    [_cleanupAuthData], [_synchronizeAuthData], [_synchronizeAllAuthData],
    [_logOutWith] and [_logOutWithAll] return without doing anything: no
    entry of its [authData] is removed, no provider is asked to restore or
    to drop its authentication, no unlinking is started. *)
Theorem provider_methods_ignore_other_users (this : User) (key : string)
    (w : World) :
  ParseUser.isCurrent this w = (w, Return false) ->
  Src._cleanupAuthData DefaultController.currentUser this w = (w, Return tt) /\
  Src._synchronizeAuthData DefaultController.currentUser this key w
  = (w, Return tt) /\
  Src._synchronizeAllAuthData DefaultController.currentUser this w
  = (w, Return tt) /\
  Src._logOutWith DefaultController.currentUser this key w = (w, Return tt) /\
  Src._logOutWithAll DefaultController.currentUser this w = (w, Return tt).
Proof.
  intros Hcur. unfold ParseUser.isCurrent in Hcur.
  split; [exact (cleanupAuthData_after _ this w w _ Hcur) |].
  split; [exact (synchronizeAuthData_after _ this key w w _ Hcur) |].
  split; [| split; [exact (logOutWith_after _ this key w w _ Hcur) |]].
  - unfold Src._synchronizeAllAuthData, bind, Src.get, read.
    destruct (negb (typeof_object (ParseObject_get this "authData" (heap w))));
      [reflexivity |].
    apply for_each_fixed. intros k.
    exact (synchronizeAuthData_after _ this k w w _ Hcur).
  - unfold Src._logOutWithAll, bind, Src.get, read.
    destruct (negb (typeof_object (ParseObject_get this "authData" (heap w))));
      [reflexivity |].
    apply for_each_fixed. intros k.
    exact (logOutWith_after _ this k w w _ Hcur).
Qed.

(** X18: with nothing cached, [cacheMatchesDisk] false and a store that is
    asynchronous only, [isCurrent()] cannot answer: it makes the
    synchronous read, which throws.  [authenticated()] and the provider
    methods that ask it throw the same error, and a [save] that is resumed
    in such a state after the server's answer throws in its callback
    instead of settling. *)
Theorem isCurrent_throws_on_a_cold_asynchronous_store (this : User)
    (attrs : jsval) (options : jsobj) (key : string) (w : World) :
  canUseCurrentUser w = true ->
  _currentUserCache w = None ->
  currentUserCacheMatchesDisk w = false ->
  storage_async w = true ->
  exists message,
    ParseUser.isCurrent this w = (w, Throw (JsError message)) /\
    ParseUser.authenticated this w = (w, Throw (JsError message)) /\
    Src._cleanupAuthData DefaultController.currentUser this w
    = (w, Throw (JsError message)) /\
    Src._synchronizeAuthData DefaultController.currentUser this key w
    = (w, Throw (JsError message)) /\
    Src._logOutWith DefaultController.currentUser this key w
    = (w, Throw (JsError message)) /\
    forall w0, exists k,
      (DefaultController.save this attrs options w0).2
      = Await (ObjectSave this attrs options) k /\
      k (inl tt) w = (w, Settled (Crashed (JsError message))).
Proof.
  intros Hcan Hc Hm Ha.
  destruct (currentUser_async_store (DefaultController.currentUser_at 1) w Hc Hm Ha)
    as [message Hthrow].
  change (Src.currentUser (DefaultController.currentUser_at 1))
    with (@DefaultController.currentUser OL PF) in Hthrow.
  assert (Hcur : Src.isCurrent DefaultController.currentUser this w
                 = (w, Throw (JsError message))).
  { rewrite isCurrent_unfold. unfold Src.ParseUser_current, bind, read.
    rewrite Hcan. cbn [negb]. rewrite Hthrow. reflexivity. }
  exists message. split; [exact Hcur |].
  split.
  { unfold ParseUser.authenticated. rewrite authenticated_unfold, Hcur.
    reflexivity. }
  split; [exact (cleanupAuthData_after _ this w w _ Hcur) |].
  split; [exact (synchronizeAuthData_after _ this key w w _ Hcur) |].
  split; [exact (logOutWith_after _ this key w w _ Hcur) |].
  intros w0.
  unfold DefaultController.save, Src.save. unfold then_ at 1.
  rewrite super_save_unfold.
  match goal with
  | |- context [chain _ ?f] =>
      destruct (then_issue (ObjectSave this attrs options) f
                  (with_heap (ParseObject_save_begin this attrs options (heap w0)) w0))
        as (k & Heq & Hk)
  end.
  exists k. split.
  - unfold then_ in Heq. rewrite Heq. reflexivity.
  - destruct (Hk w) as [Hful _]. rewrite Hful. unfold run_sync. rewrite Hcur.
    reflexivity.
Qed.

End NotCurrentClaim.

Lemma provider_methods_ignore_other_users_witness :
  Src._logOutWithAll DefaultController.currentUser (0%nat : User) Sample.server
  = (Sample.server, Return tt).
Proof.
  apply (provider_methods_ignore_other_users (OL := ObjectState.layer)
           (PF := Sample.platform) 0%nat "facebook" Sample.server).
  reflexivity.
Defined.

Lemma isCurrent_throws_on_a_cold_asynchronous_store_witness :
  exists message,
    ParseUser.isCurrent (0%nat : User) Sample.mobile
    = (Sample.mobile, Throw (JsError message)).
Proof.
  destruct (isCurrent_throws_on_a_cold_asynchronous_store
              (OL := ObjectState.layer) (PF := Sample.platform)
              0%nat JUndefined ∅ "facebook" Sample.mobile
              eq_refl eq_refl eq_refl eq_refl) as (message & H & _).
  exists message. exact H.
Defined.

(** ** After the save of a sign-up and of a linking *)

Section AfterSave.

Context `{OL : ObjectLayer} `{PF : Platform}.

Lemma then_save {B} (ctl : Sync (option User)) (this : User) (attrs : jsval)
    (options : jsobj) (f : User -> Async B) (w : World) :
  exists k,
    then_ (Src.save ctl this attrs options) f w
    = (log (Issued (ObjectSave this attrs options))
         (with_heap (ParseObject_save_begin this attrs options (heap w)) w),
       Await (ObjectSave this attrs options) k) /\
    forall w1,
      (forall e, k (inr e) w1 = (w1, Settled (Rejected e))) /\
      (forall w2, Src.isCurrent ctl this w1 = (w2, Return false) ->
         k (inl tt) w1 = f this w2).
Proof.
  unfold then_, Src.save, then_, Src.super_save, run_sync at 1, write, issue.
  cbn [chain]. eexists. split; [reflexivity |].
  intros w1. split; [intros e; reflexivity |].
  intros w2 Hcur. cbn [chain]. unfold run_sync. rewrite Hcur. reflexivity.
Qed.

(** X19: when the save that [signUp] or [linkWith] has started succeeds
    and the user is not yet the current user, the callback (which for
    [signUp] first clears the password) makes the user the current user,
    unless the current user is disabled: the user is in the cache as soon
    as the callback has run, and [ParseUser.current()] returns it.  With
    the current user disabled the promise is fulfilled with the user and
    the cache is left alone. *)
Theorem signUp_and_linkWith_make_the_user_current (user : User)
    (attrs authData : jsval) (options : jsobj) (w : World) :
  (Src.empty_credential
     (Src.attr_or attrs "username" (ParseObject_get user "username" (heap w)))
   = false ->
   Src.empty_credential
     (Src.attr_or attrs "password" (ParseObject_get user "password" (heap w)))
   = false ->
   exists k,
     (DefaultController.signUp user attrs options w).2
     = Await (ObjectSave user attrs options) k /\
     forall w1 w2, ParseUser.isCurrent user w1 = (w2, Return false) ->
       (canUseCurrentUser w2 = true ->
        exists w3 promise,
          k (inl tt) w1 = (w3, promise) /\
          _currentUserCache w3 = Some user /\
          ParseUser.current w3 = (w3, Return (Some user))) /\
       (canUseCurrentUser w2 = false ->
        exists h, k (inl tt) w1 = (with_heap h w2, Settled (Fulfilled user)))) /\
  (exists k,
     (DefaultController.linkWith user authData w).2
     = Await (ObjectSave user (JObj {[ "authData" := authData ]}) ∅) k /\
     forall w1 w2, ParseUser.isCurrent user w1 = (w2, Return false) ->
       (canUseCurrentUser w2 = true ->
        exists w3 promise,
          k (inl tt) w1 = (w3, promise) /\
          _currentUserCache w3 = Some user /\
          ParseUser.current w3 = (w3, Return (Some user))) /\
       (canUseCurrentUser w2 = false ->
        k (inl tt) w1 = (w2, Settled (Fulfilled user)))).
Proof.
  assert (Hset : forall w0, canUseCurrentUser w0 = true ->
    exists w3 promise,
      Src.setCurrentUser DefaultController.currentUser user w0 = (w3, promise) /\
      _currentUserCache w3 = Some user /\
      ParseUser.current w3 = (w3, Return (Some user))).
  { intros w0 Hcan.
    destruct (setCurrentUser_outcome DefaultController.currentUser
                (currentUser_cache_hit _) user w0)
      as (w3 & promise & Heq & Hc & Hcan3 & _).
    exists w3, promise. split; [exact Heq |]. split; [exact Hc |].
    unfold ParseUser.current, Src.ParseUser_current, bind, read.
    rewrite Hcan3, Hcan. cbn [negb]. apply currentUser_hit, Hc. }
  split.
  - intros Hname Hpassword.
    unfold DefaultController.signUp, Src.signUp, run_sync at 1, bind, Src.get, read.
    cbn [ret]. rewrite Hname, Hpassword.
    match goal with
    | |- context [then_ _ ?f] =>
        destruct (then_save DefaultController.currentUser user attrs options f w)
          as (k & Heq & Hk)
    end.
    exists k. rewrite Heq. split; [reflexivity |].
    intros w1 w2 Hcur. destruct (Hk w1) as [_ Hful].
    rewrite (Hful w2 Hcur).
    unfold Src.signUp_callback, run_sync.
    destruct (signUp_saved_heap user w2) as [h ->].
    split; intros Hcan; rewrite Hcan.
    + apply Hset. exact Hcan.
    + exists h. reflexivity.
  - unfold DefaultController.linkWith, Src.linkWith.
    match goal with
    | |- context [then_ _ ?f] =>
        destruct (then_save DefaultController.currentUser user
                    (JObj {[ "authData" := authData ]}) ∅ f w)
          as (k & Heq & Hk)
    end.
    exists k. rewrite Heq. split; [reflexivity |].
    intros w1 w2 Hcur. destruct (Hk w1) as [_ Hful].
    rewrite (Hful w2 Hcur). unfold run_sync, read.
    split; intros Hcan; rewrite Hcan.
    + apply Hset. exact Hcan.
    + reflexivity.
Qed.

End AfterSave.

(** ** Logging out of the linked services *)

Section Deauthenticate.

Context `{OL : ObjectLayer} `{PF : Platform}.

Variable ctl : Sync (option User).
Hypothesis ctl_hit : cache_hit ctl.

Lemma isCurrent_cached (this current : User) (w : World) :
  canUseCurrentUser w = true ->
  _currentUserCache w = Some current ->
  Src.isCurrent ctl this w
  = (w, Return (strict_eq (ParseObject_id current (heap w))
                          (ParseObject_id this (heap w)))).
Proof.
  intros Hcan Hc. rewrite isCurrent_unfold.
  unfold Src.ParseUser_current, bind, read. rewrite Hcan. cbn [negb].
  rewrite (ctl_hit w current Hc). reflexivity.
Qed.

Lemma logOutWithAll_cached (this current : User) (keys : list string)
    (w : World) :
  canUseCurrentUser w = true ->
  _currentUserCache w = Some current ->
  strict_eq (ParseObject_id current (heap w)) (ParseObject_id this (heap w))
  = true ->
  exists w',
    for_each keys (Src._logOutWith ctl this) w = (w', Return tt) /\
    trace w' = trace w ++ deauthentications (authProviders w) keys /\
    heap w' = heap w /\
    quiet w w'.
Proof.
  revert w. induction keys as [| key keys IH]; intros w Hcan Hc Hid.
  - exists w. split; [reflexivity |]. split; [symmetry; apply app_nil_r |].
    split; [reflexivity | apply quiet_refl].
  - assert (Hstep : exists w1 evs,
      Src._logOutWith ctl this key w = (w1, Return tt) /\
      evs = match authProviders w !! key with
            | Some provider =>
                if has_deauthenticate provider
                then [Deauthenticated (getAuthType provider)] else []
            | None => []
            end /\
      trace w1 = trace w ++ evs /\
      heap w1 = heap w /\ quiet w w1).
    { unfold Src._logOutWith. unfold bind at 1.
      rewrite (isCurrent_cached this current w Hcan Hc), Hid. cbn [negb].
      unfold bind, read.
      destruct (authProviders w !! key) as [provider |].
      - destruct (has_deauthenticate provider).
        + eexists _, _. split; [reflexivity |]. split; [reflexivity |].
          split; [reflexivity |]. split; [reflexivity |].
          apply quiet_event; reflexivity.
        + exists w, []. split; [reflexivity |]. split; [reflexivity |].
          split; [symmetry; apply app_nil_r |].
          split; [reflexivity | apply quiet_refl].
      - exists w, []. split; [reflexivity |]. split; [reflexivity |].
        split; [symmetry; apply app_nil_r |].
        split; [reflexivity | apply quiet_refl]. }
    destruct Hstep as (w1 & evs & Hrun & Hevs & Ht1 & Hh1 & Hq1).
    pose proof Hq1 as (Hcan1 & _ & Hc1 & Hps1 & _).
    destruct (IH w1) as (w' & Hrest & Ht & Hh & Hq).
    { rewrite Hcan1. exact Hcan. }
    { rewrite Hc1. exact Hc. }
    { rewrite Hh1. exact Hid. }
    exists w'. split.
    { cbn [for_each]. unfold bind. rewrite Hrun. exact Hrest. }
    split.
    { rewrite Ht, Ht1, Hps1, <- app_assoc. unfold deauthentications.
      cbn [mbind list_bind]. rewrite <- Hevs. reflexivity. }
    split; [rewrite Hh; exact Hh1 | eapply quiet_trans; eassumption].
Qed.

End Deauthenticate.

Section DeauthenticateClaim.

Context `{OL : ObjectLayer} `{PF : Platform}.

(** X20: for the current user (the cache holds a user with the same [id])
    whose [authData] is an object, [_logOutWithAll()] calls
    [deauthenticate] once for each key of the [authData] under which a
    provider with that method is registered, in the order in which the
    [for]-[in] loop visits the keys (which are the own keys of the
    [authData], each once), and does nothing else: the entity layer, the
    cache and the store are left as they are. *)
Theorem logOutWithAll_deauthenticates_registered_providers
    (this current : User) (o : jsobj) (w : World) :
  canUseCurrentUser w = true ->
  _currentUserCache w = Some current ->
  strict_eq (ParseObject_id current (heap w)) (ParseObject_id this (heap w))
  = true ->
  ParseObject_get this "authData" (heap w) = JObj o ->
  exists w',
    Src._logOutWithAll DefaultController.currentUser this w = (w', Return tt) /\
    trace w'
    = trace w ++ deauthentications (authProviders w) (Src.keys_in (JObj o)) /\
    Src.keys_in (JObj o) ≡ₚ (map_to_list o).*1 /\
    heap w' = heap w /\
    quiet w w'.
Proof.
  intros Hcan Hc Hid Hdata.
  unfold Src._logOutWithAll, bind, Src.get, read. rewrite Hdata.
  cbn [typeof_object negb].
  destruct (logOutWithAll_cached DefaultController.currentUser
              (currentUser_cache_hit _) this current
              (Src.keys_in (JObj o)) w Hcan Hc Hid)
    as (w' & Hrun & Ht & Hh & Hq).
  exists w'. split; [exact Hrun |]. split; [exact Ht |].
  split; [apply for_in_keys |]. split; [exact Hh | exact Hq].
Qed.

End DeauthenticateClaim.

Lemma logOutWithAll_deauthenticates_registered_providers_witness :
  let w := with_cache (Some 0%nat) Sample.linked in
  exists w' : World,
    Src._logOutWithAll DefaultController.currentUser (0%nat : User) w
    = (w', Return tt) /\
    trace w' = [Deauthenticated "facebook"].
Proof.
  intros w.
  destruct (logOutWithAll_deauthenticates_registered_providers
              (OL := ObjectState.layer) (PF := Sample.platform)
              0%nat 0%nat
              {[ "facebook" := JObj {[ "id" := JStr "f1" ]}; "twitter" := JNull ]}
              w eq_refl eq_refl)
    as (w' & Hrun & Ht & _).
  { vm_compute. reflexivity. }
  { vm_compute. reflexivity. }
  exists w'. split; [exact Hrun |]. rewrite Ht. reflexivity.
Defined.
